(** * fav: bookmarks and groups of bookmarks for an editor

    A shallow embedding of the command handlers of [src/manager.ts]
    (class [FavoriteManager]) and of its predecessor
    [src/favoriteManager.ts], over a model of the JavaScript heap, of the
    favorite store and of the host editor.

    - JavaScript objects live on a heap and are named by references, so a
      mutation made through one alias ([bk.label = label],
      [group.addChild(fav)]) is seen through every other alias, the store
      included.
    - A handler is a state transformer over a [World] (the heap and the
      store) that also yields the calls it makes to the host.
    - The host (the user answering prompts, the active editor, the uuid
      generator) is a record of functions, [Host], over which every
      theorem is quantified. *)

From Stdlib Require Import Sorted.
From Stdlib Require OrderedTypeEx.
From stdpp Require Import base option list gmap strings pretty.

Set Default Proof Using "Type".

(** ** JavaScript values *)

(** [!s] is true of [undefined] and of the empty string. *)
Definition truthy (s : option string) : bool :=
  match s with
  | Some s => negb (String.eqb s "")
  | None => false
  end.

(** Object references. *)
Abbreviation ref := nat.

(** ** model.ts: the data model *)

Module Favorite.
(** Modelled from the spec: the class [Favorite] of model.ts, which is not
    among the sources. A leaf entry with a unique identifier, a label and
    the path of a file; [parent] is the identifier of the group that holds
    it, if one does; [description], which manager.ts assigns, is the
    second line of a quick-pick item. *)
Record t := mk {
  uuid : string;
  label : string;
  resourcePath : string;
  parent : option string;
  description : option string
}.

Definition set_label (l : string) (f : t) : t :=
  mk (uuid f) l (resourcePath f) (parent f) (description f).
Definition set_resourcePath (p : string) (f : t) : t :=
  mk (uuid f) (label f) p (parent f) (description f).
Definition set_parent (p : option string) (f : t) : t :=
  mk (uuid f) (label f) (resourcePath f) p (description f).
Definition set_description (d : option string) (f : t) : t :=
  mk (uuid f) (label f) (resourcePath f) (parent f) d.
End Favorite.

Module Group.
(** Modelled from the spec: the class [Group] of model.ts, which is not
    among the sources. A container entry with a unique identifier and a
    label; [children] is the ordered sequence of the Favorite objects it
    holds, so groups do not nest. *)
Record t := mk {
  uuid : string;
  label : string;
  children : list ref
}.

Definition set_label (l : string) (g : t) : t := mk (uuid g) l (children g).
Definition set_children (c : list ref) (g : t) : t := mk (uuid g) (label g) c.
End Group.

(** A reference to a Bookmarkable object. It carries the variant, which
    is what [isGroup] tests. *)
Inductive Bookmarkable :=
| AFavorite (r : ref)
| AGroup (r : ref).

Definition isGroup (x : Bookmarkable) : bool :=
  match x with AGroup _ => true | AFavorite _ => false end.

#[global] Instance Favorite_eq_dec : EqDecision Favorite.t.
Proof. solve_decision. Defined.
#[global] Instance Group_eq_dec : EqDecision Group.t.
Proof. solve_decision. Defined.
#[global] Instance Bookmarkable_eq_dec : EqDecision Bookmarkable.
Proof. solve_decision. Defined.

(** ** The persisted document *)

Unset Elimination Schemes.
Inductive json :=
| JNull
| JBool (b : bool)
| JNumber (n : Z)
| JString (s : string)
| JArray (items : list json)
| JObject (fields : list (string * json)).
Set Elimination Schemes.

(** The content of [favorites.json]: a text that [JSON.parse] rejects, or
    the value it parses to. *)
Inductive Document :=
| Unparseable (text : string)
| Parsed (value : json).

(** What the document lists of an entry: its kind, its label, and its
    path or its children. *)
Inductive Entry :=
| EFavorite (label path : string)
| EGroup (label : string) (children : list (string * string)).

(** ** The world a handler runs in *)

Record QuickPickItem := mkItem {
  item_label : string;
  item_description : option string
}.

(** A call to the host, with the answer of the user where there is one. *)
Inductive HostCall :=
| ShowInputBox (prompt value : string) (answer : option string)
| ShowQuickPick (items : list QuickPickItem) (answer : option nat)
| ShowWarningMessage (message : string) (items : list string) (answer : option string)
| ShowErrorMessage (message : string) (items : list string)
| ShowTextDocument (path : string)
| ProviderRefresh (element : option Bookmarkable)
| TreeViewReveal (element : Bookmarkable).

(** The heap and the store: the Favorite and Group objects, the array
    [FavoriteStore._favorites] and the file behind [storeUri]. *)
Record Store := mkStore {
  favoriteObjects : gmap nat Favorite.t;
  groupObjects : gmap nat Group.t;
  _favorites : list Bookmarkable;
  storeFile : Document
}.

Record World := mkWorld {
  store : Store;
  uuids : nat   (* number of uuids drawn so far *)
}.

(** The environment of the extension. *)
Record Host := mkHost {
  activeTextEditor : option string;   (* document.uri.fsPath of the active editor *)
  inputBox : string -> string -> option string;
  quickPick : list QuickPickItem -> option nat;
  warningMessage : string -> list string -> option string;
  uuidv4 : nat -> string;             (* the n-th uuid the generator yields *)
  errorMessage : Document -> string   (* the message of the error a document raises *)
}.

(** ** Handlers as state transformers *)

Definition Task (A : Type) : Type := World -> A * World * list HostCall.

Definition ret {A} (a : A) : Task A := fun w => (a, w, []).
Definition bind {A B} (m : Task A) (k : A -> Task B) : Task B :=
  fun w =>
    let r := m w in
    let r' := k r.1.1 r.1.2 in
    (r'.1.1, r'.1.2, r.2 ++ r'.2).

Declare Scope task_scope.
Delimit Scope task_scope with task.
Bind Scope task_scope with Task.
Notation "x <- c ;; k" := (bind c (fun x => k))
  (at level 100, c at next level, k at level 200, right associativity) : task_scope.
Notation "c ;; k" := (bind c (fun _ => k))
  (at level 100, k at level 200, right associativity) : task_scope.
Open Scope task_scope.

Definition gets {A} (f : Store -> A) : Task A := fun w => (f (store w), w, []).
Definition modify (f : Store -> Store) : Task unit :=
  fun w => (tt, mkWorld (f (store w)) (uuids w), []).
Definition call (c : HostCall) : Task unit := fun w => (tt, w, [c]).

(** What a task returns, the world it leaves and the host calls it makes. *)
Definition result {A} (m : Task A) (w : World) : A := (m w).1.1.
Definition exec {A} (m : Task A) (w : World) : World := (m w).1.2.
Definition emitted {A} (m : Task A) (w : World) : list HostCall := (m w).2.

Fixpoint forEach {A} (f : A -> Task unit) (l : list A) : Task unit :=
  match l with
  | [] => ret tt
  | x :: l => f x ;; forEach f l
  end.

(** ** Reading and writing objects *)

#[global] Instance Favorite_inhabited : Inhabited Favorite.t :=
  populate (Favorite.mk "" "" "" None None).
#[global] Instance Group_inhabited : Inhabited Group.t :=
  populate (Group.mk "" "" []).

Definition theFavorite (s : Store) (r : ref) : Favorite.t := favoriteObjects s !!! r.
Definition theGroup (s : Store) (r : ref) : Group.t := groupObjects s !!! r.

Definition uuidOf (s : Store) (x : Bookmarkable) : string :=
  match x with
  | AFavorite r => Favorite.uuid (theFavorite s r)
  | AGroup r => Group.uuid (theGroup s r)
  end.

Definition labelOf (s : Store) (x : Bookmarkable) : string :=
  match x with
  | AFavorite r => Favorite.label (theFavorite s r)
  | AGroup r => Group.label (theGroup s r)
  end.

Definition childrenOf (s : Store) (g : ref) : list ref := Group.children (theGroup s g).

Definition updFavorite (f : Favorite.t -> Favorite.t) (r : ref) (s : Store) : Store :=
  mkStore (alter f r (favoriteObjects s)) (groupObjects s) (_favorites s) (storeFile s).
Definition updGroup (f : Group.t -> Group.t) (r : ref) (s : Store) : Store :=
  mkStore (favoriteObjects s) (alter f r (groupObjects s)) (_favorites s) (storeFile s).
Definition setFavorites (l : list Bookmarkable) (s : Store) : Store :=
  mkStore (favoriteObjects s) (groupObjects s) l (storeFile s).
Definition setStoreFile (d : Document) (s : Store) : Store :=
  mkStore (favoriteObjects s) (groupObjects s) (_favorites s) d.

(** [x.label = l] *)
Definition assignLabel (x : Bookmarkable) (l : string) : Task unit :=
  match x with
  | AFavorite r => modify (updFavorite (Favorite.set_label l) r)
  | AGroup r => modify (updGroup (Group.set_label l) r)
  end.

(** [fav.resourcePath = p] *)
Definition assignResourcePath (r : ref) (p : string) : Task unit :=
  modify (updFavorite (Favorite.set_resourcePath p) r).

(** [fav.description = d] *)
Definition assignDescription (r : ref) (d : string) : Task unit :=
  modify (updFavorite (Favorite.set_description (Some d)) r).

(** ** The persisted format *)

Definition childEntry (s : Store) (r : ref) : option (string * string) :=
  (fun f => (Favorite.label f, Favorite.resourcePath f)) <$> favoriteObjects s !! r.

Definition entryOf (s : Store) (x : Bookmarkable) : option Entry :=
  match x with
  | AFavorite r =>
      (fun f => EFavorite (Favorite.label f) (Favorite.resourcePath f))
        <$> favoriteObjects s !! r
  | AGroup r =>
      (fun g => EGroup (Group.label g) (omap (childEntry s) (Group.children g)))
        <$> groupObjects s !! r
  end.

(** The entity list of the store: labels, paths and group memberships. *)
Definition entities (s : Store) : list Entry := omap (entryOf s) (_favorites s).

(** Modelled from the spec: the writer of store.ts, which is not among the
    sources. A record has a kind discriminator, a label, and a path or
    children. *)
Definition encodeFavorite (c : string * string) : json :=
  JObject [("kind", JString "favorite"); ("label", JString c.1);
           ("resourcePath", JString c.2)].

(** Modelled from the spec: the writer of store.ts (see [encodeFavorite]). *)
Definition encodeEntry (e : Entry) : json :=
  match e with
  | EFavorite l p => encodeFavorite (l, p)
  | EGroup l cs =>
      JObject [("kind", JString "group"); ("label", JString l);
               ("children", JArray (encodeFavorite <$> cs))]
  end.

(** Modelled from the spec: the writer of store.ts (see [encodeFavorite]);
    the document is the array of the records. *)
Definition encode (es : list Entry) : json := JArray (encodeEntry <$> es).

Definition field (k : string) (fields : list (string * json)) : option json :=
  snd <$> List.find (fun kv => String.eqb kv.1 k) fields.

Definition asString (j : option json) : option string :=
  match j with Some (JString s) => Some s | _ => None end.

(** Modelled from the spec: the reader of store.ts, which is not among the
    sources. A record that lacks its kind, its label or its path, or that
    has another shape, makes the document malformed. *)
Definition decodeFavorite (j : json) : option (string * string) :=
  match j with
  | JObject fs =>
      k ← asString (field "kind" fs);
      l ← asString (field "label" fs);
      p ← asString (field "resourcePath" fs);
      if String.eqb k "favorite" then Some (l, p) else None
  | _ => None
  end.

(** Modelled from the spec: the reader of store.ts (see [decodeFavorite]). *)
Definition decodeEntry (j : json) : option Entry :=
  match j with
  | JObject fs =>
      k ← asString (field "kind" fs);
      l ← asString (field "label" fs);
      if String.eqb k "group" then
        match field "children" fs with
        | Some (JArray items) => EGroup l <$> mapM decodeFavorite items
        | _ => None
        end
      else
        p ← asString (field "resourcePath" fs);
        if String.eqb k "favorite" then Some (EFavorite l p) else None
  | _ => None
  end.

(** Modelled from the spec: the reader of store.ts (see [decodeFavorite]). *)
Definition decode (d : Document) : option (list Entry) :=
  match d with
  | Parsed (JArray items) => mapM decodeEntry items
  | _ => None
  end.

(** What a command receives for the element selected in the GUI. *)
Record Node := mkNode { fsPath : option string }.

(** [s || ''] *)
Definition orEmpty (s : option string) : string :=
  if truthy s then default "" s else "".

Section Extension.
Context (host : Host).

(** [Utils.fileName] of utils.ts, which is not among the sources. *)
Variable fileName : string -> string.
(** [bookmarkableLabelComparator] of model.ts, which is not among the
    sources: whether the first label sorts no later than the second. *)
Variable bookmarkableLabelComparator : string -> string -> bool.
(** The path of [FavoriteStore.storeUri]. *)
Variable storeUri : string.

(** *** vscode.window *)

Definition showInputBox (prompt value : string) : Task (option string) :=
  let answer := inputBox host prompt value in
  call (ShowInputBox prompt value answer) ;;
  ret answer.

Definition quickPickItem (s : Store) (x : Bookmarkable) : QuickPickItem :=
  match x with
  | AFavorite r => mkItem (labelOf s x) (Favorite.description (theFavorite s r))
  | AGroup _ => mkItem (labelOf s x) None
  end.

(** The user picks one of the items shown, or nothing. *)
Definition answerOf (shown : list QuickPickItem) : option nat :=
  i ← quickPick host shown;
  if bool_decide (i < length shown) then Some i else None.

Definition showQuickPick (items : list Bookmarkable) : Task (option Bookmarkable) :=
  s <- gets id ;;
  let shown := quickPickItem s <$> items in
  call (ShowQuickPick shown (answerOf shown)) ;;
  ret (i ← answerOf shown; items !! i).

Definition showWarningMessage (message : string) (items : list string)
  : Task (option string) :=
  let answer :=
    a ← warningMessage host message items;
    if bool_decide (a ∈ items) then Some a else None in
  call (ShowWarningMessage message items answer) ;;
  ret answer.

Definition showErrorMessage (message : string) (items : list string) : Task unit :=
  call (ShowErrorMessage message items).

Definition showTextDocument (path : string) : Task unit :=
  call (ShowTextDocument path).

(** *** tree.ts: [FavoritesTreeDataProvider.refresh] fires the change
    event of the tree, and [TreeView.reveal] is the host's. *)

Definition providerRefresh (element : option Bookmarkable) : Task unit :=
  call (ProviderRefresh element).

Definition treeViewReveal (element : Bookmarkable) : Task unit :=
  call (TreeViewReveal element).

(** *** model.ts: constructors and methods *)

Definition drawUuid : Task string :=
  fun w => (uuidv4 host (uuids w), mkWorld (store w) (S (uuids w)), []).

Definition allocFavorite (f : Favorite.t) : Task ref :=
  s <- gets id ;;
  let r := fresh (dom (favoriteObjects s)) in
  modify (fun s => mkStore (<[r := f]> (favoriteObjects s)) (groupObjects s)
                           (_favorites s) (storeFile s)) ;;
  ret r.

Definition allocGroup (g : Group.t) : Task ref :=
  s <- gets id ;;
  let r := fresh (dom (groupObjects s)) in
  modify (fun s => mkStore (favoriteObjects s) (<[r := g]> (groupObjects s))
                           (_favorites s) (storeFile s)) ;;
  ret r.

(** Modelled from the spec: the constructor [new Favorite()] of model.ts,
    which is not among the sources. The object gets a unique identifier;
    it has no parent yet. *)
Definition newFavorite : Task ref :=
  u <- drawUuid ;;
  allocFavorite (Favorite.mk u "" "" None None).

(** Modelled from the spec: the constructor [new Group()] of model.ts,
    which is not among the sources. The object gets a unique identifier
    and an empty sequence of children. *)
Definition newGroup : Task ref :=
  u <- drawUuid ;;
  allocGroup (Group.mk u "" []).

(** Modelled from the spec: the getter [Group.hasChildren] of model.ts,
    which is not among the sources: the group holds at least one child. *)
Definition hasChildren (g : ref) : Task bool :=
  gets (fun s => negb (bool_decide (childrenOf s g = []))).

(** Modelled from the spec: [Group.addChild] of model.ts, which is not
    among the sources. The favorite is appended to the children of the
    group and its parent reference names the group. *)
Definition withChild (g f : ref) (s : Store) : Store :=
  updGroup (fun o => Group.set_children (Group.children o ++ [f]) o) g
    (updFavorite (Favorite.set_parent (Some (uuidOf s (AGroup g)))) f s).

Definition addChild (g f : ref) : Task unit := modify (withChild g f).

(** Modelled from the spec: [Group.removeChild] of model.ts, which is not
    among the sources. The children that carry the identifier of the
    favorite leave the group. *)
Definition withoutChild (g f : ref) (s : Store) : Store :=
  updGroup (fun o => Group.set_children
    (filter (fun c => uuidOf s (AFavorite c) ≠ uuidOf s (AFavorite f))
            (Group.children o)) o) g s.

Definition removeChild (g f : ref) : Task unit := modify (withoutChild g f).

(** *** store.ts: [FavoriteStore] *)

(** Modelled from the spec: the write-back of store.ts, which is not
    among the sources: the document becomes the list of the records of
    the store. *)
Definition writtenBack (s : Store) : Store :=
  setStoreFile (Parsed (encode (entities s))) s.

Definition persist : Task unit := modify writtenBack.

(** The change callback given to [FavoriteStore.fromContext]:
    [() => this._provider.refresh()]. *)
Definition onChange : Task unit := providerRefresh None.

(** Modelled from the spec: [FavoriteStore.add] of store.ts, which is not
    among the sources. The entry joins the list, the list is written
    back and the change is notified. *)
Definition storeAdd (x : Bookmarkable) : Task unit :=
  modify (fun s => setFavorites (_favorites s ++ [x]) s) ;;
  persist ;;
  onChange.

(** Modelled from the spec: [FavoriteStore.update] of store.ts, which is
    not among the sources. Entries are mutated in place by the caller;
    the list is written back and the change is notified. *)
Definition storeUpdate (x : option Bookmarkable) : Task unit :=
  persist ;;
  onChange.

(** Modelled from the spec: [FavoriteStore.all] of store.ts, which is not
    among the sources. *)
Definition storeAll : Task (list Bookmarkable) := gets _favorites.

Definition groupRef (x : Bookmarkable) : option ref :=
  match x with AGroup r => Some r | AFavorite _ => None end.

(** Modelled from the spec: [FavoriteStore.groups] of store.ts, which is
    not among the sources: the groups of the list, in order. *)
Definition storeGroups : Task (list ref) :=
  gets (fun s => omap groupRef (_favorites s)).

(** Modelled from the spec: [FavoriteStore.getParent] of store.ts, which
    is not among the sources: the group that the parent reference of the
    favorite names, if there is one. *)
Definition storeGetParent (f : ref) : Task (option ref) :=
  gets (fun s =>
    p ← Favorite.parent (theFavorite s f);
    List.find (fun g => String.eqb (Group.uuid (theGroup s g)) p)
              (omap groupRef (_favorites s))).

(** Modelled from the spec: [FavoriteStore.delete] of store.ts, which is
    not among the sources. The entry leaves the list (a group takes its
    children with it) or, for a favorite held by a group, the children
    of that group; the list is written back and the change is notified. *)
Definition withoutEntry (x : Bookmarkable) (s : Store) : Store :=
  setFavorites (filter (fun y => uuidOf s y ≠ uuidOf s x) (_favorites s)) s.

(** Modelled from the spec: see [withoutEntry]. *)
Definition storeDelete (x : Bookmarkable) : Task unit :=
  modify (withoutEntry x) ;;
  match x with
  | AFavorite f =>
      parent <- storeGetParent f ;;
      match parent with
      | Some g => removeChild g f
      | None => ret tt
      end
  | AGroup _ => ret tt
  end ;;
  persist ;;
  onChange.

(** Modelled from the spec: the object a record of the document stands
    for, as the reader of store.ts (not among the sources) builds it. *)
Definition loadFavorite (c : string * string) : Task ref :=
  f <- newFavorite ;;
  assignLabel (AFavorite f) c.1 ;;
  assignResourcePath f c.2 ;;
  ret f.

(** Modelled from the spec: see [loadFavorite]. *)
Definition loadChildren (g : ref) (cs : list (string * string)) : Task unit :=
  forEach (fun c => f <- loadFavorite c ;; addChild g f) cs.

(** Modelled from the spec: see [loadFavorite]. *)
Definition loadEntry (e : Entry) : Task Bookmarkable :=
  match e with
  | EFavorite l p => f <- loadFavorite (l, p) ;; ret (AFavorite f)
  | EGroup l cs =>
      g <- newGroup ;;
      assignLabel (AGroup g) l ;;
      loadChildren g cs ;;
      ret (AGroup g)
  end.

(** Modelled from the spec: see [loadFavorite]. *)
Fixpoint loadEntries (es : list Entry) : Task (list Bookmarkable) :=
  match es with
  | [] => ret []
  | e :: es => x <- loadEntry e ;; xs <- loadEntries es ;; ret (x :: xs)
  end.

(** Modelled from the spec: [FavoriteStore.refresh] of store.ts, which is
    not among the sources. The document is read first: a malformed one
    raises an error ([inr], with its message) and the memory keeps its
    state; otherwise the list is replaced by the objects of the document
    and the change is notified. *)
Definition storeRefresh : Task (unit + string) :=
  s <- gets id ;;
  match decode (storeFile s) with
  | None => ret (inr (errorMessage host (storeFile s)))
  | Some es =>
      xs <- loadEntries es ;;
      modify (setFavorites xs) ;;
      onChange ;;
      ret (inl tt)
  end.

(** *** manager.ts: [FavoriteManager] *)

Definition selectedElementPath (node : option Node) : option string :=
  if truthy (n ← node; fsPath n) then n ← node; fsPath n
  else match activeTextEditor host with
       | Some p => Some p
       | None => None
       end.

(** [exclusions.find(x => x?.uuid === f.uuid)] *)
Definition findExclusion (s : Store) (exclusions : list (option ref)) (f : ref)
  : option (option ref) :=
  List.find (fun x => match x with
                      | Some x => String.eqb (uuidOf s (AGroup x)) (uuidOf s (AGroup f))
                      | None => false
                      end) exclusions.

Definition isObject (x : option (option ref)) : bool :=
  match x with Some (Some _) => true | _ => false end.

Definition promptGroupSelection (exclusions : list (option ref)) : Task (option ref) :=
  groups <- storeGroups ;;
  s <- gets id ;;
  picked <- showQuickPick
    (AGroup <$> List.filter (fun f => negb (isObject (findExclusion s exclusions f))) groups) ;;
  ret (x ← picked; groupRef x).

Definition favoriteActiveFile (node : option Node) : Task unit :=
  let path := selectedElementPath node in
  if negb (truthy path) then ret tt else
  label <- showInputBox "Label" (fileName (default "" path)) ;;
  if negb (truthy label) then ret tt else
  fav <- newFavorite ;;
  assignLabel (AFavorite fav) (default "" label) ;;
  assignResourcePath fav (orEmpty path) ;;
  storeAdd (AFavorite fav) ;;
  providerRefresh None ;;
  treeViewReveal (AFavorite fav).

Definition favoriteActiveFileToGroup (node : option Node) : Task unit :=
  let path := selectedElementPath node in
  if negb (truthy path) then ret tt else
  groups <- storeGroups ;;
  if bool_decide (length groups = 0) then
    showWarningMessage "No favorite groups found, please define a group first" [] ;;
    ret tt
  else
  picked <- showQuickPick (AGroup <$> groups) ;;
  match x ← picked; groupRef x with
  | Some group =>
      label <- showInputBox "Label" (fileName (default "" path)) ;;
      if negb (truthy label) then ret tt else
      fav <- newFavorite ;;
      assignLabel (AFavorite fav) (default "" label) ;;
      assignResourcePath fav (orEmpty path) ;;
      addChild group fav ;;
      storeUpdate (Some (AGroup group)) ;;
      providerRefresh (Some (AGroup group)) ;;
      treeViewReveal (AFavorite fav)
  | None => ret tt
  end.

Definition editFavorites : Task unit :=
  showTextDocument storeUri ;;
  showWarningMessage "Please be careful when manually editing your favorites"
                     ["Understood"] ;;
  ret tt.

Definition reloadFavorites : Task unit :=
  r <- storeRefresh ;;
  match r with
  | inl _ => ret tt
  | inr message => showErrorMessage message ["Ok"]
  end.

(** [x.children.map(child => { child.description = ...; return child; })] *)
Fixpoint describeChildren (x : ref) (children : list ref) : Task (list ref) :=
  match children with
  | [] => ret []
  | child :: children =>
      s <- gets id ;;
      assignDescription child ("  $(folder) " +:+ labelOf s (AGroup x)) ;;
      rest <- describeChildren x children ;;
      ret (child :: rest)
  end.

Fixpoint flatMapFavorites (all : list Bookmarkable) : Task (list ref) :=
  match all with
  | [] => ret []
  | x :: all =>
      here <- match x with
              | AGroup g => s <- gets id ;; describeChildren g (childrenOf s g)
              | AFavorite f => ret [f]
              end ;;
      rest <- flatMapFavorites all ;;
      ret (here ++ rest)
  end.

Fixpoint insertByLabel (s : Store) (x : ref) (l : list ref) : list ref :=
  match l with
  | [] => [x]
  | y :: l' =>
      if bookmarkableLabelComparator (labelOf s (AFavorite x)) (labelOf s (AFavorite y))
      then x :: l
      else y :: insertByLabel s x l'
  end.

(** [.sort(bookmarkableLabelComparator)]: a stable sort. *)
Definition sortByLabel (s : Store) (l : list ref) : list ref :=
  foldr (insertByLabel s) [] l.

Definition openFavorite : Task unit :=
  all <- storeAll ;;
  flat <- flatMapFavorites all ;;
  s <- gets id ;;
  let favorites := sortByLabel s flat in
  favorite <- showQuickPick (AFavorite <$> favorites) ;;
  match favorite with
  | Some (AFavorite f) => showTextDocument (Favorite.resourcePath (theFavorite s f))
  | _ => ret tt
  end.

Definition openGroup (group : option ref) : Task unit :=
  nonEmpty <- match group with
              | Some g => hasChildren g
              | None => ret false
              end ;;
  group <- (if negb (bool_decide (is_Some group)) || negb nonEmpty
            then promptGroupSelection []
            else ret group) ;;
  match group with
  | Some g =>
      s <- gets id ;;
      forEach (fun f => showTextDocument (Favorite.resourcePath (theFavorite s f)))
              (childrenOf s g)
  | None => ret tt
  end.

Definition createGroup : Task unit :=
  label <- showInputBox "New favorite group name :" "New group" ;;
  if negb (truthy label) then ret tt else
  group <- newGroup ;;
  assignLabel (AGroup group) (default "" label) ;;
  storeAdd (AGroup group) ;;
  providerRefresh None ;;
  treeViewReveal (AGroup group).

Definition removeMessage (s : Store) (favorite : Bookmarkable) : string :=
  match favorite with
  | AGroup g =>
      if negb (bool_decide (childrenOf s g = [])) then
        "Remove the '" +:+ labelOf s favorite +:+ "' group and all its favorites - "
          +:+ pretty (length (childrenOf s g)) +:+ " favorite(s) ?"
      else "Remove '" +:+ labelOf s favorite +:+ "' from your favorites ?"
  | AFavorite _ => "Remove '" +:+ labelOf s favorite +:+ "' from your favorites ?"
  end.

Definition removeFavorite (favorite : option Bookmarkable) : Task unit :=
  match favorite with
  | Some favorite =>
      s <- gets id ;;
      choice <- showWarningMessage (removeMessage s favorite) ["Yes"; "No"] ;;
      if bool_decide (choice = Some "Yes") then
        storeDelete favorite ;;
        providerRefresh None
      else ret tt
  | None => ret tt
  end.

Definition moveFavorite (favorite : option ref) : Task unit :=
  match favorite with
  | None => ret tt
  | Some favorite =>
      parent <- storeGetParent favorite ;;
      group <- promptGroupSelection [parent] ;;
      match group with
      | Some group =>
          match parent with
          | Some parent => removeChild parent favorite
          | None => storeDelete (AFavorite favorite)
          end ;;
          addChild group favorite ;;
          storeUpdate None ;;
          providerRefresh None ;;
          treeViewReveal (AFavorite favorite)
      | None => ret tt
      end
  end.

Definition renameFavorite (bk : option Bookmarkable) : Task unit :=
  match bk with
  | Some bk =>
      s <- gets id ;;
      label <- showInputBox "Rename to" (labelOf s bk) ;;
      if truthy label then
        assignLabel bk (default "" label) ;;
        storeUpdate (Some bk) ;;
        providerRefresh (Some bk) ;;
        treeViewReveal bk
      else ret tt
  | None => ret tt
  end.

Definition openResource (resource : string) : Task unit :=
  showTextDocument resource.

(** The hook of the constructor: saving the store file reloads it. *)
Definition onDidSaveTextDocument (path : string) : Task unit :=
  if String.eqb path storeUri then reloadFavorites else ret tt.

(** The commands of [registerCommands], by handler, with the argument
    the host passes. *)
Inductive Command :=
| FavoriteActiveFile (node : option Node)
| FavoriteActiveFileToGroup (node : option Node)
| EditFavorites
| ReloadFavorites
| OpenFavorite
| CreateGroup
| OpenGroup (group : option ref)
| RemoveFavorite (favorite : option Bookmarkable)
| RenameFavorite (bk : option Bookmarkable)
| MoveFavorite (favorite : option ref)
| OpenResource (resource : string).

Definition handler (c : Command) : Task unit :=
  match c with
  | FavoriteActiveFile node => favoriteActiveFile node
  | FavoriteActiveFileToGroup node => favoriteActiveFileToGroup node
  | EditFavorites => editFavorites
  | ReloadFavorites => reloadFavorites
  | OpenFavorite => openFavorite
  | CreateGroup => createGroup
  | OpenGroup group => openGroup group
  | RemoveFavorite favorite => removeFavorite favorite
  | RenameFavorite bk => renameFavorite bk
  | MoveFavorite favorite => moveFavorite favorite
  | OpenResource resource => openResource resource
  end.

End Extension.

(** ** favoriteManager.ts: the earlier [FavoriteManager]

    The earlier version has one class, [Favorite], with a [kind]; a
    favorite of kind [Group] is a group here and one of kind [File] a
    favorite, so [fav.kind = FavoriteKind.File] is the variant of the
    reference. [selectedElementPath] is the same in both versions, and
    the store of that version (favoriteStore.ts, not among the sources)
    is taken to have the [groups] of the later one. *)

Module Legacy.
Section Handlers.
Context (host : Host).

(** An array is an object: [!groups] is false, also for an empty array. *)
Definition arrayTruthy {A} (l : list A) : bool := true.

(** Modelled from the spec: [FavoriteStore.update] of favoriteStore.ts,
    which is not among the sources. The list is written back; the tree
    provider of that version subscribes to [onFavoriteUpdated] and
    refreshes the updated node. *)
Definition storeUpdate (x : Bookmarkable) : Task unit :=
  persist ;;
  providerRefresh (Some x).

(** [selection.children.push(fav)] *)
Definition pushChild (g f : ref) : Task unit :=
  modify (updGroup (fun o => Group.set_children (Group.children o ++ [f]) o) g).

(** [fav.parent = selection.uuid] *)
Definition assignParent (f g : ref) : Task unit :=
  modify (fun s => updFavorite (Favorite.set_parent (Some (uuidOf s (AGroup g)))) f s).

Definition favoriteActiveFileToGroup (node : option Node) : Task unit :=
  let path := selectedElementPath host node in
  if negb (truthy path) then ret tt else
  groups <- storeGroups ;;
  if negb (arrayTruthy groups) then
    showWarningMessage host "No favorite groups found, please define a group first" [] ;;
    ret tt
  else
  picked <- showQuickPick host (AGroup <$> groups) ;;
  match x ← picked; groupRef x with
  | Some selection =>
      v <- showInputBox host "Label" (default "" path) ;;
      if negb (truthy v) then ret tt else
      fav <- newFavorite host ;;
      assignLabel (AFavorite fav) (default "" v) ;;
      assignResourcePath fav (orEmpty path) ;;
      pushChild selection fav ;;
      storeUpdate (AGroup selection) ;;
      assignParent fav selection ;;
      treeViewReveal (AFavorite fav)
  | None => ret tt
  end.

(** [fav && FavoriteKind.Group === fav.kind && fav.children]: the
    children of a group are an array, which is truthy. *)
Definition openGroup (fav : option Bookmarkable) : Task unit :=
  selection <- match fav with
               | Some (AGroup g) => ret (Some g)
               | _ =>
                   groups <- storeGroups ;;
                   picked <- showQuickPick host (AGroup <$> groups) ;;
                   ret (x ← picked; groupRef x)
               end ;;
  match selection with
  | Some g =>
      s <- gets id ;;
      forEach (fun f => showTextDocument (Favorite.resourcePath (theFavorite s f)))
              (childrenOf s g)
  | None => ret tt
  end.

Definition renameFavorite (favorite : option Bookmarkable) : Task unit :=
  match favorite with
  | Some favorite =>
      s <- gets id ;;
      value <- showInputBox host "Rename to" (labelOf s favorite) ;;
      if truthy value then
        assignLabel favorite (default "" value) ;;
        storeUpdate favorite
      else ret tt
  | None => ret tt
  end.


(** Further handlers of favoriteManager.ts. Its store (favoriteStore.ts,
    not among the sources) is taken to have the [add] of the later one;
    the tree provider of that version refreshes the whole tree on
    [onFavoriteAdded], which is the change notification of [storeAdd]. *)

(** Modelled from the spec: [FavoriteStore.favorites] of favoriteStore.ts,
    which is not among the sources: the list of the store. *)
Definition storeFavorites : Task (list Bookmarkable) := gets _favorites.

Definition favoriteActiveFile (node : option Node) : Task unit :=
  let path := selectedElementPath host node in
  if negb (truthy path) then ret tt else
  v <- showInputBox host "Label" (default "" path) ;;
  if negb (truthy v) then ret tt else
  fav <- newFavorite host ;;
  assignLabel (AFavorite fav) (default "" v) ;;
  assignResourcePath fav (orEmpty path) ;;
  storeAdd (AFavorite fav) ;;
  treeViewReveal (AFavorite fav).

(** [x => FavoriteKind.Group === x.kind ? x.children : [x]] *)
Definition childrenOrSelf (s : Store) (x : Bookmarkable) : list ref :=
  match x with
  | AGroup g => childrenOf s g
  | AFavorite f => [f]
  end.

Definition openFavorite : Task unit :=
  favorites <- storeFavorites ;;
  s <- gets id ;;
  selection <- showQuickPick host (AFavorite <$> (favorites ≫= childrenOrSelf s)) ;;
  match selection with
  | Some (AFavorite f) => showTextDocument (Favorite.resourcePath (theFavorite s f))
  | _ => ret tt
  end.

End Handlers.
End Legacy.

(** ** The invariants of the data model *)

(** The entries a top-level entry brings to the store: itself and, for a
    group, its children. *)
Definition entriesOf (s : Store) (x : Bookmarkable) : list Bookmarkable :=
  x :: match x with
       | AGroup g => AFavorite <$> childrenOf s g
       | AFavorite _ => []
       end.

(** Every entry of the store, each as often as the store reaches it. *)
Definition members (s : Store) : list Bookmarkable := _favorites s ≫= entriesOf s.

Definition live (s : Store) (x : Bookmarkable) : Prop :=
  match x with
  | AFavorite r => is_Some (favoriteObjects s !! r)
  | AGroup r => is_Some (groupObjects s !! r)
  end.

(** A top-level favorite has no parent reference, and a favorite held by a
    group names that group. *)
Definition parentNamed (s : Store) (x : Bookmarkable) : Prop :=
  match x with
  | AFavorite f => Favorite.parent (theFavorite s f) = None
  | AGroup g =>
      Forall (fun c => Favorite.parent (theFavorite s c) = Some (Group.uuid (theGroup s g)))
             (childrenOf s g)
  end.

(** The invariants of the spec: the entries of the store are objects,
    identifiers are unique within the store, and a parent reference names
    the group that holds the favorite. Groups do not nest by the type of
    [Group.children]. *)
Definition wellFormed (s : Store) : Prop :=
  Forall (live s) (members s) ∧
  NoDup (uuidOf s <$> members s) ∧
  Forall (parentNamed s) (_favorites s).

#[global] Instance live_dec s x : Decision (live s x).
Proof. destruct x; apply _. Defined.
#[global] Instance parentNamed_dec s x : Decision (parentNamed s x).
Proof. destruct x; apply _. Defined.
#[global] Instance wellFormed_dec s : Decision (wellFormed s).
Proof. unfold wellFormed. apply _. Defined.

(** How often a favorite occurs among some children. *)
Definition occurrences (f : ref) (children : list ref) : nat :=
  length (filter (fun c => c = f) children).

(** The object behind a reference, if there is one. *)
Definition objectOf (s : Store) (x : Bookmarkable) : option (Favorite.t + Group.t) :=
  match x with
  | AFavorite r => inl <$> favoriteObjects s !! r
  | AGroup r => inr <$> groupObjects s !! r
  end.

(** A prompt that the user left without an answer. *)
Definition cancelled (c : HostCall) : bool :=
  match c with
  | ShowInputBox _ _ None => true
  | ShowQuickPick _ None => true
  | ShowWarningMessage _ _ None => true
  | _ => false
  end.

Definition isWarning (c : HostCall) : bool :=
  match c with
  | ShowWarningMessage _ _ _ => true
  | _ => false
  end.

(** The store without the quick-pick descriptions of its favorites. *)
Definition withoutDescriptions (s : Store) : Store :=
  mkStore (Favorite.set_description None <$> favoriteObjects s) (groupObjects s)
          (_favorites s) (storeFile s).

Definition entryLabelled (e : Entry) : Prop :=
  match e with
  | EFavorite l _ => l ≠ ""
  | EGroup l cs => l ≠ "" ∧ Forall (fun c => c.1 ≠ "") cs
  end.

#[global] Instance entryLabelled_dec e : Decision (entryLabelled e).
Proof. destruct e; apply _. Defined.

(** No object has the empty label. *)
Definition heapLabelled (s : Store) : Prop :=
  map_Forall (fun _ f => Favorite.label f ≠ "") (favoriteObjects s) ∧
  map_Forall (fun _ g => Group.label g ≠ "") (groupObjects s).


(** No object has the empty label, except perhaps those of [B]. *)
Definition heapLabelledExcept (B : Bookmarkable -> Prop) (s : Store) : Prop :=
  map_Forall (fun r f => Favorite.label f ≠ "" ∨ B (AFavorite r)) (favoriteObjects s) ∧
  map_Forall (fun r g => Group.label g ≠ "" ∨ B (AGroup r)) (groupObjects s).

(** The file is the one of [s], or the store [s'] written back. *)
Definition fileKeptOrWritten (s s' : Store) : Prop :=
  storeFile s' = storeFile s ∨ storeFile s' = Parsed (encode (entities s')).

(** What a command keeps: the labelled objects stay labelled, new objects
    are labelled, and the file is kept or written back. *)
Definition keepsLabels (B : Bookmarkable -> Prop) (w w' : World) : Prop :=
  heapLabelledExcept B (store w') ∧ fileKeptOrWritten (store w) (store w').

(** No record of the document has the empty label. *)
Definition docLabelled (s : Store) : Prop :=
  match decode (storeFile s) with
  | Some es => Forall entryLabelled es
  | None => True
  end.

(** No entity, in memory or in the document, has the empty label. *)
Definition labelled (s : Store) : Prop := heapLabelled s ∧ docLabelled s.

#[global] Instance heapLabelled_dec s : Decision (heapLabelled s).
Proof. unfold heapLabelled. apply _. Defined.
#[global] Instance docLabelled_dec s : Decision (docLabelled s).
Proof. unfold docLabelled. destruct (decode (storeFile s)); apply _. Defined.
#[global] Instance labelled_dec s : Decision (labelled s).
Proof. unfold labelled. apply _. Defined.

(** The record of an entry whose references all resolve. *)
Definition recordOf (s : Store) (x : Bookmarkable) : option Entry :=
  match x with
  | AFavorite r =>
      (fun f => EFavorite (Favorite.label f) (Favorite.resourcePath f))
        <$> favoriteObjects s !! r
  | AGroup r =>
      g ← groupObjects s !! r;
      EGroup (Group.label g) <$> mapM (childEntry s) (Group.children g)
  end.

(** The heap grew and the store kept its list and its file. *)
Definition grows (s s' : Store) : Prop :=
  favoriteObjects s ⊆ favoriteObjects s' ∧ groupObjects s ⊆ groupObjects s' ∧
  _favorites s' = _favorites s ∧ storeFile s' = storeFile s.

(** The documents that opening a group shows: one per child, in order. *)
Definition opens (s : Store) (g : ref) : list HostCall :=
  (fun f => ShowTextDocument (Favorite.resourcePath (theFavorite s f))) <$> childrenOf s g.

(** The calls of an open-group that asks the user: a quick pick of all
    the groups of the store, then the documents of the group picked. *)
Definition promptsForGroup (host : Host) (w : World) (cs : list HostCall) : Prop :=
  let s := store w in
  let groups := result storeGroups w in
  let shown := quickPickItem s <$> (AGroup <$> groups) in
  cs = ShowQuickPick shown (answerOf host shown)
       :: from_option (opens s) [] (i ← answerOf host shown; groups !! i).

(** Between [s] and [s'] the entry [bk] got the label [l] and nothing
    else changed: not its identifier, its children or its path and
    parent, not another object, not the list of the store. *)
Definition onlyLabelChanged (s s' : Store) (bk : Bookmarkable) (l : string) : Prop :=
  (live s bk -> labelOf s' bk = l) ∧
  uuidOf s' bk = uuidOf s bk ∧
  match bk with
  | AGroup g => childrenOf s' g = childrenOf s g
  | AFavorite f =>
      Favorite.resourcePath (theFavorite s' f) = Favorite.resourcePath (theFavorite s f) ∧
      Favorite.parent (theFavorite s' f) = Favorite.parent (theFavorite s f) ∧
      Favorite.description (theFavorite s' f) = Favorite.description (theFavorite s f)
  end ∧
  (∀ x, x ≠ bk -> objectOf s' x = objectOf s x) ∧
  _favorites s' = _favorites s.

(** ** A store and some users, for the examples

    Two groups, "Work" (which holds README) and "Home" (empty), and a
    top-level favorite, todo. *)

Definition exampleStore : Store :=
  writtenBack (mkStore
    (<[0 := Favorite.mk "f-readme" "README" "/project/README.md" (Some "g-work") None]>
       (<[1 := Favorite.mk "f-todo" "todo" "/notes/todo.txt" None None]> ∅))
    (<[0 := Group.mk "g-work" "Work" [0]]> (<[1 := Group.mk "g-home" "Home" []]> ∅))
    [AGroup 0; AFavorite 1; AGroup 1]
    (Parsed (JArray []))).

Definition exampleWorld : World := mkWorld exampleStore 0.

(** A store without groups: one top-level favorite. *)
Definition noGroups : World :=
  mkWorld (writtenBack (mkStore
    (<[0 := Favorite.mk "f-todo" "todo" "/notes/todo.txt" None None]> ∅) ∅
    [AFavorite 0] (Parsed (JArray [])))) 0.

(** A store whose file is not JSON. *)
Definition brokenFile : World :=
  mkWorld (setStoreFile (Unparseable "[{") exampleStore) 0.


(** A user with the given active editor, who gives the same answer to
    every input box, quick pick and warning. *)
Definition user (editor input : option string) (pick : option nat) (choice : option string)
  : Host :=
  mkHost editor (fun _ _ => input) (fun _ => pick) (fun _ _ => choice)
         (fun n => "uuid-" +:+ pretty n) (fun _ => "Unexpected end of JSON input").

(** A user who dismisses every prompt and has no editor open. *)
Definition nobody : Host := user None None None None.

(** The examples propose the whole path as the label. *)
Definition wholePath (path : string) : string := path.


(** ** What the further theorems speak of *)

(** The favorites of the store, in the order of the list: a top-level
    favorite stands for itself and a group for its children. *)
Definition favoritesOf (s : Store) : list ref :=
  _favorites s ≫= fun x => match x with
                           | AGroup g => childrenOf s g
                           | AFavorite f => [f]
                           end.

(** The identifier that the generator yields next is not one of the store. *)
Definition nextUuidFresh (host : Host) (w : World) : Prop :=
  uuidv4 host (uuids w) ∉ (uuidOf (store w) <$> members (store w)).

#[global] Instance nextUuidFresh_dec host w : Decision (nextUuidFresh host w).
Proof. unfold nextUuidFresh. apply _. Defined.


(** The entry that the tree passes to the move command is one of the
    store. *)
Definition selects (c : Command) (s : Store) : Prop :=
  match c with
  | MoveFavorite (Some f) => AFavorite f ∈ members s
  | _ => True
  end.

#[global] Instance selects_dec c s : Decision (selects c s).
Proof. destruct c as [| | | | | | | | |[f|]|]; cbn; apply _. Defined.

(** What names an entry for the user: its identifier, its label and, for
    a favorite, its path. *)
Definition identityOf (o : Favorite.t + Group.t) : string * string * option string :=
  match o with
  | inl f => (Favorite.uuid f, Favorite.label f, Some (Favorite.resourcePath f))
  | inr g => (Group.uuid g, Group.label g, None)
  end.

(** The store [s] has the object [x], with the identity of [o]. *)
Definition kept (x : Bookmarkable) (o : Favorite.t + Group.t) (s : Store) : Prop :=
  ∃ o', objectOf s x = Some o' ∧ identityOf o' = identityOf o.

(** The document holds the entity list of the memory. *)
Definition inStep (s : Store) : Prop := storeFile s = Parsed (encode (entities s)).

(** A handler that changes the store writes it back: the world is the
    one before, or the store is one that was written back. *)
Definition writes (w w' : World) : Prop := w' = w ∨ ∃ t, store w' = writtenBack t.

(** The entry is an object of the store, and it carries the [i]-th
    identifier of the generator. *)
Definition drawn (host : Host) (s : Store) (x : Bookmarkable) (i : nat) : Prop :=
  live s x ∧ uuidOf s x = uuidv4 host i.

(** By label, the favorite [x] sorts no later than [y]. *)
Definition noLater (cmp : string -> string -> bool) (s : Store) (x y : ref) : Prop :=
  cmp (labelOf s (AFavorite x)) (labelOf s (AFavorite y)) = true.

(** * Lemmas and theorems *)

(** ** Running tasks *)

Lemma exec_bind {A B} (m : Task A) (k : A -> Task B) w :
  exec (bind m k) w = exec (k (result m w)) (exec m w).
Proof. reflexivity. Qed.

Lemma result_bind {A B} (m : Task A) (k : A -> Task B) w :
  result (bind m k) w = result (k (result m w)) (exec m w).
Proof. reflexivity. Qed.

Lemma emitted_bind {A B} (m : Task A) (k : A -> Task B) w :
  emitted (bind m k) w = emitted m w ++ emitted (k (result m w)) (exec m w).
Proof. reflexivity. Qed.

Section Quiet.
Context (host : Host).

Lemma emitted_ret {A} (a : A) w : emitted (ret a) w = [].
Proof. reflexivity. Qed.
Lemma emitted_gets {A} (f : Store -> A) w : emitted (gets f) w = [].
Proof. reflexivity. Qed.
Lemma emitted_modify f w : emitted (modify f) w = [].
Proof. reflexivity. Qed.
Lemma emitted_call c w : emitted (call c) w = [c].
Proof. reflexivity. Qed.
Lemma emitted_newFavorite w : emitted (newFavorite host) w = [].
Proof. reflexivity. Qed.
Lemma emitted_newGroup w : emitted (newGroup host) w = [].
Proof. reflexivity. Qed.
Lemma emitted_assignLabel x l w : emitted (assignLabel x l) w = [].
Proof. by destruct x. Qed.
Lemma emitted_assignResourcePath r p w : emitted (assignResourcePath r p) w = [].
Proof. reflexivity. Qed.
Lemma emitted_addChild g f w : emitted (addChild g f) w = [].
Proof. reflexivity. Qed.
Lemma emitted_removeChild g f w : emitted (removeChild g f) w = [].
Proof. reflexivity. Qed.
Lemma emitted_storeAdd x w : emitted (storeAdd x) w = [ProviderRefresh None].
Proof. reflexivity. Qed.
Lemma emitted_storeUpdate x w : emitted (storeUpdate x) w = [ProviderRefresh None].
Proof. reflexivity. Qed.
Lemma emitted_storeDelete x w : emitted (storeDelete x) w = [ProviderRefresh None].
Proof.
  unfold storeDelete. rewrite !emitted_bind, emitted_modify.
  destruct x as [f|g]; [|reflexivity].
  rewrite emitted_bind. change (emitted (storeGetParent f) ?w) with (@nil HostCall).
  by destruct (result (storeGetParent f) _).
Qed.
Lemma emitted_providerRefresh x w : emitted (providerRefresh x) w = [ProviderRefresh x].
Proof. reflexivity. Qed.
Lemma emitted_treeViewReveal x w : emitted (treeViewReveal x) w = [TreeViewReveal x].
Proof. reflexivity. Qed.
Lemma emitted_showInputBox p v w :
  emitted (showInputBox host p v) w = [ShowInputBox p v (inputBox host p v)].
Proof. reflexivity. Qed.

End Quiet.

Create Rewrite HintDb emitted.
#[export] Hint Rewrite @emitted_bind @emitted_ret @emitted_gets emitted_modify emitted_call
  emitted_newFavorite emitted_newGroup emitted_assignLabel emitted_assignResourcePath
  emitted_addChild emitted_removeChild emitted_storeAdd emitted_storeUpdate
  emitted_storeDelete emitted_providerRefresh emitted_treeViewReveal
  emitted_showInputBox : emitted.

Ltac no_cancel :=
  let Hex := fresh in
  intros Hex; exfalso; revert Hex;
  autorewrite with emitted; cbn [app];
  rewrite ?Exists_cons, ?Exists_nil; cbn [cancelled Is_true]; tauto.

Ltac ask_input :=
  rewrite exec_bind, emitted_bind;
  change (result (showInputBox ?h ?p ?v) ?w) with (inputBox h p v);
  change (exec (showInputBox ?h ?p ?v) ?w) with w;
  change (emitted (showInputBox ?h ?p ?v) ?w) with [ShowInputBox p v (inputBox h p v)].

Ltac by_computation := apply (bool_decide_unpack _); vm_compute; exact I.

Lemma showQuickPick_run host items w :
  let shown := quickPickItem (store w) <$> items in
  exec (showQuickPick host items) w = w ∧
  emitted (showQuickPick host items) w = [ShowQuickPick shown (answerOf host shown)] ∧
  result (showQuickPick host items) w = (i ← answerOf host shown; items !! i).
Proof. intros shown. split; [reflexivity|]. split; reflexivity. Qed.

(** ** Lists, identifiers and the entries of a store *)

Lemma NoDup_fmap_inj {A B} (f : A -> B) (l : list A) x y :
  NoDup (f <$> l) -> x ∈ l -> y ∈ l -> f x = f y -> x = y.
Proof.
  induction l as [|a l IH]; intros Hnd Hx Hy Hxy; [by inversion Hx|].
  rewrite fmap_cons in Hnd. apply NoDup_cons in Hnd as [Ha Hnd].
  apply elem_of_cons in Hx as [->|Hx]; apply elem_of_cons in Hy as [->|Hy]; auto.
  - destruct Ha. rewrite Hxy. by apply list_elem_of_fmap_2.
  - destruct Ha. rewrite <- Hxy. by apply list_elem_of_fmap_2.
Qed.

Lemma NoDup_bind_disjoint {A B} (g : A -> list B) (l : list A) x y z :
  NoDup (l ≫= g) -> x ∈ l -> y ∈ l -> x ≠ y -> z ∈ g x -> z ∈ g y -> False.
Proof.
  induction l as [|a l IH]; intros Hnd Hx Hy Hne Hzx Hzy; [by inversion Hx|].
  rewrite bind_cons in Hnd. apply NoDup_app in Hnd as (_ & Hdis & Hnd).
  apply elem_of_cons in Hx as [->|Hx]; apply elem_of_cons in Hy as [->|Hy]; auto.
  - apply (Hdis z Hzx). apply list_elem_of_bind. eauto.
  - apply (Hdis z Hzy). apply list_elem_of_bind. eauto.
Qed.

Lemma members_top s x : x ∈ _favorites s -> x ∈ members s.
Proof. intros H. apply list_elem_of_bind. exists x. split; [|done]. left. Qed.

Lemma members_child s g c :
  AGroup g ∈ _favorites s -> c ∈ childrenOf s g -> AFavorite c ∈ members s.
Proof.
  intros Hg Hc. apply list_elem_of_bind. exists (AGroup g). split; [|done].
  right. by apply list_elem_of_fmap_2.
Qed.

Lemma groups_elem s g : g ∈ omap groupRef (_favorites s) <-> AGroup g ∈ _favorites s.
Proof.
  rewrite list_elem_of_omap. split.
  - intros ([r|r] & Hin & Heq); simplify_eq/=. done.
  - intros H. exists (AGroup g). done.
Qed.

Lemma getParent_child w A f :
  wellFormed (store w) -> AGroup A ∈ _favorites (store w) -> f ∈ childrenOf (store w) A ->
  result (storeGetParent f) w = Some A.
Proof.
  intros (Hlive & Hnd & Hpar) HA Hf.
  unfold result, storeGetParent, gets; cbn.
  rewrite Forall_forall in Hpar. specialize (Hpar _ HA). cbn in Hpar.
  rewrite Forall_forall in Hpar. rewrite (Hpar _ Hf). cbn.
  destruct (List.find _ _) as [A'|] eqn:Hfind.
  - apply find_some in Hfind as [Hin Heq].
    apply list_elem_of_In, groups_elem in Hin.
    apply String.eqb_eq in Heq.
    f_equal.
    assert (AGroup A' = AGroup A) as HAA; [|by inversion HAA].
    eapply (NoDup_fmap_inj (uuidOf (store w))); eauto using members_top.
  - exfalso. eapply find_none in Hfind.
    2:{ apply list_elem_of_In, groups_elem. exact HA. }
    cbn in Hfind. by rewrite String.eqb_refl in Hfind.
Qed.

Lemma getParent_top w f :
  wellFormed (store w) -> AFavorite f ∈ _favorites (store w) ->
  result (storeGetParent f) w = None.
Proof.
  intros (Hlive & Hnd & Hpar) Hf.
  unfold result, storeGetParent, gets; cbn.
  rewrite Forall_forall in Hpar. specialize (Hpar _ Hf). cbn in Hpar.
  by rewrite Hpar.
Qed.

Lemma showQuickPick_result host items w x :
  result (showQuickPick host items) w = Some x -> x ∈ items.
Proof.
  unfold result, showQuickPick, bind, gets, call, ret; cbn.
  destruct (answerOf host _) as [i|]; cbn; [|done].
  intros Hl. by eapply list_elem_of_lookup_2.
Qed.

Lemma promptGroupSelection_result host ex w B :
  result (promptGroupSelection host ex) w = Some B ->
  AGroup B ∈ _favorites (store w) ∧ isObject (findExclusion (store w) ex B) = false.
Proof.
  unfold promptGroupSelection.
  change (result (_ <- _ ;; _) w) with
    (x ← result (showQuickPick host (AGroup <$> List.filter (λ f, negb (isObject (findExclusion (store w) ex f))) (omap groupRef (_favorites (store w))))) w; groupRef x).
  destruct (result (showQuickPick _ _) w) as [x|] eqn:Hpick; cbn; [|done].
  apply showQuickPick_result in Hpick.
  apply list_elem_of_fmap in Hpick as (g & -> & Hg). cbn. intros [= ->].
  apply list_elem_of_In, filter_In in Hg as [Hg Hex].
  apply list_elem_of_In, groups_elem in Hg. split; [done|].
  by apply negb_true_iff in Hex.
Qed.

Lemma childrenOf_updGroup h r s g :
  childrenOf (updGroup h r s) g =
  if decide (r = g) then
    match groupObjects s !! g with
    | Some o => Group.children (h o)
    | None => childrenOf s g
    end
  else childrenOf s g.
Proof.
  unfold childrenOf, theGroup, updGroup; cbn.
  rewrite !lookup_total_alt, lookup_alter.
  case_decide; [subst|done]. by destruct (groupObjects s !! g).
Qed.

Lemma childrenOf_withoutChild A f s g :
  childrenOf (withoutChild A f s) g =
  if decide (A = g) then
    filter (fun c => uuidOf s (AFavorite c) ≠ uuidOf s (AFavorite f)) (childrenOf s g)
  else childrenOf s g.
Proof.
  unfold withoutChild. rewrite childrenOf_updGroup. case_decide; [subst|done].
  unfold childrenOf, theGroup. rewrite lookup_total_alt.
  by destruct (groupObjects s !! g).
Qed.

Lemma childrenOf_withChild B f s g :
  live s (AGroup B) ->
  childrenOf (withChild B f s) g =
  if decide (B = g) then childrenOf s g ++ [f] else childrenOf s g.
Proof.
  intros [o Ho]. unfold withChild. rewrite childrenOf_updGroup. case_decide; [subst|done].
  unfold childrenOf, theGroup, updFavorite; cbn. rewrite lookup_total_alt, Ho. done.
Qed.

Lemma live_member s x : wellFormed s -> x ∈ members s -> live s x.
Proof. intros (Hlive & _) Hx. rewrite Forall_forall in Hlive. auto. Qed.

Lemma occurrences_fresh f l : f ∉ l -> occurrences f l = 0.
Proof.
  unfold occurrences. induction l as [|c l IH]; intros Hf; [done|].
  apply not_elem_of_cons in Hf as [Hne Hf].
  rewrite filter_cons_False by congruence. auto.
Qed.

Lemma occurrences_snoc_fresh f l : f ∉ l -> occurrences f (l ++ [f]) = 1.
Proof.
  intros Hf. pose proof (occurrences_fresh f l Hf) as H0.
  unfold occurrences in *. rewrite filter_app, length_app, H0.
  by rewrite filter_cons_True.
Qed.

(** In a well-formed store a favorite is reached once. *)
Lemma child_of_one_group s A B f :
  wellFormed s -> AGroup A ∈ _favorites s -> AGroup B ∈ _favorites s ->
  f ∈ childrenOf s A -> f ∈ childrenOf s B -> A = B.
Proof.
  intros (_ & Hnd & _) HA HB HfA HfB.
  destruct (decide (A = B)) as [|Hne]; [done|exfalso].
  apply NoDup_fmap_1 in Hnd.
  eapply (NoDup_bind_disjoint (entriesOf s) _ (AGroup A) (AGroup B) (AFavorite f));
    eauto; [congruence| |]; right; by apply list_elem_of_fmap_2.
Qed.

Lemma top_level_not_child s B f :
  wellFormed s -> AFavorite f ∈ _favorites s -> AGroup B ∈ _favorites s ->
  f ∉ childrenOf s B.
Proof.
  intros (_ & Hnd & _) Hf HB HfB.
  apply NoDup_fmap_1 in Hnd.
  eapply (NoDup_bind_disjoint (entriesOf s) _ (AFavorite f) (AGroup B) (AFavorite f));
    eauto; [left | right; by apply list_elem_of_fmap_2].
Qed.

Lemma distinct_uuid s x y :
  wellFormed s -> x ∈ members s -> y ∈ members s -> x ≠ y -> uuidOf s x ≠ uuidOf s y.
Proof.
  intros (_ & Hnd & _) Hx Hy Hne Heq. apply Hne.
  eapply NoDup_fmap_inj; eauto.
Qed.

Lemma getParent_none w f :
  Favorite.parent (theFavorite (store w) f) = None -> result (storeGetParent f) w = None.
Proof. intros H. unfold result, storeGetParent, gets; cbn. by rewrite H. Qed.

Lemma parent_top s f :
  wellFormed s -> AFavorite f ∈ _favorites s -> Favorite.parent (theFavorite s f) = None.
Proof.
  intros (_ & _ & Hpar) Hf. rewrite Forall_forall in Hpar. exact (Hpar _ Hf).
Qed.

(** ** Moving a favorite *)

(** C1. In a store that satisfies the invariants of the data model, when
    the user selects the group [B] in the prompt of the move operation:
    a favorite [f] that is a child of a group [A] is no longer among the
    children of [A] and occurs exactly once among the children of [B];
    a top-level favorite [f] is deleted from the top level and occurs
    exactly once among the children of [B]. [B] is still in the store. *)
Theorem moveFavorite_moves host w f B :
  wellFormed (store w) ->
  result (promptGroupSelection host [result (storeGetParent f) w]) w = Some B ->
  let s := store w in
  let s' := store (exec (moveFavorite host (Some f)) w) in
  (∀ A, AGroup A ∈ _favorites s -> f ∈ childrenOf s A ->
     (f ∉ childrenOf s' A) ∧ occurrences f (childrenOf s' B) = 1 ∧ (AGroup B ∈ _favorites s'))
  ∧ (AFavorite f ∈ _favorites s ->
     (AFavorite f ∉ _favorites s') ∧ occurrences f (childrenOf s' B) = 1 ∧ (AGroup B ∈ _favorites s')).
Proof.
  intros Hwf Hpick s s'. split.
  - intros A HA Hf.
    pose proof (getParent_child w A f Hwf HA Hf) as Hparent.
    rewrite Hparent in Hpick.
    assert (s' = writtenBack (withChild B f (withoutChild A f s))) as ->.
    { subst s'. unfold moveFavorite.
      rewrite exec_bind. change (exec (storeGetParent f) w) with w.
      rewrite Hparent, exec_bind.
      change (exec (promptGroupSelection host [Some A]) w) with w.
      by rewrite Hpick. }
    apply promptGroupSelection_result in Hpick as [HB Hex].
    assert (A ≠ B) as Hne.
    { intros ->. cbn in Hex. by rewrite String.eqb_refl in Hex. }
    assert (live (withoutChild A f s) (AGroup B)) as HliveB.
    { cbn. rewrite lookup_alter_ne by done.
      apply (live_member s (AGroup B) Hwf), members_top, HB. }
    change (childrenOf (writtenBack ?t) ?g) with (childrenOf t g).
    rewrite !childrenOf_withChild by done.
    rewrite !childrenOf_withoutChild.
    rewrite decide_False by done. rewrite decide_True by done.
    rewrite decide_True by done. rewrite decide_False by done.
    split; [|split; [|done]].
    + intros Hin. apply list_elem_of_filter in Hin as [Hin _]. by apply Hin.
    + apply occurrences_snoc_fresh. intros HfB.
      apply Hne. eapply child_of_one_group; eauto.
  - intros Hf.
    pose proof (getParent_top w f Hwf Hf) as Hparent.
    rewrite Hparent in Hpick.
    assert (s' = writtenBack (withChild B f (writtenBack (withoutEntry (AFavorite f) s)))) as ->.
    { subst s'. unfold moveFavorite.
      rewrite exec_bind. change (exec (storeGetParent f) w) with w.
      rewrite Hparent, exec_bind.
      change (exec (promptGroupSelection host [None]) w) with w.
      rewrite Hpick. unfold storeDelete.
      rewrite !exec_bind.
      rewrite (getParent_none (exec (modify (withoutEntry (AFavorite f))) w)).
      2:{ change (Favorite.parent (theFavorite (store w) f) = None). by apply parent_top. }
      done. }
    apply promptGroupSelection_result in Hpick as [HB _].
    assert (live (writtenBack (withoutEntry (AFavorite f) s)) (AGroup B)) as HliveB.
    { apply (live_member s (AGroup B) Hwf), members_top, HB. }
    change (childrenOf (writtenBack ?t) ?g) with (childrenOf t g).
    rewrite childrenOf_withChild by done. rewrite decide_True by done.
    change (childrenOf (writtenBack (withoutEntry ?x ?t)) ?g) with (childrenOf t g).
    cbn [_favorites writtenBack withChild withoutEntry setStoreFile setFavorites updGroup updFavorite].
    split; [|split].
    + intros Hin. apply list_elem_of_filter in Hin as [Hin _]. by apply Hin.
    + apply occurrences_snoc_fresh. by apply top_level_not_child.
    + apply list_elem_of_filter. split; [|done].
      apply distinct_uuid; auto using members_top.
Qed.

Lemma moveFavorite_moves_witness :
  let w' := exec (moveFavorite (user None None (Some 0) None) (Some 0)) exampleWorld in
  (0 ∉ childrenOf (store w') 0) ∧ occurrences 0 (childrenOf (store w') 1) = 1 ∧
  (AGroup 1 ∈ _favorites (store w')).
Proof.
  apply (proj1 (moveFavorite_moves (user None None (Some 0) None) exampleWorld 0 1
                  ltac:(by_computation) ltac:(vm_compute; reflexivity)) 0);
    by_computation.
Defined.

(** ** Deleting an entry *)

Lemma exec_removeFavorite_yes host w x :
  warningMessage host (removeMessage (store w) x) ["Yes"; "No"] = Some "Yes" ->
  store (exec (removeFavorite host (Some x)) w) =
  store (exec (storeDelete x) w).
Proof.
  intros Hyes. unfold removeFavorite.
  rewrite exec_bind. change (exec (gets id) w) with w. change (result (gets id) w) with (store w).
  rewrite exec_bind.
  change (result (showWarningMessage host ?m ?i) w)
    with (a ← warningMessage host m i; if bool_decide (a ∈ i) then Some a else None).
  rewrite Hyes. cbn [mbind option_bind].
  assert ("Yes" ∈ ["Yes"; "No"]) as Hin by left.
  rewrite (bool_decide_eq_true_2 _ Hin).
  assert (Some "Yes" = Some "Yes") as Heq by done.
  by rewrite (bool_decide_eq_true_2 _ Heq).
Qed.

Lemma groups_filter (P : Bookmarkable -> Prop) `{!∀ x, Decision (P x)} (l : list Bookmarkable) :
  (∀ g, AGroup g ∈ l -> P (AGroup g)) ->
  omap groupRef (filter P l) = omap groupRef l.
Proof.
  induction l as [|y l IH]; intros HP; [done|].
  destruct y as [f|g].
  - destruct (decide (P (AFavorite f))).
    + rewrite filter_cons_True by done. cbn. apply IH. intros g Hg. apply HP. by right.
    + rewrite filter_cons_False by done. cbn. apply IH. intros g Hg. apply HP. by right.
  - rewrite filter_cons_True by (apply HP; left). cbn. f_equal.
    apply IH. intros g' Hg. apply HP. by right.
Qed.

Lemma members_without s x y :
  y ∈ members (writtenBack (withoutEntry x s)) ->
  ∃ t, t ∈ _favorites s ∧ uuidOf s t ≠ uuidOf s x ∧ y ∈ entriesOf s t.
Proof.
  intros Hy. apply list_elem_of_bind in Hy as (t & Hyt & Ht).
  cbn in Ht. apply list_elem_of_filter in Ht as [Hne Ht]. eauto.
Qed.

(** C2. In a store that satisfies the invariants of the data model, when
    the user confirms the deletion of a top-level entry: deleting a group
    removes the group and all its children from the entries of the store;
    deleting a top-level favorite leaves the groups of the store, their
    objects and the objects of their children unchanged. *)
Theorem removeFavorite_deletes host w x :
  wellFormed (store w) ->
  x ∈ _favorites (store w) ->
  warningMessage host (removeMessage (store w) x) ["Yes"; "No"] = Some "Yes" ->
  let s := store w in
  let w' := exec (removeFavorite host (Some x)) w in
  match x with
  | AGroup g =>
      (AGroup g ∉ members (store w')) ∧
      ∀ c, c ∈ childrenOf s g -> AFavorite c ∉ members (store w')
  | AFavorite f =>
      result storeGroups w' = result storeGroups w ∧
      ∀ g, AGroup g ∈ _favorites s ->
        objectOf (store w') (AGroup g) = objectOf s (AGroup g) ∧
        ∀ c, c ∈ childrenOf s g ->
          objectOf (store w') (AFavorite c) = objectOf s (AFavorite c)
  end.
Proof.
  intros Hwf Hx Hyes s w'.
  pose proof (exec_removeFavorite_yes host w x Hyes) as Hs'.
  destruct x as [f|g].
  - assert (store w' = writtenBack (withoutEntry (AFavorite f) s)) as Hst.
    { subst w'. rewrite Hs'. unfold storeDelete. rewrite !exec_bind.
      rewrite (getParent_none (exec (modify (withoutEntry (AFavorite f))) w)); [done|].
      change (Favorite.parent (theFavorite (store w) f) = None). by apply parent_top. }
    split.
    + unfold result, storeGroups, gets. cbn [fst snd]. rewrite Hst.
      cbn [_favorites writtenBack withoutEntry setStoreFile setFavorites].
      apply groups_filter. intros g Hg.
      apply distinct_uuid; auto using members_top.
    + intros g Hg. rewrite Hst. split; [done|]. intros c Hc. done.
  - assert (store w' = writtenBack (withoutEntry (AGroup g) s)) as Hst.
    { subst w'. by rewrite Hs'. }
    rewrite Hst. split.
    + intros Hin. apply members_without in Hin as (t & Ht & Hne & Hin).
      apply elem_of_cons in Hin as [<-|Hin]; [done|].
      destruct t; [by apply elem_of_nil in Hin|].
      apply list_elem_of_fmap in Hin as (? & ? & ?). done.
    + intros c Hc Hin. apply members_without in Hin as (t & Ht & Hne & Hin).
      apply elem_of_cons in Hin as [<-|Hin].
      * by eapply top_level_not_child.
      * destruct t as [|g']; [by apply elem_of_nil in Hin|].
        apply list_elem_of_fmap in Hin as (c' & [= <-] & Hc').
        apply Hne. f_equal. f_equal. eapply child_of_one_group; eauto.
Qed.

Lemma removeFavorite_deletes_witness :
  let w' := exec (removeFavorite (user None None None (Some "Yes")) (Some (AGroup 0))) exampleWorld in
  (AGroup 0 ∉ members (store w')) ∧
  ∀ c, c ∈ childrenOf (store exampleWorld) 0 -> AFavorite c ∉ members (store w').
Proof.
  apply (removeFavorite_deletes (user None None None (Some "Yes")) exampleWorld (AGroup 0));
    [by_computation|by_computation|reflexivity].
Defined.

(** ** Renaming an entry *)

Lemma truthy_Some l : l ≠ "" -> truthy (Some l) = true.
Proof. intros H. cbn. apply negb_true_iff, String.eqb_neq, H. Qed.

Lemma store_renameFavorite host w bk l :
  inputBox host "Rename to" (labelOf (store w) bk) = Some l -> l ≠ "" ->
  store (exec (renameFavorite host (Some bk)) w) =
  writtenBack (store (exec (assignLabel bk l) w)).
Proof.
  intros Hans Hl. unfold renameFavorite.
  rewrite exec_bind. change (exec (gets id) w) with w. change (result (gets id) w) with (store w).
  rewrite exec_bind.
  change (result (showInputBox host ?p ?v) w) with (inputBox host p v).
  rewrite Hans, (truthy_Some l Hl). reflexivity.
Qed.

Lemma store_legacy_renameFavorite host w bk l :
  inputBox host "Rename to" (labelOf (store w) bk) = Some l -> l ≠ "" ->
  store (exec (Legacy.renameFavorite host (Some bk)) w) =
  writtenBack (store (exec (assignLabel bk l) w)).
Proof.
  intros Hans Hl. unfold Legacy.renameFavorite.
  rewrite exec_bind. change (exec (gets id) w) with w. change (result (gets id) w) with (store w).
  rewrite exec_bind.
  change (result (showInputBox host ?p ?v) w) with (inputBox host p v).
  rewrite Hans, (truthy_Some l Hl). reflexivity.
Qed.

Lemma assignLabel_onlyLabelChanged w bk l :
  onlyLabelChanged (store w) (writtenBack (store (exec (assignLabel bk l) w))) bk l.
Proof.
  unfold onlyLabelChanged.
  destruct bk as [f|g]; cbn -[alter].
  - unfold theFavorite; cbn -[alter]. rewrite !lookup_total_alt, !lookup_alter_eq.
    repeat split.
    + intros [o Ho]. by rewrite Ho.
    + by destruct (favoriteObjects (store w) !! f).
    + by destruct (favoriteObjects (store w) !! f).
    + by destruct (favoriteObjects (store w) !! f).
    + by destruct (favoriteObjects (store w) !! f).
    + intros [f'|g'] Hne; cbn -[alter]; [|done].
      rewrite lookup_alter_ne; [done|congruence].
  - unfold childrenOf, theGroup; cbn -[alter]. rewrite !lookup_total_alt, !lookup_alter_eq.
    repeat split.
    + intros [o Ho]. by rewrite Ho.
    + by destruct (groupObjects (store w) !! g).
    + by destruct (groupObjects (store w) !! g).
    + intros [f'|g'] Hne; cbn -[alter]; [done|].
      rewrite lookup_alter_ne; [done|congruence].
Qed.

(** C3. Renaming an entry to a non-empty label changes the label of that
    entry and nothing else: its identifier, its children (for a group),
    its path, parent reference and description (for a favorite), every
    other object and the list of the store are unchanged. This holds of
    the handler of manager.ts and of the one of favoriteManager.ts. *)
Theorem renameFavorite_changes_only_label host w bk l :
  inputBox host "Rename to" (labelOf (store w) bk) = Some l -> l ≠ "" ->
  onlyLabelChanged (store w) (store (exec (renameFavorite host (Some bk)) w)) bk l ∧
  onlyLabelChanged (store w) (store (exec (Legacy.renameFavorite host (Some bk)) w)) bk l.
Proof.
  intros Hans Hl.
  rewrite (store_renameFavorite host w bk l Hans Hl).
  rewrite (store_legacy_renameFavorite host w bk l Hans Hl).
  split; apply assignLabel_onlyLabelChanged.
Qed.

Lemma renameFavorite_changes_only_label_witness :
  let host := user None (Some "notes") None None in
  onlyLabelChanged (store exampleWorld)
    (store (exec (renameFavorite host (Some (AFavorite 1))) exampleWorld)) (AFavorite 1) "notes" ∧
  onlyLabelChanged (store exampleWorld)
    (store (exec (Legacy.renameFavorite host (Some (AFavorite 1))) exampleWorld)) (AFavorite 1) "notes".
Proof.
  apply (renameFavorite_changes_only_label (user None (Some "notes") None None)
           exampleWorld (AFavorite 1) "notes"); [reflexivity|discriminate].
Defined.

(** ** Adding to a group when there is none *)

(** C4, as the code has it. In a store without groups the add-to-group
    handler leaves the world unchanged; it shows the warning exactly when
    a non-empty path is resolved for the selected element or the active
    editor, and makes no call to the host otherwise. *)
Theorem add_to_group_without_groups host fileName node w :
  result storeGroups w = [] ->
  let h := favoriteActiveFileToGroup host fileName node in
  exec h w = w ∧
  emitted h w =
    if truthy (selectedElementPath host node)
    then [ShowWarningMessage "No favorite groups found, please define a group first" [] None]
    else [].
Proof.
  intros Hg h. subst h. unfold favoriteActiveFileToGroup.
  destruct (truthy (selectedElementPath host node)); cbn [negb]; [|done].
  rewrite exec_bind, emitted_bind, Hg. change (exec storeGroups w) with w.
  rewrite bool_decide_eq_true_2 by done.
  split; [done|]. unfold emitted, bind, showWarningMessage, call, ret, storeGroups, gets.
  cbn [fst snd app]. by destruct (warningMessage host _ _).
Qed.

Lemma add_to_group_without_groups_witness :
  let h := favoriteActiveFileToGroup nobody wholePath (Some (mkNode (Some "/notes/plan.md"))) in
  exec h noGroups = noGroups ∧
  emitted h noGroups =
    [ShowWarningMessage "No favorite groups found, please define a group first" [] None].
Proof.
  apply (add_to_group_without_groups nobody wholePath
           (Some (mkNode (Some "/notes/plan.md"))) noGroups).
  reflexivity.
Defined.

(** Against C4 as stated: with no groups, no element selected and no
    editor open, the handler reports no warning. *)
Lemma add_to_group_silent_without_selection :
  result storeGroups noGroups = [] ∧
  ¬ Exists isWarning (emitted (favoriteActiveFileToGroup nobody wholePath None) noGroups).
Proof. split; [reflexivity|]. vm_compute. intros H. inversion H. Qed.

(** X19. The handler of favoriteManager.ts guards with [!groups], which
    an array never satisfies: it shows no warning at all. *)
Lemma legacy_add_to_group_never_warns host node w :
  ¬ Exists isWarning (emitted (Legacy.favoriteActiveFileToGroup host node) w).
Proof.
  unfold Legacy.favoriteActiveFileToGroup.
  destruct (truthy (selectedElementPath host node)); cbn [negb];
    [|rewrite emitted_ret; by intros H%Exists_nil].
  rewrite emitted_bind. change (emitted storeGroups w) with (@nil HostCall).
  change (exec storeGroups w) with w. cbn [app Legacy.arrayTruthy negb].
  rewrite emitted_bind.
  destruct (showQuickPick_run host (AGroup <$> result storeGroups w) w) as (-> & -> & ->).
  cbn zeta. cbn [app]. rewrite Exists_cons. intros [H|H]; [done|]. revert H.
  destruct (x ← _; groupRef x) as [g|]; [|rewrite emitted_ret; by intros H%Exists_nil].
  rewrite emitted_bind, emitted_showInputBox. cbn [app]. rewrite Exists_cons.
  intros [H|H]; [done|]. revert H.
  change (result (showInputBox host ?p ?v) w) with (inputBox host p v).
  destruct (truthy (inputBox host _ _)); cbn [negb]; [|rewrite emitted_ret; by intros H%Exists_nil].
  unfold Legacy.storeUpdate, Legacy.pushChild, Legacy.assignParent.
  autorewrite with emitted. unfold persist. autorewrite with emitted. cbn [app].
  rewrite !Exists_cons, Exists_nil. cbn. tauto.
Qed.

(** ** The persisted format and the reload *)

Lemma grows_refl s : grows s s.
Proof. done. Qed.

Lemma grows_trans s1 s2 s3 : grows s1 s2 -> grows s2 s3 -> grows s1 s3.
Proof.
  intros (F1 & G1 & L1 & D1) (F2 & G2 & L2 & D2).
  repeat split; etrans; eauto.
Qed.

Lemma fresh_lookup {A} (m : gmap nat A) : m !! fresh (dom m) = None.
Proof. apply not_elem_of_dom, is_fresh. Qed.

Lemma omap_mapM {A B} (f : A -> option B) (l : list A) k :
  mapM f l = Some k -> omap f l = k.
Proof.
  intros H%mapM_Some_1. induction H as [|x y l k Hxy _ IH]; [done|].
  cbn. by rewrite Hxy, IH.
Qed.

Lemma childEntry_grows s s' r c :
  favoriteObjects s ⊆ favoriteObjects s' -> childEntry s r = Some c -> childEntry s' r = Some c.
Proof.
  unfold childEntry. intros Hsub Hc.
  destruct (favoriteObjects s !! r) as [f|] eqn:Hf; [|done].
  by rewrite (lookup_weaken _ _ _ _ Hf Hsub).
Qed.

Lemma mapM_childEntry_grows s s' rs cs :
  favoriteObjects s ⊆ favoriteObjects s' ->
  mapM (childEntry s) rs = Some cs -> mapM (childEntry s') rs = Some cs.
Proof.
  intros Hsub H%mapM_Some_1. apply mapM_Some_2.
  eapply Forall2_impl; [exact H|]. intros r c. by apply childEntry_grows.
Qed.

Lemma recordOf_grows s s' x e :
  grows s s' -> recordOf s x = Some e -> recordOf s' x = Some e.
Proof.
  intros (HF & HG & _) He. destruct x as [r|r]; cbn in *.
  - destruct (favoriteObjects s !! r) as [f|] eqn:Hf; [|done].
    by rewrite (lookup_weaken _ _ _ _ Hf HF).
  - destruct (groupObjects s !! r) as [g|] eqn:Hg; [|done].
    rewrite (lookup_weaken _ _ _ _ Hg HG). cbn in *.
    destruct (mapM (childEntry s) (Group.children g)) as [cs|] eqn:Hcs; [|done].
    by rewrite (mapM_childEntry_grows s s' _ cs HF Hcs).
Qed.

Lemma entryOf_recordOf s x e : recordOf s x = Some e -> entryOf s x = Some e.
Proof.
  destruct x as [r|r]; cbn; [done|].
  destruct (groupObjects s !! r) as [g|]; [|done]. cbn.
  destruct (mapM (childEntry s) (Group.children g)) as [cs|] eqn:Hcs; [|done].
  cbn. intros [= <-]. by rewrite (omap_mapM _ _ _ Hcs).
Qed.

Section Loader.
Context (host : Host).

Lemma loadFavorite_run c w :
  let r := fresh (dom (favoriteObjects (store w))) in
  result (loadFavorite host c) w = r ∧
  emitted (loadFavorite host c) w = [] ∧
  store (exec (loadFavorite host c) w) =
    mkStore (<[r := Favorite.mk (uuidv4 host (uuids w)) c.1 c.2 None None]>
               (favoriteObjects (store w)))
            (groupObjects (store w)) (_favorites (store w)) (storeFile (store w)).
Proof.
  intros r. split; [done|]. split; [done|].
  unfold loadFavorite, newFavorite, drawUuid, allocFavorite, assignLabel, assignResourcePath.
  unfold exec, bind, modify, gets, ret, updFavorite.
  cbn [fst snd store favoriteObjects groupObjects _favorites storeFile id]. f_equal.
  by rewrite !alter_insert_eq.
Qed.

Lemma store_addChild g r w og F :
  groupObjects (store w) !! g = Some og ->
  favoriteObjects (store w) !! r = Some F ->
  store (exec (addChild g r) w) =
    mkStore (<[r := Favorite.set_parent (Some (Group.uuid og)) F]> (favoriteObjects (store w)))
            (<[g := Group.set_children (Group.children og ++ [r]) og]> (groupObjects (store w)))
            (_favorites (store w)) (storeFile (store w)).
Proof.
  intros Hg Hr. unfold addChild, exec, modify, withChild, updGroup, updFavorite.
  cbn [fst snd store favoriteObjects groupObjects _favorites storeFile uuidOf].
  unfold theGroup. rewrite lookup_total_alt, Hg. cbn [default]. f_equal.
  - apply map_eq. intros i. rewrite lookup_alter, lookup_insert.
    case_decide; [subst; by rewrite Hr|done].
  - apply map_eq. intros i. rewrite lookup_alter, lookup_insert.
    case_decide; [subst; by rewrite Hg|done].
Qed.

Lemma loadChildren_run g cs : ∀ w og,
  groupObjects (store w) !! g = Some og ->
  let s := store w in
  let s' := store (exec (loadChildren host g cs) w) in
  emitted (loadChildren host g cs) w = [] ∧
  favoriteObjects s ⊆ favoriteObjects s' ∧
  _favorites s' = _favorites s ∧ storeFile s' = storeFile s ∧
  (∀ B : Bookmarkable -> Prop,
     map_Forall (fun r f => Favorite.label f ≠ "" ∨ B (AFavorite r)) (favoriteObjects s) ->
     Forall (fun c => c.1 ≠ "") cs ->
     map_Forall (fun r f => Favorite.label f ≠ "" ∨ B (AFavorite r)) (favoriteObjects s')) ∧
  ∃ rs, groupObjects s' =
          <[g := Group.set_children (Group.children og ++ rs) og]> (groupObjects s) ∧
        mapM (childEntry s') rs = Some cs.
Proof.
  induction cs as [|c cs IH]; intros w og Hog s s'.
  - subst s s'. cbn. repeat split; try done.
    exists []. rewrite app_nil_r. split; [|done].
    destruct og. cbn. by rewrite insert_id.
  - destruct (loadFavorite_run c w) as (Hr & Hem & Hst).
    set (r := fresh (dom (favoriteObjects (store w)))) in *.
    set (w1 := exec (loadFavorite host c) w) in *.
    set (w2 := exec (addChild g r) w1).
    set (F := Favorite.mk (uuidv4 host (uuids w)) c.1 c.2 None None) in *.
    assert (store w2 = mkStore
              (<[r := Favorite.set_parent (Some (Group.uuid og)) F]> (favoriteObjects (store w)))
              (<[g := Group.set_children (Group.children og ++ [r]) og]> (groupObjects (store w)))
              (_favorites (store w)) (storeFile (store w))) as Hst2.
    { subst w2. rewrite (store_addChild g r w1 og F).
      - rewrite Hst. cbn [favoriteObjects groupObjects _favorites storeFile].
        by rewrite insert_insert_eq.
      - by rewrite Hst.
      - rewrite Hst. apply lookup_insert_eq. }
    assert (exec (loadChildren host g (c :: cs)) w = exec (loadChildren host g cs) w2) as Hexec
      by (subst w2 w1; rewrite <- Hr; reflexivity).
    assert (emitted (loadChildren host g (c :: cs)) w = emitted (loadChildren host g cs) w2) as Hemit
      by (subst w2 w1; rewrite <- Hr; reflexivity).
    assert (groupObjects (store w2) !! g = Some (Group.set_children (Group.children og ++ [r]) og)) as Hog2
      by (rewrite Hst2; apply lookup_insert_eq).
    destruct (IH w2 _ Hog2) as (E & Fsub & L & D & Lab & rs & Grs & Crs).
    assert (favoriteObjects (store w) ⊆ favoriteObjects (store w2)) as Fsub1.
    { rewrite Hst2. apply insert_subseteq, fresh_lookup. }
    subst s s'. rewrite Hexec, Hemit.
    split; [done|]. split; [by etrans|].
    split; [by rewrite L, Hst2|]. split; [by rewrite D, Hst2|]. split.
    + intros B Hlab Hcs. apply Forall_cons in Hcs as [Hc Hcs]. apply Lab; [|done].
      rewrite Hst2. apply map_Forall_insert_2; [by left|done].
    + exists (r :: rs). split.
      * rewrite Grs, Hst2. cbn [groupObjects Group.set_children Group.children Group.uuid Group.label].
        rewrite insert_insert_eq. by rewrite <- app_assoc.
      * apply mapM_Some_2. constructor; [|by apply mapM_Some_1].
        unfold childEntry.
        rewrite (lookup_weaken (favoriteObjects (store w2)) _ r
                   (Favorite.set_parent (Some (Group.uuid og)) F)); [by destruct c| |done].
        rewrite Hst2. apply lookup_insert_eq.
Qed.

Lemma loadEntry_run e w :
  let x := result (loadEntry host e) w in
  let s := store w in
  let s' := store (exec (loadEntry host e) w) in
  emitted (loadEntry host e) w = [] ∧ grows s s' ∧ recordOf s' x = Some e ∧
  (∀ B, heapLabelledExcept B s -> entryLabelled e -> heapLabelledExcept B s').
Proof.
  destruct e as [l p|l cs]; intros x s s'.
  - destruct (loadFavorite_run (l, p) w) as (Hr & Hem & Hst).
    assert (x = AFavorite (fresh (dom (favoriteObjects s)))) as -> by reflexivity.
    assert (s' = store (exec (loadFavorite host (l, p)) w)) as -> by reflexivity.
    rewrite Hst. split; [exact Hem|]. split; [|split].
    + repeat split; try done. apply insert_subseteq, fresh_lookup.
    + cbn. by rewrite lookup_insert_eq.
    + intros B [HF HG] Hl. split; [|done]. apply map_Forall_insert_2; [by left|done].
  - set (g := fresh (dom (groupObjects s))).
    set (og := Group.mk (uuidv4 host (uuids w)) l []).
    set (w2 := exec (assignLabel (AGroup g) l) (exec (newGroup host) w)).
    assert (store w2 = mkStore (favoriteObjects s) (<[g := og]> (groupObjects s))
                               (_favorites s) (storeFile s)) as Hst2.
    { subst w2. unfold exec, newGroup, allocGroup, drawUuid, assignLabel, bind, modify, gets, ret, updGroup.
      cbn [fst snd store favoriteObjects groupObjects _favorites storeFile id]. f_equal.
      by rewrite alter_insert_eq. }
    assert (groupObjects (store w2) !! g = Some og) as Hog
      by (rewrite Hst2; apply lookup_insert_eq).
    destruct (loadChildren_run g cs w2 og Hog) as (E & Fsub & L & D & Lab & rs & Grs & Crs).
    assert (x = AGroup g) as -> by reflexivity.
    assert (s' = store (exec (loadChildren host g cs) w2)) as -> by reflexivity.
    assert (emitted (loadEntry host (EGroup l cs)) w = emitted (loadChildren host g cs) w2 ++ []) as ->
      by reflexivity.
    rewrite app_nil_r.
    rewrite Hst2 in *. cbn [favoriteObjects groupObjects _favorites storeFile] in *.
    rewrite insert_insert_eq in Grs.
    split; [done|]. split; [|split].
    + repeat split; try done. rewrite Grs. apply insert_subseteq, fresh_lookup.
    + unfold recordOf. rewrite Grs, lookup_insert_eq.
      cbn [mbind option_bind Group.children Group.set_children Group.label Group.uuid og app].
      by rewrite Crs.
    + intros B [HF HG] [Hl Hcs]. split; [by apply Lab|].
      rewrite Grs. apply map_Forall_insert_2; [by left|done].
Qed.

Lemma loadEntries_run es : ∀ w,
  let xs := result (loadEntries host es) w in
  let s := store w in
  let s' := store (exec (loadEntries host es) w) in
  emitted (loadEntries host es) w = [] ∧ grows s s' ∧ mapM (recordOf s') xs = Some es ∧
  (∀ B, heapLabelledExcept B s -> Forall entryLabelled es -> heapLabelledExcept B s').
Proof.
  induction es as [|e es IH]; intros w xs s s'; [done|].
  destruct (loadEntry_run e w) as (E1 & G1 & R1 & L1).
  destruct (IH (exec (loadEntry host e) w)) as (E2 & G2 & R2 & L2).
  assert (xs = result (loadEntry host e) w
               :: result (loadEntries host es) (exec (loadEntry host e) w)) as -> by reflexivity.
  assert (s' = store (exec (loadEntries host es) (exec (loadEntry host e) w))) as -> by reflexivity.
  assert (emitted (loadEntries host (e :: es)) w =
          emitted (loadEntry host e) w ++
          emitted (loadEntries host es) (exec (loadEntry host e) w) ++ []) as -> by reflexivity.
  rewrite E1, E2. split; [done|]. split; [by eapply grows_trans|]. split.
  - apply mapM_Some_2. constructor; [|by apply mapM_Some_1].
    by eapply recordOf_grows.
  - intros B Hs Hes. apply Forall_cons in Hes as [He Hes]. auto.
Qed.

End Loader.

Lemma decodeFavorite_encodeFavorite c : decodeFavorite (encodeFavorite c) = Some c.
Proof. by destruct c. Qed.

Lemma decodeEntry_encodeEntry e : decodeEntry (encodeEntry e) = Some e.
Proof.
  destruct e as [l p|l cs]; [reflexivity|].
  change (decodeEntry (encodeEntry (EGroup l cs)))
    with (EGroup l <$> mapM decodeFavorite (encodeFavorite <$> cs)).
  rewrite mapM_fmap_Some; [done|]. exact decodeFavorite_encodeFavorite.
Qed.

Lemma decode_encode es : decode (Parsed (encode es)) = Some es.
Proof. apply mapM_fmap_Some. exact decodeEntry_encodeEntry. Qed.

Lemma entities_loaded s xs es :
  mapM (recordOf s) xs = Some es -> omap (entryOf s) xs = es.
Proof.
  intros H%mapM_Some_1. induction H as [|x e xs es Hx _ IH]; [done|].
  cbn. by rewrite (entryOf_recordOf _ _ _ Hx), IH.
Qed.

Lemma storeRefresh_run host w es :
  decode (storeFile (store w)) = Some es ->
  let w' := exec (loadEntries host es) w in
  result (storeRefresh host) w = inl tt ∧
  emitted (storeRefresh host) w = [ProviderRefresh None] ∧
  store (exec (storeRefresh host) w) =
    setFavorites (result (loadEntries host es) w) (store w').
Proof.
  intros Hdoc w'. destruct (loadEntries_run host es w) as (E & _).
  unfold storeRefresh, result, exec, emitted, bind, gets, ret. cbn [fst snd id].
  rewrite Hdoc. cbn [fst snd].
  unfold emitted in E. rewrite E. done.
Qed.

(** C5. For every store state, writing the store to its document and
    reloading from that document succeeds and yields the same entity
    list: the same entries, in order, with the same labels, paths and
    group memberships. *)
Theorem save_then_reload host w :
  let saved := exec persist w in
  result (storeRefresh host) saved = inl tt ∧
  entities (store (exec (storeRefresh host) saved)) = entities (store w).
Proof.
  intros saved.
  assert (decode (storeFile (store saved)) = Some (entities (store w))) as Hdoc
    by apply decode_encode.
  destruct (storeRefresh_run host saved _ Hdoc) as (Hres & _ & Hst).
  split; [exact Hres|]. rewrite Hst.
  destruct (loadEntries_run host (entities (store w)) saved) as (_ & _ & Hrec & _).
  by apply entities_loaded.
Qed.

Lemma reloadFavorites_run_malformed host w :
  decode (storeFile (store w)) = None ->
  exec (reloadFavorites host) w = w ∧
  emitted (reloadFavorites host) w =
    [ShowErrorMessage (errorMessage host (storeFile (store w))) ["Ok"]].
Proof.
  intros Hbad. unfold reloadFavorites, storeRefresh, exec, emitted, bind, gets; cbn.
  rewrite Hbad. done.
Qed.

(** C6. When the document is malformed, reloading leaves the world, and
    so the entity list in memory, exactly as it was, and the handler
    returns after showing the error message to the user. *)
Theorem reloadFavorites_malformed host w :
  decode (storeFile (store w)) = None ->
  exec (reloadFavorites host) w = w ∧
  emitted (reloadFavorites host) w =
    [ShowErrorMessage (errorMessage host (storeFile (store w))) ["Ok"]].
Proof. apply reloadFavorites_run_malformed. Qed.

Lemma reloadFavorites_malformed_witness :
  exec (reloadFavorites nobody) brokenFile = brokenFile ∧
  emitted (reloadFavorites nobody) brokenFile =
    [ShowErrorMessage "Unexpected end of JSON input" ["Ok"]].
Proof. apply (reloadFavorites_malformed nobody brokenFile). reflexivity. Defined.

(** ** Opening a group *)

Lemma forEach_showTextDocument (p : ref -> string) l w :
  exec (forEach (fun f => showTextDocument (p f)) l) w = w ∧
  emitted (forEach (fun f => showTextDocument (p f)) l) w = (fun f => ShowTextDocument (p f)) <$> l.
Proof.
  induction l as [|f l [IH1 IH2]]; [done|]. cbn [forEach].
  rewrite exec_bind, emitted_bind. change (exec (showTextDocument (p f)) w) with w.
  rewrite IH1, IH2. done.
Qed.

Lemma filter_all {A} (l : list A) : List.filter (fun _ => true) l = l.
Proof. induction l; cbn; congruence. Qed.

Lemma promptGroupSelection_all host w :
  let groups := result storeGroups w in
  let shown := quickPickItem (store w) <$> (AGroup <$> groups) in
  result (promptGroupSelection host []) w = (i ← answerOf host shown; groups !! i) ∧
  emitted (promptGroupSelection host []) w = [ShowQuickPick shown (answerOf host shown)].
Proof.
  intros groups shown. subst groups shown.
  unfold promptGroupSelection, findExclusion, isObject.
  unfold result, emitted, bind, showQuickPick, storeGroups, gets, call, ret.
  cbn. rewrite filter_all. split; [|done].
  destruct (answerOf host _) as [i|]; cbn; [|done].
  rewrite list_lookup_fmap. by destruct (_ !! i).
Qed.

Lemma openGroup_fallback host w group :
  result (match group with Some g => hasChildren g | None => ret false end) w = false ->
  exec (openGroup host group) w = w ∧ promptsForGroup host w (emitted (openGroup host group) w).
Proof.
  intros Hno. unfold openGroup.
  rewrite exec_bind, emitted_bind. 
  assert (exec (match group with Some g => hasChildren g | None => ret false end) w = w) as ->
    by (by destruct group).
  assert (emitted (match group with Some g => hasChildren g | None => ret false end) w = []) as ->
    by (by destruct group).
  rewrite Hno, orb_true_r.
  rewrite exec_bind, emitted_bind.
  change (exec (promptGroupSelection host []) w) with w.
  destruct (promptGroupSelection_all host w) as [-> ->].
  set (groups := result storeGroups w).
  set (shown := quickPickItem (store w) <$> (AGroup <$> groups)).
  cbn [app].
  destruct (i ← answerOf host shown; groups !! i) as [g|] eqn:Hg.
  - rewrite exec_bind, emitted_bind.
    destruct (forEach_showTextDocument (fun f => Favorite.resourcePath (theFavorite (store w) f)) (childrenOf (store w) g) w) as [E1 E2].
    split; [exact E1|]. unfold promptsForGroup.
    fold groups. fold shown. rewrite Hg. cbn [from_option]. f_equal. exact E2.
  - split; [done|]. unfold promptsForGroup.
    fold groups. fold shown. by rewrite Hg.
Qed.

Lemma openGroup_direct host w g :
  childrenOf (store w) g ≠ [] ->
  exec (openGroup host (Some g)) w = w ∧
  emitted (openGroup host (Some g)) w = opens (store w) g.
Proof.
  intros Hne. unfold openGroup. rewrite exec_bind, emitted_bind.
  change (exec (hasChildren g) w) with w.
  assert (result (hasChildren g) w = true) as ->.
  { unfold result, hasChildren, gets. cbn [fst]. by rewrite bool_decide_eq_false_2. }
  rewrite bool_decide_eq_true_2 by done. cbn [negb orb].
  rewrite !exec_bind, !emitted_bind. cbn [ret exec result emitted fst snd app].
  apply (forEach_showTextDocument (fun f => Favorite.resourcePath (theFavorite (store w) f))).
Qed.

Lemma openGroup_empty host w g :
  childrenOf (store w) g = [] ->
  exec (openGroup host (Some g)) w = w ∧
  promptsForGroup host w (emitted (openGroup host (Some g)) w).
Proof.
  intros Hempty. apply openGroup_fallback.
  unfold result, hasChildren, gets. cbn [fst]. by rewrite bool_decide_eq_true_2.
Qed.

Lemma exec_openGroup host group w : exec (openGroup host group) w = w.
Proof.
  destruct group as [g|]; [|by apply openGroup_fallback].
  destruct (decide (childrenOf (store w) g = [])).
  - by apply openGroup_empty.
  - by apply openGroup_direct.
Qed.

(** C10. Open-group never changes the world. Without an argument, or
    with a group that has no children, it asks the user to pick among all
    the groups of the store and opens the documents of the group picked
    (none when the user picks nothing); only with a group that has at
    least one child does it open exactly the documents of that group's
    children, without asking. *)
Theorem openGroup_prompts_unless_children host w group :
  let s := store w in
  exec (openGroup host group) w = w ∧
  match group with
  | Some g =>
      if decide (childrenOf s g = [])
      then promptsForGroup host w (emitted (openGroup host group) w)
      else emitted (openGroup host group) w = opens s g
  | None => promptsForGroup host w (emitted (openGroup host group) w)
  end.
Proof.
  intros s. split; [apply exec_openGroup|].
  destruct group as [g|]; [|by apply openGroup_fallback].
  destruct (decide (childrenOf s g = [])).
  - by apply openGroup_empty.
  - by apply openGroup_direct.
Qed.

(** The handler of favoriteManager.ts takes a group without children as
    the selection and opens nothing. *)
Lemma legacy_openGroup_opens_nothing_of_an_empty_group host w g :
  childrenOf (store w) g = [] ->
  emitted (Legacy.openGroup host (Some (AGroup g))) w = [].
Proof.
  intros Hempty. unfold Legacy.openGroup, emitted, bind, ret, gets.
  cbn [fst snd app id]. by rewrite Hempty.
Qed.

(** ** Cancelled prompts *)

Lemma favoriteActiveFile_cancel host fileName node w :
  Exists cancelled (emitted (favoriteActiveFile host fileName node) w) ->
  exec (favoriteActiveFile host fileName node) w = w.
Proof.
  unfold favoriteActiveFile.
  destruct (truthy (selectedElementPath host node)); cbn [negb]; [|done].
  ask_input.
  destruct (inputBox host _ _) as [l|] eqn:Hl; [|done].
  destruct (truthy (Some l)); cbn [negb]; [|done].
  no_cancel.
Qed.

Lemma favoriteActiveFileToGroup_cancel host fileName node w :
  Exists cancelled (emitted (favoriteActiveFileToGroup host fileName node) w) ->
  exec (favoriteActiveFileToGroup host fileName node) w = w.
Proof.
  unfold favoriteActiveFileToGroup.
  destruct (truthy (selectedElementPath host node)); cbn [negb]; [|done].
  rewrite exec_bind, emitted_bind. change (exec storeGroups w) with w.
  case_bool_decide; [done|].
  rewrite exec_bind, emitted_bind.
  destruct (showQuickPick_run host (AGroup <$> result storeGroups w) w) as (-> & -> & ->).
  cbn zeta. destruct (answerOf host _) as [i|]; [|done].
  cbn [mbind option_bind].
  destruct (_ !! i) as [x|]; [|done]. cbn [mbind option_bind].
  destruct (groupRef x) as [g|]; [|done].
  change (emitted storeGroups w) with (@nil HostCall). cbn [app].
  ask_input.
  destruct (inputBox host _ _) as [l|] eqn:Hl; [|done].
  destruct (truthy (Some l)); cbn [negb]; [|done].
  no_cancel.
Qed.

Lemma createGroup_cancel host w :
  Exists cancelled (emitted (createGroup host) w) -> exec (createGroup host) w = w.
Proof.
  unfold createGroup. ask_input.
  destruct (inputBox host _ _) as [l|] eqn:Hl; [|done].
  destruct (truthy (Some l)); cbn [negb]; [|done].
  no_cancel.
Qed.

Lemma renameFavorite_cancel host bk w :
  Exists cancelled (emitted (renameFavorite host bk) w) -> exec (renameFavorite host bk) w = w.
Proof.
  unfold renameFavorite. destruct bk as [bk|]; [|done].
  rewrite exec_bind, emitted_bind. change (exec (gets id) w) with w.
  change (emitted (gets id) w) with (@nil HostCall). cbn [app].
  ask_input.
  destruct (inputBox host _ _) as [l|] eqn:Hl; [|done].
  destruct (truthy (Some l)); cbn [negb]; [|done].
  no_cancel.
Qed.

Lemma removeFavorite_cancel host x w :
  Exists cancelled (emitted (removeFavorite host x) w) -> exec (removeFavorite host x) w = w.
Proof.
  unfold removeFavorite. destruct x as [x|]; [|done].
  rewrite exec_bind, emitted_bind. change (exec (gets id) w) with w.
  change (emitted (gets id) w) with (@nil HostCall). cbn [app].
  rewrite exec_bind, emitted_bind.
  change (exec (showWarningMessage host ?m ?i) w) with w.
  set (choice := result (showWarningMessage host _ _) w).
  assert (emitted (showWarningMessage host (removeMessage (result (gets id) w) x) ["Yes"; "No"]) w
          = [ShowWarningMessage (removeMessage (result (gets id) w) x) ["Yes"; "No"] choice]) as ->
    by reflexivity.
  case_bool_decide as Hc; [|done]. rewrite Hc. no_cancel.
Qed.

Lemma moveFavorite_cancel host f w :
  Exists cancelled (emitted (moveFavorite host f) w) -> exec (moveFavorite host f) w = w.
Proof.
  unfold moveFavorite. destruct f as [f|]; [|done].
  rewrite exec_bind, emitted_bind. change (exec (storeGetParent f) w) with w.
  change (emitted (storeGetParent f) w) with (@nil HostCall). cbn [app].
  rewrite exec_bind, emitted_bind.
  change (exec (promptGroupSelection host ?e) w) with w.
  set (parent := result (storeGetParent f) w).
  set (shown := quickPickItem (store w) <$> (AGroup <$> List.filter
         (fun g => negb (isObject (findExclusion (store w) [parent] g))) (result storeGroups w))).
  assert (emitted (promptGroupSelection host [parent]) w
          = [ShowQuickPick shown (answerOf host shown)]) as -> by reflexivity.
  assert (result (promptGroupSelection host [parent]) w
          = (x ← (i ← answerOf host shown; (AGroup <$> List.filter
         (fun g => negb (isObject (findExclusion (store w) [parent] g))) (result storeGroups w)) !! i); groupRef x)) as -> by reflexivity.
  destruct (answerOf host shown) as [i|]; [|done].
  cbn [mbind option_bind].
  destruct (_ !! i) as [x|]; [|done]. cbn [mbind option_bind].
  destruct (groupRef x) as [g|]; [|done].
  destruct parent; no_cancel.
Qed.

Lemma withoutDescriptions_describe d r s :
  withoutDescriptions (updFavorite (Favorite.set_description d) r s) = withoutDescriptions s.
Proof.
  unfold withoutDescriptions, updFavorite. cbn [favoriteObjects groupObjects _favorites storeFile].
  f_equal. apply map_eq. intros i. rewrite !lookup_fmap, lookup_alter.
  case_decide; [subst|done]. by destruct (favoriteObjects s !! i).
Qed.

Lemma describeChildren_run x cs : ∀ w,
  emitted (describeChildren x cs) w = [] ∧
  withoutDescriptions (store (exec (describeChildren x cs) w)) = withoutDescriptions (store w).
Proof.
  induction cs as [|c cs IH]; intros w; [done|].
  set (w1 := exec (assignDescription c ("  $(folder) " +:+ labelOf (store w) (AGroup x))) w).
  destruct (IH w1) as [E S].
  assert (exec (describeChildren x (c :: cs)) w = exec (describeChildren x cs) w1) as ->
    by reflexivity.
  assert (emitted (describeChildren x (c :: cs)) w = emitted (describeChildren x cs) w1 ++ []) as ->
    by reflexivity.
  rewrite E, S. split; [done|]. apply withoutDescriptions_describe.
Qed.

Lemma flatMapFavorites_run all : ∀ w,
  emitted (flatMapFavorites all) w = [] ∧
  withoutDescriptions (store (exec (flatMapFavorites all) w)) = withoutDescriptions (store w).
Proof.
  induction all as [|x all IH]; intros w; [done|].
  set (here := match x with
               | AGroup g => s <- gets id ;; describeChildren g (childrenOf s g)
               | AFavorite f => ret [f]
               end).
  assert (emitted here w = [] ∧
          withoutDescriptions (store (exec here w)) = withoutDescriptions (store w)) as [E1 S1].
  { subst here. destruct x as [f|g]; [done|]. apply (describeChildren_run g). }
  destruct (IH (exec here w)) as [E2 S2].
  assert (exec (flatMapFavorites (x :: all)) w = exec (flatMapFavorites all) (exec here w)) as ->
    by reflexivity.
  assert (emitted (flatMapFavorites (x :: all)) w =
          emitted here w ++ emitted (flatMapFavorites all) (exec here w) ++ []) as ->
    by reflexivity.
  rewrite E1, E2, S2, S1. done.
Qed.

Lemma openFavorite_run host cmp w :
  withoutDescriptions (store (exec (openFavorite host cmp) w)) = withoutDescriptions (store w).
Proof.
  destruct (flatMapFavorites_run (_favorites (store w)) w) as [_ S].
  unfold openFavorite. rewrite exec_bind. change (exec storeAll w) with w.
  rewrite exec_bind. change (result storeAll w) with (_favorites (store w)).
  set (w1 := exec (flatMapFavorites (_favorites (store w))) w) in *.
  rewrite exec_bind. change (exec (gets id) w1) with w1.
  rewrite exec_bind. change (exec (showQuickPick host ?i) w1) with w1.
  destruct (result (showQuickPick host _) w1) as [[f|g]|]; exact S.
Qed.

Lemma reloadFavorites_cancel host w :
  Exists cancelled (emitted (reloadFavorites host) w) -> exec (reloadFavorites host) w = w.
Proof.
  intros Hex. exfalso. revert Hex. unfold reloadFavorites. rewrite emitted_bind.
  destruct (decode (storeFile (store w))) as [es|] eqn:Hdoc.
  - destruct (storeRefresh_run host w es Hdoc) as (-> & -> & _).
    cbn [app]. rewrite emitted_ret, !Exists_cons, Exists_nil. cbn. tauto.
  - assert (result (storeRefresh host) w = inr (errorMessage host (storeFile (store w)))) as ->.
    { unfold storeRefresh, result, bind, gets, ret. cbn [fst snd id]. by rewrite Hdoc. }
    assert (emitted (storeRefresh host) w = []) as ->.
    { unfold storeRefresh, emitted, bind, gets, ret. cbn [fst snd id]. by rewrite Hdoc. }
    cbn [app]. unfold showErrorMessage. rewrite emitted_call, !Exists_cons, Exists_nil. cbn. tauto.
Qed.

(** C7, as the code has it. When a prompt of a handler is left without an
    answer, the handler adds, removes, renames and moves nothing and
    writes no document: the world is the one before, except that
    open-favorite has by then set the quick-pick description of the
    favorites held by groups. *)
Theorem cancelled_prompt_aborts host fileName cmp storeUri c w :
  let h := handler host fileName cmp storeUri c in
  Exists cancelled (emitted h w) ->
  withoutDescriptions (store (exec h w)) = withoutDescriptions (store w) ∧
  (c ≠ OpenFavorite -> exec h w = w).
Proof.
  intros h Hex. subst h.
  assert (c = OpenFavorite ∨ exec (handler host fileName cmp storeUri c) w = w) as [->|Hsame].
  { destruct c; cbn [handler] in *; auto using favoriteActiveFile_cancel,
      favoriteActiveFileToGroup_cancel, reloadFavorites_cancel, createGroup_cancel,
      exec_openGroup, removeFavorite_cancel, renameFavorite_cancel, moveFavorite_cancel. }
  - split; [apply openFavorite_run|done].
  - rewrite Hsame. done.
Qed.

Lemma cancelled_prompt_aborts_witness :
  let h := handler nobody wholePath String.leb "favorites.json" (MoveFavorite (Some 0)) in
  withoutDescriptions (store (exec h exampleWorld)) = withoutDescriptions (store exampleWorld) ∧
  (MoveFavorite (Some 0) ≠ OpenFavorite -> exec h exampleWorld = exampleWorld).
Proof.
  apply (cancelled_prompt_aborts nobody wholePath String.leb "favorites.json"
           (MoveFavorite (Some 0)) exampleWorld).
  by_computation.
Defined.

(** Against C7 as stated: open-favorite with the quick pick dismissed has
    changed the README favorite of the store. *)
Lemma openFavorite_cancelled_sets_descriptions :
  let h := handler nobody wholePath String.leb "favorites.json" OpenFavorite in
  Exists cancelled (emitted h exampleWorld) ∧
  Favorite.description (theFavorite (store exampleWorld) 0) = None ∧
  Favorite.description (theFavorite (store (exec h exampleWorld)) 0) = Some "  $(folder) Work" ∧
  store (exec h exampleWorld) ≠ store exampleWorld.
Proof.
  split; [by_computation|]. split; [reflexivity|]. split; [vm_compute; reflexivity|].
  intros H. apply (f_equal (fun s => Favorite.description (theFavorite s 0))) in H.
  vm_compute in H. discriminate H.
Qed.

(** ** No selection *)

(** C8, as the code has it. When no element is selected and no editor is
    active, adding the current file as a favorite, plain or to a group,
    returns without any call to the host and leaves the world unchanged. *)
Theorem no_selection_is_silent host fileName node w :
  truthy (n ← node; fsPath n) = false -> activeTextEditor host = None ->
  (exec (favoriteActiveFile host fileName node) w = w ∧
   emitted (favoriteActiveFile host fileName node) w = []) ∧
  (exec (favoriteActiveFileToGroup host fileName node) w = w ∧
   emitted (favoriteActiveFileToGroup host fileName node) w = []).
Proof.
  intros Hn He.
  unfold favoriteActiveFile, favoriteActiveFileToGroup, selectedElementPath.
  rewrite Hn, He. cbn [truthy negb]. done.
Qed.

Lemma no_selection_is_silent_witness :
  (exec (favoriteActiveFile nobody wholePath None) exampleWorld = exampleWorld ∧
   emitted (favoriteActiveFile nobody wholePath None) exampleWorld = []) ∧
  (exec (favoriteActiveFileToGroup nobody wholePath None) exampleWorld = exampleWorld ∧
   emitted (favoriteActiveFileToGroup nobody wholePath None) exampleWorld = []).
Proof. apply (no_selection_is_silent nobody wholePath None exampleWorld); reflexivity. Defined.

(** Against C8 as stated: without a selection neither handler reports a
    warning. *)
Lemma add_favorite_silent_without_selection :
  ¬ Exists isWarning (emitted (favoriteActiveFile nobody wholePath None) exampleWorld) ∧
  ¬ Exists isWarning (emitted (favoriteActiveFileToGroup nobody wholePath None) exampleWorld).
Proof. split; vm_compute; intros H; inversion H. Qed.

(** ** Labels *)






Section Except.
Context (B : Bookmarkable -> Prop).








End Except.




Lemma keepsLabels_written B w t :
  heapLabelledExcept B t -> keepsLabels B w (mkWorld (writtenBack t) (uuids w)).
Proof. intros H. split; [done|by right]. Qed.

Section Labels.
Context (host : Host) (fileName : string -> string) (B : Bookmarkable -> Prop).













End Labels.




(** * Further properties of the handlers *)

(** ** Answers that do not go ahead *)

Lemma favoriteActiveFile_unlabelled host fileName node w :
  (∀ prompt value, truthy (inputBox host prompt value) = false) ->
  exec (favoriteActiveFile host fileName node) w = w.
Proof.
  intros Hno. unfold favoriteActiveFile.
  destruct (truthy (selectedElementPath host node)); cbn [negb]; [|done].
  rewrite exec_bind.
  change (result (showInputBox host ?p ?v) w) with (inputBox host p v).
  by rewrite Hno.
Qed.

Lemma favoriteActiveFileToGroup_unlabelled host fileName node w :
  (∀ prompt value, truthy (inputBox host prompt value) = false) ->
  exec (favoriteActiveFileToGroup host fileName node) w = w.
Proof.
  intros Hno. unfold favoriteActiveFileToGroup.
  destruct (truthy (selectedElementPath host node)); cbn [negb]; [|done].
  rewrite exec_bind. change (exec storeGroups w) with w.
  case_bool_decide; [done|].
  rewrite exec_bind.
  destruct (showQuickPick_run host (AGroup <$> result storeGroups w) w) as (-> & _ & ->).
  cbn zeta. destruct (_ ≫= groupRef) as [g|]; [|done].
  rewrite exec_bind.
  change (result (showInputBox host ?p ?v) w) with (inputBox host p v).
  by rewrite Hno.
Qed.

Lemma createGroup_unlabelled host w :
  (∀ prompt value, truthy (inputBox host prompt value) = false) ->
  exec (createGroup host) w = w.
Proof.
  intros Hno. unfold createGroup. rewrite exec_bind.
  change (result (showInputBox host ?p ?v) w) with (inputBox host p v).
  by rewrite Hno.
Qed.

Lemma renameFavorite_unlabelled host bk w :
  (∀ prompt value, truthy (inputBox host prompt value) = false) ->
  exec (renameFavorite host bk) w = w.
Proof.
  intros Hno. unfold renameFavorite. destruct bk as [bk|]; [|done].
  rewrite exec_bind. change (exec (gets id) w) with w.
  rewrite exec_bind.
  change (result (showInputBox host ?p ?v) w) with (inputBox host p v).
  by rewrite Hno.
Qed.

(** X4. An input box that is confirmed with nothing typed counts as no
    answer: when no input box gets a non-empty answer, adding the current
    file (plainly or to a group), creating a group and renaming an entry
    leave the world as it was. *)
Theorem empty_label_changes_nothing host fileName node bk w :
  (∀ prompt value, truthy (inputBox host prompt value) = false) ->
  exec (favoriteActiveFile host fileName node) w = w ∧
  exec (favoriteActiveFileToGroup host fileName node) w = w ∧
  exec (createGroup host) w = w ∧
  exec (renameFavorite host bk) w = w.
Proof.
  intros Hno. split; [by apply favoriteActiveFile_unlabelled|].
  split; [by apply favoriteActiveFileToGroup_unlabelled|].
  split; [by apply createGroup_unlabelled|by apply renameFavorite_unlabelled].
Qed.

Lemma empty_label_changes_nothing_witness :
  let host := user (Some "/notes/plan.md") (Some "") (Some 0) None in
  exec (favoriteActiveFile host wholePath None) exampleWorld = exampleWorld ∧
  exec (favoriteActiveFileToGroup host wholePath None) exampleWorld = exampleWorld ∧
  exec (createGroup host) exampleWorld = exampleWorld ∧
  exec (renameFavorite host (Some (AGroup 0))) exampleWorld = exampleWorld.
Proof.
  apply (empty_label_changes_nothing (user (Some "/notes/plan.md") (Some "") (Some 0) None)
           wholePath None (Some (AGroup 0)) exampleWorld).
  reflexivity.
Defined.

(** X5. The entry is removed on the answer Yes only: on any other answer to
    the warning (No, or none) the handler stops after the warning, with
    the world as it was. *)
Theorem removeFavorite_declined host w x :
  let s := store w in
  let h := removeFavorite host (Some x) in
  warningMessage host (removeMessage s x) ["Yes"; "No"] ≠ Some "Yes" ->
  exec h w = w ∧
  ∃ answer, answer ≠ Some "Yes" ∧
            emitted h w = [ShowWarningMessage (removeMessage s x) ["Yes"; "No"] answer].
Proof.
  intros s h Hno. subst h s. unfold removeFavorite.
  rewrite exec_bind, emitted_bind. change (exec (gets id) w) with w.
  change (result (gets id) w) with (store w).
  change (emitted (gets id) w) with (@nil HostCall). cbn [app].
  rewrite exec_bind, emitted_bind.
  set (m := removeMessage (store w) x) in *.
  change (exec (showWarningMessage host m ?i) w) with w.
  change (result (showWarningMessage host m ?i) w)
    with (a ← warningMessage host m i; if bool_decide (a ∈ i) then Some a else None).
  change (emitted (showWarningMessage host m ?i) w)
    with [ShowWarningMessage m i
            (a ← warningMessage host m i; if bool_decide (a ∈ i) then Some a else None)].
  set (answer := _ ≫= _).
  assert (answer ≠ Some "Yes") as Hanswer.
  { subst answer. destruct (warningMessage host m _) as [a|]; [|done].
    cbn [mbind option_bind]. case_bool_decide; congruence. }
  rewrite bool_decide_eq_false_2 by done.
  split; [done|]. exists answer. split; [done|]. by rewrite app_nil_r.
Qed.

Lemma removeFavorite_declined_witness :
  let host := user None None None (Some "No") in
  let h := removeFavorite host (Some (AGroup 0)) in
  exec h exampleWorld = exampleWorld ∧
  ∃ answer, answer ≠ Some "Yes" ∧
    emitted h exampleWorld
    = [ShowWarningMessage (removeMessage (store exampleWorld) (AGroup 0)) ["Yes"; "No"] answer].
Proof.
  apply (removeFavorite_declined (user None None None (Some "No")) exampleWorld (AGroup 0)).
  by_computation.
Defined.

(** ** The groups offered for selection *)

Lemma isObject_findExclusion s exclusions g :
  isObject (findExclusion s exclusions g) = false ↔
  ∀ e, Some e ∈ exclusions -> uuidOf s (AGroup e) ≠ uuidOf s (AGroup g).
Proof.
  unfold findExclusion. induction exclusions as [|x ex IH]; cbn [List.find].
  - split; [|done]. intros _ e He. by apply elem_of_nil in He.
  - destruct x as [x|].
    + destruct (String.eqb_spec (uuidOf s (AGroup x)) (uuidOf s (AGroup g))) as [Heq|Hne].
      * cbn. split; [done|]. intros H. exfalso. apply (H x); [left|done].
      * rewrite IH. split.
        -- intros H e He. apply elem_of_cons in He as [[= ->]|He]; auto.
        -- intros H e He. apply H. by right.
    + rewrite IH. split.
      * intros H e He. apply elem_of_cons in He as [[=]|He]; auto.
      * intros H e He. apply H. by right.
Qed.

(** X6. The quick pick of groups offers the groups of the store, in their
    order, except those that carry the identifier of an exclusion; an
    exclusion that is undefined excludes nothing. The selection is the
    group picked among those offered, and the world stays as it was. *)
Theorem promptGroupSelection_offers host exclusions w :
  let s := store w in
  let h := promptGroupSelection host exclusions in
  ∃ offered,
    offered `sublist_of` result storeGroups w ∧
    (∀ g, g ∈ offered ↔
          g ∈ result storeGroups w ∧
          ∀ e, Some e ∈ exclusions -> uuidOf s (AGroup e) ≠ uuidOf s (AGroup g)) ∧
    exec h w = w ∧
    let shown := quickPickItem s <$> (AGroup <$> offered) in
    emitted h w = [ShowQuickPick shown (answerOf host shown)] ∧
    result h w = (i ← answerOf host shown; offered !! i).
Proof.
  intros s h.
  set (keep := fun f => negb (isObject (findExclusion s exclusions f))).
  exists (List.filter keep (result storeGroups w)).
  split; [|split; [|split; [reflexivity|]]].
  - induction (result storeGroups w) as [|g gs IH]; cbn [List.filter]; [constructor|].
    destruct (keep g); by constructor.
  - intros g. rewrite list_elem_of_In, filter_In, <- list_elem_of_In.
    subst keep. cbn beta. by rewrite negb_true_iff, isObject_findExclusion.
  - cbn zeta. split; [reflexivity|].
    change (result h w) with
      (x ← result (showQuickPick host (AGroup <$> List.filter keep (result storeGroups w))) w;
       groupRef x).
    destruct (showQuickPick_run host (AGroup <$> List.filter keep (result storeGroups w)) w)
      as (_ & _ & ->).
    cbn zeta. fold s. destruct (answerOf host _) as [i|]; [|done].
    cbn [mbind option_bind]. rewrite list_lookup_fmap.
    by destruct (_ !! i).
Qed.

(** ** Opening a favorite *)

Lemma describeChildren_objects x cs : ∀ w,
  let s := store w in
  let s' := store (exec (describeChildren x cs) w) in
  result (describeChildren x cs) w = cs ∧
  groupObjects s' = groupObjects s ∧ _favorites s' = _favorites s ∧
  storeFile s' = storeFile s ∧
  ∀ c, favoriteObjects s' !! c =
       (if decide (c ∈ cs)
        then Favorite.set_description (Some ("  $(folder) " +:+ labelOf s (AGroup x)))
        else id) <$> favoriteObjects s !! c.
Proof.
  induction cs as [|c0 cs IH]; intros w s s'.
  - repeat split. intros c. rewrite decide_False by apply not_elem_of_nil.
    by rewrite option_fmap_id.
  - set (d := "  $(folder) " +:+ labelOf (store w) (AGroup x)).
    set (w1 := exec (assignDescription c0 d) w).
    destruct (IH w1) as (R & G & F & D & O).
    assert (exec (describeChildren x (c0 :: cs)) w = exec (describeChildren x cs) w1) as E
      by reflexivity.
    assert (result (describeChildren x (c0 :: cs)) w
            = c0 :: result (describeChildren x cs) w1) as -> by reflexivity.
    subst s'. rewrite E, R, G, F, D. repeat split.
    intros c. rewrite O.
    change (labelOf (store w1) (AGroup x)) with (labelOf (store w) (AGroup x)). fold d.
    change (favoriteObjects (store w1))
      with (alter (Favorite.set_description (Some d)) c0 (favoriteObjects (store w))).
    rewrite lookup_alter. fold s.
    destruct (decide (c ∈ c0 :: cs)) as [Hin|Hout].
    + case_decide as Hc0; case_decide as Hcs; subst;
        destruct (favoriteObjects s !! _) as [[]|]; try done.
      apply elem_of_cons in Hin as [|]; done.
    + destruct (favoriteObjects s !! c) as [[]|]; repeat case_decide; subst; try done;
        exfalso; apply Hout; first [left | by right].
Qed.

Lemma flatMapFavorites_objects all : ∀ w,
  let s := store w in
  let s' := store (exec (flatMapFavorites all) w) in
  let tag g := Favorite.set_description (Some ("  $(folder) " +:+ labelOf s (AGroup g))) in
  result (flatMapFavorites all) w
    = (all ≫= fun x => match x with
                       | AGroup g => childrenOf s g
                       | AFavorite f => [f]
                       end) ∧
  groupObjects s' = groupObjects s ∧ _favorites s' = _favorites s ∧
  storeFile s' = storeFile s ∧
  ∀ c, (favoriteObjects s' !! c = favoriteObjects s !! c ∧
        ∀ g, AGroup g ∈ all -> c ∉ childrenOf s g) ∨
       (∃ g, AGroup g ∈ all ∧ c ∈ childrenOf s g ∧
             favoriteObjects s' !! c = tag g <$> favoriteObjects s !! c).
Proof.
  induction all as [|x all IH]; intros w s s' tag.
  - repeat split. intros c. left. split; [done|]. intros g Hg. by apply elem_of_nil in Hg.
  - set (here := match x with
                 | AGroup g => s <- gets id ;; describeChildren g (childrenOf s g)
                 | AFavorite f => ret [f]
                 end).
    set (w1 := exec here w).
    assert (result here w = match x with
                            | AGroup g => childrenOf s g
                            | AFavorite f => [f]
                            end ∧
            groupObjects (store w1) = groupObjects s ∧ _favorites (store w1) = _favorites s ∧
            storeFile (store w1) = storeFile s ∧
            ∀ c, favoriteObjects (store w1) !! c =
                 match x with
                 | AGroup g => (if decide (c ∈ childrenOf s g) then tag g else id)
                                 <$> favoriteObjects s !! c
                 | AFavorite _ => favoriteObjects s !! c
                 end) as (R1 & G1 & F1 & D1 & O1).
    { subst here w1. destruct x as [f|g]; [done|].
      apply (describeChildren_objects g (childrenOf s g) w). }
    destruct (IH w1) as (R2 & G2 & F2 & D2 & O2).
    assert (∀ g, childrenOf (store w1) g = childrenOf s g) as Hch.
    { intros g. unfold childrenOf, theGroup. by rewrite G1. }
    assert (∀ g, labelOf (store w1) (AGroup g) = labelOf s (AGroup g)) as Hlab.
    { intros g. unfold labelOf, theGroup. by rewrite G1. }
    assert (exec (flatMapFavorites (x :: all)) w = exec (flatMapFavorites all) w1) as E
      by reflexivity.
    assert (result (flatMapFavorites (x :: all)) w
            = result here w ++ result (flatMapFavorites all) w1) as -> by reflexivity.
    subst s'. rewrite E, R1, R2, G2, F2, D2, G1, F1, D1.
    split.
    { rewrite bind_cons. f_equal. apply list_bind_ext; [|done].
      intros [f|g]; [done|apply Hch]. }
    do 3 (split; [done|]).
    intros c. destruct (O2 c) as [[Hsame Hnone]|(g & Hg & Hc & Htag)].
    + destruct x as [f|g0].
      * left. rewrite Hsame, O1. split; [done|].
        intros g Hg. apply elem_of_cons in Hg as [[=]|Hg].
        rewrite <- Hch. by apply Hnone.
      * destruct (decide (c ∈ childrenOf s g0)) as [Hc|Hc].
        -- right. exists g0. split; [left|]. split; [done|].
           rewrite Hsame, O1. by rewrite decide_True.
        -- left. rewrite Hsame, O1, decide_False by done. rewrite option_fmap_id.
           split; [done|]. intros g Hg. apply elem_of_cons in Hg as [[= ->]|Hg]; [done|].
           rewrite <- Hch. by apply Hnone.
    + right. exists g. split; [by right|]. rewrite <- Hch. split; [done|].
      rewrite Htag, Hlab, O1. subst tag. cbn beta.
      destruct x as [f|g0]; [done|].
      case_decide; destruct (favoriteObjects s !! c) as [[]|]; done.
Qed.

Lemma insertByLabel_Permutation cmp s x l : insertByLabel cmp s x l ≡ₚ x :: l.
Proof.
  induction l as [|y l IH]; cbn [insertByLabel]; [done|].
  destruct (cmp _ _); [done|]. rewrite IH. apply Permutation_swap.
Qed.

Lemma sortByLabel_Permutation cmp s l : sortByLabel cmp s l ≡ₚ l.
Proof.
  unfold sortByLabel. induction l as [|x l IH]; cbn [foldr]; [done|].
  by rewrite insertByLabel_Permutation, IH.
Qed.

Lemma openFavorite_exec host cmp w :
  exec (openFavorite host cmp) w = exec (flatMapFavorites (_favorites (store w))) w.
Proof.
  unfold openFavorite. rewrite exec_bind. change (exec storeAll w) with w.
  rewrite exec_bind. change (result storeAll w) with (_favorites (store w)).
  set (w1 := exec (flatMapFavorites (_favorites (store w))) w) in *.
  rewrite exec_bind. change (exec (gets id) w1) with w1.
  rewrite exec_bind. change (exec (showQuickPick host ?i) w1) with w1.
  by destruct (result (showQuickPick host _) w1) as [[f|g]|].
Qed.

Lemma insertByLabel_sorted cmp s x l :
  (∀ a b, cmp a b = true ∨ cmp b a = true) ->
  (∀ a b c, cmp a b = true -> cmp b c = true -> cmp a c = true) ->
  StronglySorted (noLater cmp s) l -> StronglySorted (noLater cmp s) (insertByLabel cmp s x l).
Proof.
  intros total transitive.
  induction l as [|y l IH]; intros Hl; cbn [insertByLabel].
  - repeat constructor.
  - apply StronglySorted_inv in Hl as [Hl Hy].
    destruct (cmp _ _) eqn:Hxy.
    + constructor; [by constructor|]. constructor; [exact Hxy|].
      eapply Forall_impl; [exact Hy|]. intros z Hz. exact (transitive _ _ _ Hxy Hz).
    + constructor; [by apply IH|].
      rewrite insertByLabel_Permutation. constructor; [|exact Hy].
      destruct (total (labelOf s (AFavorite x)) (labelOf s (AFavorite y))) as [H|H];
        [congruence|exact H].
Qed.

Lemma sortByLabel_sorted cmp s l :
  (∀ a b, cmp a b = true ∨ cmp b a = true) ->
  (∀ a b c, cmp a b = true -> cmp b c = true -> cmp a c = true) ->
  StronglySorted (noLater cmp s) (sortByLabel cmp s l).
Proof.
  intros total transitive.
  unfold sortByLabel. induction l as [|x l IH]; cbn [foldr]; [constructor|].
  by apply insertByLabel_sorted.
Qed.

(** The order of strings that the examples sort by is transitive. *)
Lemma string_leb_trans a b c :
  String.leb a b = true -> String.leb b c = true -> String.leb a c = true.
Proof.
  unfold String.leb. intros Hab Hbc.
  destruct (String.compare a c) eqn:Hac; try done. exfalso.
  assert (OrderedTypeEx.String_as_OT.lt c a) as Hca.
  { apply OrderedTypeEx.String_as_OT.cmp_lt.
    unfold OrderedTypeEx.String_as_OT.cmp. rewrite String.compare_antisym, Hac. done. }
  assert (∀ x y, String.compare x y ≠ Gt ->
                 x = y ∨ OrderedTypeEx.String_as_OT.lt x y) as Hle.
  { intros x y Hxy. destruct (String.compare x y) eqn:E; [left|right|done].
    - by apply OrderedTypeEx.String_as_OT.cmp_eq.
    - by apply OrderedTypeEx.String_as_OT.cmp_lt. }
  assert (String.compare a b ≠ Gt) as Hab' by (by destruct (String.compare a b)).
  assert (String.compare b c ≠ Gt) as Hbc' by (by destruct (String.compare b c)).
  assert (a = c ∨ OrderedTypeEx.String_as_OT.lt a c) as [->|Hlt].
  { destruct (Hle a b Hab') as [->|H1]; destruct (Hle b c Hbc') as [->|H2]; auto.
    right. by eapply OrderedTypeEx.String_as_OT.lt_trans. }
  - by apply (OrderedTypeEx.String_as_OT.lt_not_eq c c).
  - apply (OrderedTypeEx.String_as_OT.lt_not_eq a a); [|done].
    by eapply OrderedTypeEx.String_as_OT.lt_trans.
Qed.

(** X7. Open-favorite offers every favorite of the store, top-level or
    held by a group, once per place it has in the store, in the order of
    the comparator: when the comparator is a total preorder of labels,
    every favorite offered sorts no later than each one offered after
    it. The item of a favorite shows the description that the handler
    has just set. The favorite picked is opened, and nothing is opened
    when the quick pick is dismissed. *)
Theorem openFavorite_offers host cmp w :
  let h := openFavorite host cmp in
  let s' := store (exec h w) in
  let favorites := sortByLabel cmp s' (favoritesOf (store w)) in
  let shown := quickPickItem s' <$> (AFavorite <$> favorites) in
  favorites ≡ₚ favoritesOf (store w) ∧
  ((∀ a b, cmp a b = true ∨ cmp b a = true) ->
   (∀ a b c, cmp a b = true -> cmp b c = true -> cmp a c = true) ->
   StronglySorted (noLater cmp s') favorites) ∧
  emitted h w
  = ShowQuickPick shown (answerOf host shown)
    :: match i ← answerOf host shown; favorites !! i with
       | Some f => [ShowTextDocument (Favorite.resourcePath (theFavorite s' f))]
       | None => []
       end.
Proof.
  intros h s' favorites shown. split; [apply sortByLabel_Permutation|].
  split; [intros Htotal Htrans; by apply sortByLabel_sorted|].
  destruct (flatMapFavorites_run (_favorites (store w)) w) as [Em _].
  destruct (flatMapFavorites_objects (_favorites (store w)) w) as (R & _).
  subst shown favorites s' h. rewrite openFavorite_exec.
  fold (favoritesOf (store w)) in R.
  unfold openFavorite. rewrite emitted_bind. change (exec storeAll w) with w.
  change (emitted storeAll w) with (@nil HostCall).
  change (result storeAll w) with (_favorites (store w)).
  rewrite emitted_bind, Em, R. cbn [app].
  set (w1 := exec (flatMapFavorites (_favorites (store w))) w).
  rewrite emitted_bind. change (exec (gets id) w1) with w1.
  change (emitted (gets id) w1) with (@nil HostCall).
  change (result (gets id) w1) with (store w1). cbn [app].
  rewrite emitted_bind.
  destruct (showQuickPick_run host
              (AFavorite <$> sortByLabel cmp (store w1) (favoritesOf (store w))) w1)
    as (-> & -> & ->).
  cbn zeta. cbn [app]. f_equal.
  destruct (answerOf host _) as [i|]; [|done]. cbn [mbind option_bind].
  rewrite list_lookup_fmap. by destruct (_ !! i).
Qed.

Lemma openFavorite_offers_witness :
  let s' := store (exec (openFavorite nobody String.leb) exampleWorld) in
  StronglySorted (noLater String.leb s')
                 (sortByLabel String.leb s' (favoritesOf (store exampleWorld))).
Proof.
  apply (proj1 (proj2 (openFavorite_offers nobody String.leb exampleWorld))).
  - exact String.leb_total.
  - exact string_leb_trans.
Defined.

(** X8. Open-favorite writes on the favorites it lists: a favorite held by a
    group of the store leaves with the description [  $(folder) <label>]
    of a group that holds it, and is otherwise as before; every other
    object, the list of the store and the document are as before. *)
Theorem openFavorite_describes host cmp w :
  let s := store w in
  let s' := store (exec (openFavorite host cmp) w) in
  groupObjects s' = groupObjects s ∧ _favorites s' = _favorites s ∧
  storeFile s' = storeFile s ∧
  ∀ c, (favoriteObjects s' !! c = favoriteObjects s !! c ∧
        ∀ g, AGroup g ∈ _favorites s -> c ∉ childrenOf s g) ∨
       (∃ g, AGroup g ∈ _favorites s ∧ c ∈ childrenOf s g ∧
             favoriteObjects s' !! c
             = Favorite.set_description (Some ("  $(folder) " +:+ labelOf s (AGroup g)))
                 <$> favoriteObjects s !! c).
Proof.
  intros s s'. subst s'. rewrite openFavorite_exec.
  destruct (flatMapFavorites_objects (_favorites (store w)) w) as (_ & G & F & D & O).
  done.
Qed.

(** ** The invariants are kept *)

Lemma sublist_bind_ext {A B} (f g : A -> list B) (l1 l2 : list A) :
  l1 `sublist_of` l2 -> (∀ x, x ∈ l2 -> f x `sublist_of` g x) ->
  (l1 ≫= f) `sublist_of` (l2 ≫= g).
Proof.
  induction 1 as [|x l1 l2 _ IH|x l1 l2 _ IH]; intros Hfg; [done| |].
  - rewrite !bind_cons. apply sublist_app; [apply Hfg; left|].
    apply IH. intros y Hy. apply Hfg. by right.
  - rewrite bind_cons. apply sublist_inserts_l.
    apply IH. intros y Hy. apply Hfg. by right.
Qed.

Lemma bind_ext_in {A B} (f g : A -> list B) (l : list A) :
  (∀ x, x ∈ l -> f x = g x) -> l ≫= f = l ≫= g.
Proof. intros H. apply Forall_bind_ext, Forall_forall, H. Qed.

Lemma fmap_ext_in {A B} (f g : A -> B) (l : list A) :
  (∀ x, x ∈ l -> f x = g x) -> f <$> l = g <$> l.
Proof. intros H. apply Forall_fmap_ext, Forall_forall, H. Qed.

Lemma NoDup_tops s : NoDup (members s) -> NoDup (_favorites s).
Proof.
  unfold members. induction (_favorites s) as [|x l IH]; [constructor|].
  rewrite bind_cons. intros (_ & Hdis & Hnd)%NoDup_app.
  constructor; [|by apply IH].
  intros Hx. apply (Hdis x); [left|]. apply list_elem_of_bind. exists x. split; [left|done].
Qed.

Lemma member_inv s x :
  x ∈ members s ->
  x ∈ _favorites s ∨ ∃ g c, x = AFavorite c ∧ AGroup g ∈ _favorites s ∧ c ∈ childrenOf s g.
Proof.
  intros (y & Hx & Hy)%list_elem_of_bind.
  apply elem_of_cons in Hx as [->|Hx]; [by left|].
  destruct y as [f|g]; [by apply elem_of_nil in Hx|].
  apply list_elem_of_fmap in Hx as (c & -> & Hc). right. eauto.
Qed.

(** What the invariants look at may shrink: a store that keeps the
    objects, identifiers and parent references of [s] and whose list and
    groups hold no more than those of [s] is well formed when [s] is. *)
Lemma wellFormed_shrinks s s' :
  (∀ x, live s x -> live s' x) ->
  (∀ x, live s x -> uuidOf s' x = uuidOf s x) ->
  (∀ f, live s (AFavorite f) ->
        Favorite.parent (theFavorite s' f) = Favorite.parent (theFavorite s f)) ->
  _favorites s' `sublist_of` _favorites s ->
  (∀ g, live s (AGroup g) -> childrenOf s' g `sublist_of` childrenOf s g) ->
  wellFormed s -> wellFormed s'.
Proof.
  intros Hlive Huuid Hparent Htop Hch Hwf.
  pose proof Hwf as (HL & Hnd & Hpar).
  rewrite Forall_forall in HL.
  assert (members s' `sublist_of` members s) as Hsub.
  { apply sublist_bind_ext; [done|]. intros [f|g] Hx; [done|].
    apply sublist_skip. apply fmap_sublist, Hch, HL, members_top, Hx. }
  assert (∀ x, x ∈ members s' -> x ∈ members s) as Hin
    by (intros x Hx; by eapply elem_of_sublist).
  split; [|split].
  - apply Forall_forall. auto.
  - rewrite (fmap_ext_in (uuidOf s') (uuidOf s)) by auto.
    eapply sublist_NoDup; [exact Hnd|]. by apply fmap_sublist.
  - rewrite Forall_forall in Hpar. apply Forall_forall. intros x Hx.
    assert (x ∈ _favorites s) as Hx' by (by eapply elem_of_sublist).
    specialize (Hpar x Hx'). destruct x as [f|g]; cbn in *.
    + rewrite Hparent; [done|]. by apply (HL (AFavorite f)), members_top.
    + assert (live s (AGroup g)) as Hg by (by apply (HL (AGroup g)), members_top).
      rewrite Forall_forall in Hpar. apply Forall_forall. intros c Hc.
      assert (c ∈ childrenOf s g) as Hc' by (eapply elem_of_sublist; eauto).
      rewrite Hparent by (eapply (HL (AFavorite c)), members_child; eauto).
      rewrite (Hpar c Hc'). f_equal. symmetry. exact (Huuid (AGroup g) Hg).
Qed.

(** Another entry joins the list. *)
Lemma wellFormed_appends s x :
  wellFormed s -> live s x -> uuidOf s x ∉ (uuidOf s <$> members s) ->
  entriesOf s x = [x] -> parentNamed s x ->
  wellFormed (setFavorites (_favorites s ++ [x]) s).
Proof.
  intros (HL & Hnd & Hpar) Hx Hfresh Hone Hnamed.
  assert (members (setFavorites (_favorites s ++ [x]) s) = members s ++ [x]) as Hm.
  { unfold members. cbn [_favorites setFavorites]. rewrite bind_app.
    change (entriesOf (setFavorites ?l s)) with (entriesOf s).
    f_equal. by rewrite bind_cons, Hone. }
  split; [|split].
  - rewrite Hm. apply Forall_app. split; [exact HL|]. by constructor.
  - rewrite Hm. change (uuidOf (setFavorites ?l s)) with (uuidOf s).
    rewrite fmap_app. apply NoDup_app. split; [done|]. split; [|apply NoDup_singleton].
    intros u Hu Hu'. apply list_elem_of_singleton in Hu'. by subst.
  - cbn [_favorites setFavorites]. apply Forall_app. split; [exact Hpar|]. by constructor.
Qed.

Lemma uuidOf_withChild g f s x : uuidOf (withChild g f s) x = uuidOf s x.
Proof.
  unfold withChild, uuidOf, theFavorite, theGroup, updGroup, updFavorite.
  cbn [favoriteObjects groupObjects]. destruct x as [r|r].
  - rewrite lookup_total_alter. case_decide; [subst|done].
    rewrite !lookup_total_alt. by destruct (favoriteObjects s !! r); cbn.
  - rewrite lookup_total_alter. case_decide; [subst|done].
    rewrite !lookup_total_alt. by destruct (groupObjects s !! r); cbn.
Qed.

Lemma live_withChild g f s x : live (withChild g f s) x <-> live s x.
Proof.
  unfold withChild, live, updGroup, updFavorite. cbn [favoriteObjects groupObjects].
  destruct x as [r|r]; by rewrite lookup_alter_is_Some.
Qed.

Lemma parent_withChild g f s c :
  live s (AFavorite f) ->
  Favorite.parent (theFavorite (withChild g f s) c) =
  if decide (f = c) then Some (uuidOf s (AGroup g)) else Favorite.parent (theFavorite s c).
Proof.
  intros [o Ho]. unfold withChild, theFavorite, updGroup, updFavorite.
  cbn [favoriteObjects groupObjects]. rewrite lookup_total_alter.
  case_decide; [subst|done]. by rewrite Ho.
Qed.

(** A group of the list takes up a favorite that the store does not
    hold. *)
Lemma wellFormed_adopts s g f :
  wellFormed s -> AGroup g ∈ _favorites s -> live s (AFavorite f) ->
  uuidOf s (AFavorite f) ∉ (uuidOf s <$> members s) ->
  wellFormed (withChild g f s).
Proof.
  intros Hwf Hg Hf Hfresh. pose proof Hwf as (HL & Hnd & Hpar).
  rewrite Forall_forall in HL.
  assert (live s (AGroup g)) as Hgl by (by apply HL, members_top).
  assert (AFavorite f ∉ members s) as Hout.
  { intros Hin. apply Hfresh. by apply list_elem_of_fmap_2. }
  set (s' := withChild g f s).
  assert (∀ x, x ≠ AGroup g -> entriesOf s' x = entriesOf s x) as Hsame.
  { intros [c|g'] Hne; [done|]. unfold entriesOf. subst s'.
    rewrite childrenOf_withChild by done. rewrite decide_False by congruence. done. }
  assert (entriesOf s' (AGroup g) = entriesOf s (AGroup g) ++ [AFavorite f]) as Hnew.
  { unfold entriesOf. subst s'. rewrite childrenOf_withChild by done.
    rewrite decide_True by done. by rewrite fmap_app. }
  assert (members s' ≡ₚ AFavorite f :: members s) as Hperm.
  { pose proof (NoDup_tops s (NoDup_fmap_1 _ _ Hnd)) as Htops.
    unfold members. change (_favorites s') with (_favorites s).
    destruct (list_elem_of_split _ _ Hg) as (l1 & l2 & Hl). rewrite Hl in *.
    apply NoDup_app in Htops as (_ & Hdis & (Hg2 & _)%NoDup_cons).
    rewrite !bind_app, !bind_cons, Hnew.
    rewrite (bind_ext_in (entriesOf s') (entriesOf s) l1).
    2:{ intros x Hx. apply Hsame. intros ->. apply (Hdis _ Hx). left. }
    rewrite (bind_ext_in (entriesOf s') (entriesOf s) l2).
    2:{ intros x Hx. apply Hsame. by intros ->. }
    rewrite <- (app_assoc _ [AFavorite f]). cbn [app]. rewrite !app_assoc.
    symmetry. apply Permutation_middle. }
  split; [|split].
  - rewrite Hperm. apply Forall_forall. intros x Hx. apply live_withChild.
    apply elem_of_cons in Hx as [->|Hx]; auto.
  - rewrite Hperm. rewrite (fmap_ext_in (uuidOf s') (uuidOf s))
      by (intros; apply uuidOf_withChild).
    rewrite fmap_cons. by constructor.
  - rewrite Forall_forall in Hpar. apply Forall_forall. intros x Hx.
    change (_favorites s') with (_favorites s) in Hx.
    specialize (Hpar x Hx). destruct x as [c|g']; cbn in *.
    + subst s'. rewrite parent_withChild by done.
      rewrite decide_False; [done|]. intros ->. by apply Hout, members_top.
    + subst s'. rewrite childrenOf_withChild by done.
      change (Group.uuid (theGroup (withChild g f s) g'))
        with (uuidOf (withChild g f s) (AGroup g')).
      rewrite uuidOf_withChild. rewrite Forall_forall in Hpar.
      assert (∀ c, c ∈ childrenOf s g' ->
                   Favorite.parent (theFavorite (withChild g f s) c)
                   = Some (uuidOf s (AGroup g'))) as Hold.
      { intros c Hc. rewrite parent_withChild by done.
        rewrite decide_False; [by apply Hpar|].
        intros ->. eapply Hout, members_child; eauto. }
      case_decide; [subst g'|by apply Forall_forall].
      apply Forall_app. split; [by apply Forall_forall|].
      constructor; [|done]. rewrite parent_withChild by done. by rewrite decide_True.
Qed.

Lemma wellFormed_writtenBack t : wellFormed (writtenBack t) <-> wellFormed t.
Proof. done. Qed.

Lemma wellFormed_allocFavorite s r F :
  favoriteObjects s !! r = None -> wellFormed s ->
  wellFormed (mkStore (<[r := F]> (favoriteObjects s)) (groupObjects s)
                      (_favorites s) (storeFile s)).
Proof.
  intros Hr. apply wellFormed_shrinks; cbn [_favorites]; try done.
  - intros [f|g] Hx; [|done]. cbn in *. apply lookup_insert_is_Some.
    destruct (decide (r = f)); auto.
  - intros [f|g] [o Ho]; [|done]. unfold uuidOf, theFavorite. cbn [favoriteObjects].
    rewrite lookup_total_insert_ne; [done|]. intros ->. by rewrite Hr in Ho.
  - intros f [o Ho]. unfold theFavorite. cbn [favoriteObjects].
    rewrite lookup_total_insert_ne; [done|]. intros ->. by rewrite Hr in Ho.
Qed.

Lemma wellFormed_allocGroup s r G :
  groupObjects s !! r = None -> wellFormed s ->
  wellFormed (mkStore (favoriteObjects s) (<[r := G]> (groupObjects s))
                      (_favorites s) (storeFile s)).
Proof.
  intros Hr. apply wellFormed_shrinks; cbn [_favorites]; try done.
  - intros [f|g] Hx; [done|]. cbn in *. apply lookup_insert_is_Some.
    destruct (decide (r = g)); auto.
  - intros [f|g] [o Ho]; [done|]. unfold uuidOf, theGroup. cbn [groupObjects].
    rewrite lookup_total_insert_ne; [done|]. intros ->. by rewrite Hr in Ho.
  - intros g [o Ho]. unfold childrenOf, theGroup. cbn [groupObjects].
    rewrite lookup_total_insert_ne; [done|]. intros ->. by rewrite Hr in Ho.
Qed.

(** The identifiers of the entries, after an object was allocated. *)
Lemma uuids_allocFavorite s r F :
  favoriteObjects s !! r = None -> wellFormed s ->
  let s1 := mkStore (<[r := F]> (favoriteObjects s)) (groupObjects s)
                    (_favorites s) (storeFile s) in
  uuidOf s1 <$> members s1 = uuidOf s <$> members s.
Proof.
  intros Hr (HL & _) s1. change (members s1) with (members s).
  rewrite Forall_forall in HL. apply fmap_ext_in. intros [f|g] Hx; [|done].
  destruct (HL _ Hx) as [o Ho]. unfold uuidOf, theFavorite. subst s1. cbn [favoriteObjects].
  rewrite lookup_total_insert_ne; [done|]. intros ->. by rewrite Hr in Ho.
Qed.

Lemma uuids_allocGroup s r G :
  groupObjects s !! r = None -> wellFormed s ->
  let s1 := mkStore (favoriteObjects s) (<[r := G]> (groupObjects s))
                    (_favorites s) (storeFile s) in
  uuidOf s1 <$> members s = uuidOf s <$> members s.
Proof.
  intros Hr (HL & _) s1.
  rewrite Forall_forall in HL. apply fmap_ext_in. intros [f|g] Hx; [done|].
  destruct (HL _ Hx) as [o Ho]. unfold uuidOf, theGroup. subst s1. cbn [groupObjects].
  rewrite lookup_total_insert_ne; [done|]. intros ->. by rewrite Hr in Ho.
Qed.

Lemma members_allocGroup s r G :
  groupObjects s !! r = None -> wellFormed s ->
  members (mkStore (favoriteObjects s) (<[r := G]> (groupObjects s))
                   (_favorites s) (storeFile s)) = members s.
Proof.
  intros Hr (HL & _). rewrite Forall_forall in HL.
  unfold members. cbn [_favorites]. apply bind_ext_in. intros [f|g] Hx; [done|].
  destruct (HL (AGroup g) (members_top _ _ Hx)) as [o Ho].
  unfold entriesOf, childrenOf, theGroup. cbn [groupObjects].
  rewrite lookup_total_insert_ne; [done|]. intros ->. by rewrite Hr in Ho.
Qed.

Lemma wellFormed_relabel bk l s :
  wellFormed s ->
  wellFormed (match bk with
              | AFavorite r => updFavorite (Favorite.set_label l) r s
              | AGroup r => updGroup (Group.set_label l) r s
              end).
Proof.
  apply wellFormed_shrinks.
  - intros x Hx. destruct bk as [r|r], x as [f|g]; cbn in *; try done;
      by apply lookup_alter_is_Some.
  - intros x _. destruct bk as [r|r], x as [f|g]; try done;
      unfold uuidOf, theFavorite, theGroup, updFavorite, updGroup;
      cbn [favoriteObjects groupObjects];
      rewrite lookup_total_alter; (case_decide; [subst|done]);
      rewrite !lookup_total_alt.
    + by destruct (favoriteObjects s !! f).
    + by destruct (groupObjects s !! g).
  - intros f _. destruct bk as [r|r]; [|done].
    unfold theFavorite, updFavorite. cbn [favoriteObjects].
    rewrite lookup_total_alter. case_decide; [subst|done].
    rewrite !lookup_total_alt. by destruct (favoriteObjects s !! f).
  - by destruct bk.
  - intros g _. destruct bk as [r|r]; [done|].
    rewrite childrenOf_updGroup. case_decide; [subst|done].
    unfold childrenOf, theGroup. rewrite lookup_total_alt.
    by destruct (groupObjects s !! g).
Qed.

Lemma wellFormed_withoutEntry x s : wellFormed s -> wellFormed (withoutEntry x s).
Proof.
  apply wellFormed_shrinks; try done.
  unfold withoutEntry. cbn [_favorites setFavorites]. apply sublist_filter.
Qed.

Lemma wellFormed_withoutChild p f s : wellFormed s -> wellFormed (withoutChild p f s).
Proof.
  apply wellFormed_shrinks; try done.
  - intros x Hx. unfold withoutChild, updGroup. destruct x as [c|g]; cbn in *; [done|].
    by apply lookup_alter_is_Some.
  - intros x _. destruct x as [c|g]; [done|].
    unfold uuidOf, theGroup, withoutChild, updGroup. cbn [groupObjects].
    rewrite lookup_total_alter. case_decide; [subst|done].
    rewrite !lookup_total_alt. by destruct (groupObjects s !! g).
  - intros g _. rewrite childrenOf_withoutChild. case_decide; [|done]. apply sublist_filter.
Qed.

Lemma wellFormed_described s s' :
  withoutDescriptions s' = withoutDescriptions s -> wellFormed s -> wellFormed s'.
Proof.
  intros Heq.
  assert (groupObjects s' = groupObjects s) as HG by exact (f_equal groupObjects Heq).
  assert (_favorites s' = _favorites s) as HF by exact (f_equal _favorites Heq).
  assert (∀ r, Favorite.set_description None <$> favoriteObjects s' !! r
               = Favorite.set_description None <$> favoriteObjects s !! r) as HO.
  { intros r. pose proof (f_equal (fun t => favoriteObjects t !! r) Heq) as H.
    cbn in H. by rewrite !lookup_fmap in H. }
  apply wellFormed_shrinks.
  - intros [f|g]; cbn; [|by rewrite HG]. specialize (HO f).
    intros [o Ho]. rewrite Ho in HO. destruct (favoriteObjects s' !! f); [eauto|done].
  - intros [f|g] _; unfold uuidOf, theFavorite, theGroup; [|by rewrite HG].
    specialize (HO f). rewrite !lookup_total_alt.
    destruct (favoriteObjects s' !! f) as [[]|], (favoriteObjects s !! f) as [[]|];
      by simplify_eq/=.
  - intros f _. unfold theFavorite. specialize (HO f). rewrite !lookup_total_alt.
    destruct (favoriteObjects s' !! f) as [[]|], (favoriteObjects s !! f) as [[]|];
      by simplify_eq/=.
  - by rewrite HF.
  - intros g _. unfold childrenOf, theGroup. by rewrite HG.
Qed.

Section Invariant.
Context (host : Host) (fileName : string -> string).

Lemma favoriteActiveFile_wellFormed node w :
  wellFormed (store w) -> nextUuidFresh host w ->
  wellFormed (store (exec (favoriteActiveFile host fileName node) w)).
Proof.
  intros Hwf Hfresh. unfold favoriteActiveFile.
  destruct (truthy (selectedElementPath host node)); cbn [negb]; [|done].
  rewrite exec_bind.
  change (result (showInputBox host ?p ?v) w) with (inputBox host p v).
  change (exec (showInputBox host ?p ?v) w) with w.
  destruct (inputBox host _ _) as [l|] eqn:Hl; [|done].
  destruct (truthy (Some l)) eqn:Ht; cbn [negb]; [|done].
  set (p := orEmpty (selectedElementPath host node)).
  set (r := fresh (dom (favoriteObjects (store w)))).
  change (wellFormed (setFavorites (_favorites (store w) ++ [AFavorite r])
                        (store (exec (loadFavorite host (l, p)) w)))).
  destruct (loadFavorite_run host (l, p) w) as (_ & _ & ->). fold r.
  pose proof (fresh_lookup (favoriteObjects (store w))) as Hr. fold r in Hr.
  match goal with |- wellFormed (setFavorites _ ?t) => set (s1 := t) end.
  change (wellFormed (setFavorites (_favorites s1 ++ [AFavorite r]) s1)).
  apply (wellFormed_appends s1 (AFavorite r)).
  - by apply wellFormed_allocFavorite.
  - cbn. by rewrite lookup_insert_eq.
  - subst s1. rewrite (uuids_allocFavorite (store w) r _ Hr Hwf).
    unfold uuidOf, theFavorite. cbn [favoriteObjects]. by rewrite lookup_total_insert_eq.
  - done.
  - unfold parentNamed, theFavorite. subst s1. cbn [favoriteObjects].
    by rewrite lookup_total_insert_eq.
Qed.

Lemma favoriteActiveFileToGroup_wellFormed node w :
  wellFormed (store w) -> nextUuidFresh host w ->
  wellFormed (store (exec (favoriteActiveFileToGroup host fileName node) w)).
Proof.
  intros Hwf Hfresh. unfold favoriteActiveFileToGroup.
  destruct (truthy (selectedElementPath host node)); cbn [negb]; [|done].
  rewrite exec_bind. change (exec storeGroups w) with w.
  case_bool_decide; [done|].
  rewrite exec_bind.
  destruct (showQuickPick_run host (AGroup <$> result storeGroups w) w) as (-> & _ & Hres).
  destruct (result (showQuickPick host _) w) as [x|] eqn:Hpick; [|done].
  apply showQuickPick_result in Hpick.
  apply list_elem_of_fmap in Hpick as (g & -> & Hg). cbn [mbind option_bind groupRef].
  apply groups_elem in Hg.
  rewrite exec_bind.
  change (result (showInputBox host ?p ?v) w) with (inputBox host p v).
  change (exec (showInputBox host ?p ?v) w) with w.
  destruct (inputBox host _ _) as [l|] eqn:Hl; [|done].
  destruct (truthy (Some l)) eqn:Ht; cbn [negb]; [|done].
  set (p := orEmpty (selectedElementPath host node)).
  set (r := fresh (dom (favoriteObjects (store w)))).
  change (wellFormed (withChild g r (store (exec (loadFavorite host (l, p)) w)))).
  destruct (loadFavorite_run host (l, p) w) as (_ & _ & ->). fold r.
  pose proof (fresh_lookup (favoriteObjects (store w))) as Hr. fold r in Hr.
  apply wellFormed_adopts.
  - by apply wellFormed_allocFavorite.
  - exact Hg.
  - cbn. by rewrite lookup_insert_eq.
  - rewrite (uuids_allocFavorite (store w) r _ Hr Hwf).
    unfold uuidOf, theFavorite. cbn [favoriteObjects]. by rewrite lookup_total_insert_eq.
Qed.

Lemma createGroup_wellFormed w :
  wellFormed (store w) -> nextUuidFresh host w ->
  wellFormed (store (exec (createGroup host) w)).
Proof.
  intros Hwf Hfresh. unfold createGroup. rewrite exec_bind.
  change (result (showInputBox host ?p ?v) w) with (inputBox host p v).
  change (exec (showInputBox host ?p ?v) w) with w.
  destruct (inputBox host _ _) as [l|] eqn:Hl; [|done].
  destruct (truthy (Some l)) eqn:Ht; cbn [negb]; [|done].
  set (r := fresh (dom (groupObjects (store w)))).
  set (s1 := mkStore (favoriteObjects (store w))
                     (<[r := Group.mk (uuidv4 host (uuids w)) l []]> (groupObjects (store w)))
                     (_favorites (store w)) (storeFile (store w))).
  assert (store (exec (assignLabel (AGroup r) l) (exec (newGroup host) w)) = s1) as Hst.
  { subst s1 r.
    unfold exec, newGroup, allocGroup, drawUuid, assignLabel, bind, modify, gets, ret, updGroup.
    cbn [fst snd store favoriteObjects groupObjects _favorites storeFile id]. f_equal.
    by rewrite alter_insert_eq. }
  change (wellFormed (setFavorites (_favorites s1 ++ [AGroup r])
            (store (exec (assignLabel (AGroup r) (default "" (Some l)))
                         (exec (newGroup host) w))))).
  change (default "" (Some l)) with l. rewrite Hst.
  pose proof (fresh_lookup (groupObjects (store w))) as Hr. fold r in Hr.
  apply (wellFormed_appends s1 (AGroup r)).
  - by apply wellFormed_allocGroup.
  - cbn. by rewrite lookup_insert_eq.
  - subst s1. rewrite (members_allocGroup (store w) r _ Hr Hwf).
    rewrite (uuids_allocGroup (store w) r _ Hr Hwf).
    unfold uuidOf, theGroup. cbn [groupObjects]. by rewrite lookup_total_insert_eq.
  - unfold entriesOf, childrenOf, theGroup. subst s1. cbn [groupObjects].
    by rewrite lookup_total_insert_eq.
  - unfold parentNamed, childrenOf, theGroup. subst s1. cbn [groupObjects].
    by rewrite lookup_total_insert_eq.
Qed.

Lemma renameFavorite_wellFormed bk w :
  wellFormed (store w) -> wellFormed (store (exec (renameFavorite host bk) w)).
Proof.
  intros Hwf. unfold renameFavorite. destruct bk as [bk|]; [|done].
  rewrite exec_bind. change (exec (gets id) w) with w.
  rewrite exec_bind.
  change (result (showInputBox host ?p ?v) w) with (inputBox host p v).
  change (exec (showInputBox host ?p ?v) w) with w.
  destruct (inputBox host _ _) as [l|] eqn:Hl; [|done].
  destruct (truthy (Some l)) eqn:Ht; cbn [negb]; [|done].
  change (wellFormed (store (exec (assignLabel bk l) w))).
  pose proof (wellFormed_relabel bk l (store w) Hwf) as H. by destruct bk.
Qed.

Lemma storeDelete_wellFormed x w :
  wellFormed (store w) -> wellFormed (store (exec (storeDelete x) w)).
Proof.
  intros Hwf. unfold storeDelete. rewrite exec_bind.
  set (w1 := exec (modify (withoutEntry x)) w).
  assert (wellFormed (store w1)) as Hwf1 by (by apply wellFormed_withoutEntry).
  destruct x as [f|g]; [|exact Hwf1].
  rewrite !exec_bind. change (exec (storeGetParent f) w1) with w1.
  destruct (result (storeGetParent f) w1) as [p|]; [|exact Hwf1].
  change (wellFormed (withoutChild p f (store w1))). by apply wellFormed_withoutChild.
Qed.

Lemma removeFavorite_wellFormed x w :
  wellFormed (store w) -> wellFormed (store (exec (removeFavorite host x) w)).
Proof.
  intros Hwf. unfold removeFavorite. destruct x as [x|]; [|done].
  rewrite exec_bind. change (exec (gets id) w) with w.
  rewrite exec_bind. change (exec (showWarningMessage host ?m ?i) w) with w.
  case_bool_decide; [|done].
  rewrite exec_bind. change (exec (providerRefresh None) ?w') with w'.
  by apply storeDelete_wellFormed.
Qed.

Lemma uuidOf_withoutChild p f s x : uuidOf (withoutChild p f s) x = uuidOf s x.
Proof.
  destruct x as [c|g]; [done|].
  unfold uuidOf, theGroup, withoutChild, updGroup. cbn [groupObjects].
  rewrite lookup_total_alter. case_decide; [subst|done].
  rewrite !lookup_total_alt. by destruct (groupObjects s !! g).
Qed.

Lemma moveFavorite_wellFormed f w :
  wellFormed (store w) -> AFavorite f ∈ members (store w) ->
  wellFormed (store (exec (moveFavorite host (Some f)) w)).
Proof.
  intros Hwf Hf. set (s := store w).
  pose proof Hwf as (HL & Hnd & _). rewrite Forall_forall in HL.
  assert (live s (AFavorite f)) as Hlive by (by apply HL).
  destruct (result (promptGroupSelection host [result (storeGetParent f) w]) w)
    as [g|] eqn:Hpick.
  2:{ unfold moveFavorite. rewrite exec_bind. change (exec (storeGetParent f) w) with w.
      rewrite exec_bind. change (exec (promptGroupSelection host ?e) w) with w.
      by rewrite Hpick. }
  apply member_inv in Hf as [Htop|(A & c & [= <-] & HA & Hc)].
  - pose proof (getParent_top w f Hwf Htop) as Hparent.
    rewrite Hparent in Hpick.
    set (s1 := withoutEntry (AFavorite f) s).
    assert (store (exec (moveFavorite host (Some f)) w)
            = writtenBack (withChild g f (writtenBack s1))) as ->.
    { unfold moveFavorite.
      rewrite exec_bind. change (exec (storeGetParent f) w) with w.
      rewrite Hparent, exec_bind.
      change (exec (promptGroupSelection host [None]) w) with w.
      rewrite Hpick. unfold storeDelete.
      rewrite !exec_bind.
      rewrite (getParent_none (exec (modify (withoutEntry (AFavorite f))) w)).
      2:{ change (Favorite.parent (theFavorite (store w) f) = None). by apply parent_top. }
      done. }
    apply promptGroupSelection_result in Hpick as [Hg _].
    apply wellFormed_writtenBack.
    change (withChild g f (writtenBack s1)) with (setStoreFile (storeFile (writtenBack s1))
                                                    (withChild g f s1)).
    change (wellFormed (withChild g f s1)).
    apply wellFormed_adopts.
    + by apply wellFormed_withoutEntry.
    + apply list_elem_of_filter. split; [|done].
      apply distinct_uuid; auto using members_top.
    + exact Hlive.
    + change (uuidOf s1) with (uuidOf s).
      intros (x & Hu & Hx)%list_elem_of_fmap.
      apply member_inv in Hx as [Hx|(q & c & -> & Hq & Hc)].
      * apply list_elem_of_filter in Hx as [Hne _]. by apply Hne.
      * apply list_elem_of_filter in Hq as [_ Hq].
        change (childrenOf s1 q) with (childrenOf s q) in Hc.
        assert (AFavorite c = AFavorite f) as [= ->].
        { eapply (NoDup_fmap_inj (uuidOf s)); eauto using members_top, members_child. }
        by eapply top_level_not_child.
  - pose proof (getParent_child w A f Hwf HA Hc) as Hparent.
    rewrite Hparent in Hpick.
    set (s1 := withoutChild A f s).
    assert (store (exec (moveFavorite host (Some f)) w)
            = writtenBack (withChild g f s1)) as ->.
    { unfold moveFavorite.
      rewrite exec_bind. change (exec (storeGetParent f) w) with w.
      rewrite Hparent, exec_bind.
      change (exec (promptGroupSelection host [Some A]) w) with w.
      by rewrite Hpick. }
    apply promptGroupSelection_result in Hpick as [Hg Hex].
    apply wellFormed_writtenBack. apply wellFormed_adopts.
    + by apply wellFormed_withoutChild.
    + exact Hg.
    + exact Hlive.
    + subst s1. rewrite (fmap_ext_in (uuidOf (withoutChild A f s)) (uuidOf s))
        by (intros; apply uuidOf_withoutChild).
      rewrite uuidOf_withoutChild.
      intros (x & Hu & Hx)%list_elem_of_fmap.
      apply member_inv in Hx as [Hx|(q & c & -> & Hq & Hc')].
      * change (_favorites (withoutChild A f s)) with (_favorites s) in Hx.
        assert (x = AFavorite f) as ->.
        { eapply (NoDup_fmap_inj (uuidOf s)); eauto using members_top, members_child. }
        by eapply (top_level_not_child s A f).
      * change (_favorites (withoutChild A f s)) with (_favorites s) in Hq.
        rewrite childrenOf_withoutChild in Hc'.
        case_decide as HAq.
        -- apply list_elem_of_filter in Hc' as [Hne _]. by apply Hne.
        -- assert (AFavorite c = AFavorite f) as [= ->].
           { eapply (NoDup_fmap_inj (uuidOf s)); eauto using members_top, members_child. }
           apply HAq. by eapply child_of_one_group.
Qed.

(** X9. The invariants of the data model are kept. In a store that satisfies
    them, and with a generator whose next identifier is not in the store,
    every command other than reload leaves a store that satisfies them,
    whatever the user answers; the move command is given an entry of the
    store. *)
Theorem commands_keep_invariants cmp storeUri c w :
  c ≠ ReloadFavorites -> wellFormed (store w) -> nextUuidFresh host w ->
  selects c (store w) ->
  wellFormed (store (exec (handler host fileName cmp storeUri c) w)).
Proof.
  intros Hc Hwf Hfresh Hsel. destruct c; cbn [handler].
  - by apply favoriteActiveFile_wellFormed.
  - by apply favoriteActiveFileToGroup_wellFormed.
  - done.
  - done.
  - eapply wellFormed_described; [apply openFavorite_run|done].
  - by apply createGroup_wellFormed.
  - by rewrite exec_openGroup.
  - by apply removeFavorite_wellFormed.
  - by apply renameFavorite_wellFormed.
  - destruct favorite as [f|]; [|done]. by apply moveFavorite_wellFormed.
  - done.
Qed.

End Invariant.

Lemma commands_keep_invariants_witness :
  wellFormed (store (exec (handler (user None None (Some 0) None) wholePath String.leb
                             "favorites.json" (MoveFavorite (Some 1))) exampleWorld)).
Proof.
  apply (commands_keep_invariants (user None None (Some 0) None) wholePath String.leb
           "favorites.json" (MoveFavorite (Some 1)) exampleWorld);
    first [discriminate | by_computation].
Defined.

(** ** Adding a favorite or a group *)

Lemma truthy_path p : p ≠ "" -> truthy (Some p) = true.
Proof. intros H. cbn. apply negb_true_iff, String.eqb_neq, H. Qed.

Lemma orEmpty_Some p : p ≠ "" -> orEmpty (Some p) = p.
Proof. intros H. unfold orEmpty. by rewrite truthy_path. Qed.

Lemma objectOf_insert_favorite s r f x :
  x ≠ AFavorite r ->
  objectOf (mkStore (<[r := f]> (favoriteObjects s)) (groupObjects s)
                    (_favorites s) (storeFile s)) x = objectOf s x.
Proof.
  intros Hne. destruct x as [r'|r']; cbn; [|done].
  rewrite lookup_insert_ne; [done|congruence].
Qed.

Lemma favoriteActiveFile_run host fileName node w p l :
  selectedElementPath host node = Some p -> p ≠ "" ->
  inputBox host "Label" (fileName p) = Some l -> l ≠ "" ->
  let h := favoriteActiveFile host fileName node in
  let s := store w in
  let s' := store (exec h w) in
  ∃ r,
    objectOf s (AFavorite r) = None ∧
    objectOf s' (AFavorite r)
      = Some (inl (Favorite.mk (uuidv4 host (uuids w)) l p None None)) ∧
    _favorites s' = _favorites s ++ [AFavorite r] ∧
    (∀ x, x ≠ AFavorite r -> objectOf s' x = objectOf s x) ∧
    storeFile s' = Parsed (encode (entities s')) ∧
    emitted h w = [ShowInputBox "Label" (fileName p) (Some l); ProviderRefresh None;
                   ProviderRefresh None; TreeViewReveal (AFavorite r)].
Proof.
  intros Hp Hpne Hl Hlne h s s'.
  destruct (loadFavorite_run host (l, p) w) as (Hr & _ & Hst).
  set (r := fresh (dom (favoriteObjects (store w)))) in *.
  exists r.
  assert (s' = writtenBack (setFavorites (_favorites s ++ [AFavorite r])
                              (store (exec (loadFavorite host (l, p)) w)))) as Hs'.
  { subst s' h. unfold favoriteActiveFile. rewrite Hp, (truthy_path p Hpne). cbn [negb from_option id].
    rewrite exec_bind.
    change (result (showInputBox host ?a ?b) w) with (inputBox host a b).
    rewrite Hl, (truthy_Some l Hlne), (orEmpty_Some p Hpne). reflexivity. }
  assert (emitted h w = [ShowInputBox "Label" (fileName p) (Some l); ProviderRefresh None;
                         ProviderRefresh None; TreeViewReveal (AFavorite r)]) as Hem.
  { subst h. unfold favoriteActiveFile. rewrite Hp, (truthy_path p Hpne). cbn [negb from_option id].
    rewrite emitted_bind, emitted_showInputBox.
    change (result (showInputBox host ?a ?b) w) with (inputBox host a b).
    rewrite Hl, (truthy_Some l Hlne). cbn [negb from_option id].
    rewrite emitted_bind, emitted_newFavorite.
    change (result (newFavorite host) ?w') with (fresh (dom (favoriteObjects (store w')))).
    autorewrite with emitted. reflexivity. }
  rewrite Hs', Hst. cbn [writtenBack setStoreFile setFavorites _favorites storeFile
                        favoriteObjects groupObjects objectOf].
  split; [subst r s; by rewrite fresh_lookup|]. split; [by rewrite lookup_insert_eq|].
  split; [done|]. split; [|split; [done|exact Hem]].
  intros x Hx. by apply (objectOf_insert_favorite s r).
Qed.

(** X1. Adding the current file. With a path selected and a non-empty
    label given, the handler creates one favorite, with the identifier
    that the generator yields next, the label given and the path
    selected, and no parent; it is appended to the list of the store, no
    other object changes, and the store is written back. The input box
    proposes the file name; the tree is refreshed and the new favorite
    revealed. When the store satisfies the invariants of the data model
    and the identifier is not one of the store, the store satisfies them
    afterwards: the identifier of the new favorite is unique. *)
Theorem favoriteActiveFile_adds host fileName node w p l :
  selectedElementPath host node = Some p -> p ≠ "" ->
  inputBox host "Label" (fileName p) = Some l -> l ≠ "" ->
  let h := favoriteActiveFile host fileName node in
  let s := store w in
  let s' := store (exec h w) in
  ∃ r,
    objectOf s (AFavorite r) = None ∧
    objectOf s' (AFavorite r)
      = Some (inl (Favorite.mk (uuidv4 host (uuids w)) l p None None)) ∧
    _favorites s' = _favorites s ++ [AFavorite r] ∧
    (∀ x, x ≠ AFavorite r -> objectOf s' x = objectOf s x) ∧
    storeFile s' = Parsed (encode (entities s')) ∧
    emitted h w = [ShowInputBox "Label" (fileName p) (Some l); ProviderRefresh None;
                   ProviderRefresh None; TreeViewReveal (AFavorite r)] ∧
    (wellFormed s -> nextUuidFresh host w -> wellFormed s').
Proof.
  intros Hp Hpne Hl Hlne h s s'.
  destruct (favoriteActiveFile_run host fileName node w p l Hp Hpne Hl Hlne)
    as (r & H1 & H2 & H3 & H4 & H5 & H6).
  exists r. split; [exact H1|]. split; [exact H2|]. split; [exact H3|].
  split; [exact H4|]. split; [exact H5|]. split; [exact H6|].
  intros Hwf Hfresh. by apply favoriteActiveFile_wellFormed.
Qed.

(** X2. Adding the current file to a group. With a path selected, a
    group picked in the quick pick of the groups of the store and a
    non-empty label given, the handler creates one favorite whose parent
    reference names the group picked, and appends it to the children of
    that group; the list of the store and every other object stay as
    they were, and the store is written back. The tree is refreshed at
    the group and the new favorite revealed. *)
Theorem favoriteActiveFileToGroup_adds host fileName node w p l i g og :
  selectedElementPath host node = Some p -> p ≠ "" ->
  let s := store w in
  let groups := result storeGroups w in
  let shown := quickPickItem s <$> (AGroup <$> groups) in
  answerOf host shown = Some i -> groups !! i = Some g ->
  groupObjects s !! g = Some og ->
  inputBox host "Label" (fileName p) = Some l -> l ≠ "" ->
  let h := favoriteActiveFileToGroup host fileName node in
  let s' := store (exec h w) in
  ∃ r,
    objectOf s (AFavorite r) = None ∧
    objectOf s' (AFavorite r)
      = Some (inl (Favorite.mk (uuidv4 host (uuids w)) l p (Some (Group.uuid og)) None)) ∧
    objectOf s' (AGroup g)
      = Some (inr (Group.mk (Group.uuid og) (Group.label og) (Group.children og ++ [r]))) ∧
    _favorites s' = _favorites s ∧
    (∀ x, x ≠ AFavorite r -> x ≠ AGroup g -> objectOf s' x = objectOf s x) ∧
    storeFile s' = Parsed (encode (entities s')) ∧
    emitted h w = [ShowQuickPick shown (Some i); ShowInputBox "Label" (fileName p) (Some l);
                   ProviderRefresh None; ProviderRefresh (Some (AGroup g));
                   TreeViewReveal (AFavorite r)].
Proof.
  intros Hp Hpne s groups shown Hi Hg Hog Hl Hlne h s'.
  destruct (loadFavorite_run host (l, p) w) as (Hr & _ & Hst).
  set (r := fresh (dom (favoriteObjects (store w)))) in *.
  set (w1 := exec (loadFavorite host (l, p)) w) in *.
  exists r.
  assert (length groups ≠ 0) as Hlen.
  { apply lookup_lt_Some in Hg. lia. }
  assert ((x ← (j ← answerOf host shown; (AGroup <$> groups) !! j); groupRef x) = Some g) as Hpick.
  { rewrite Hi. cbn [mbind option_bind]. rewrite list_lookup_fmap, Hg. done. }
  assert (groupObjects (store w1) !! g = Some og) as Hog1 by (by rewrite Hst).
  assert (favoriteObjects (store w1) !! r
          = Some (Favorite.mk (uuidv4 host (uuids w)) l p None None)) as Hr1
    by (rewrite Hst; apply lookup_insert_eq).
  pose proof (store_addChild g r w1 og _ Hog1 Hr1) as Hadd.
  assert (s' = writtenBack (store (exec (addChild g r) w1))) as Hs'.
  { subst s' h. unfold favoriteActiveFileToGroup.
    rewrite Hp, (truthy_path p Hpne). cbn [negb from_option id].
    rewrite exec_bind. change (exec storeGroups w) with w. fold groups.
    rewrite bool_decide_eq_false_2 by done.
    rewrite exec_bind.
    destruct (showQuickPick_run host (AGroup <$> groups) w) as (-> & _ & ->).
    cbn zeta. fold s shown. rewrite Hpick.
    rewrite exec_bind.
    change (result (showInputBox host ?a ?b) w) with (inputBox host a b).
    rewrite Hl, (truthy_Some l Hlne), (orEmpty_Some p Hpne). reflexivity. }
  assert (emitted h w = [ShowQuickPick shown (Some i);
                         ShowInputBox "Label" (fileName p) (Some l);
                         ProviderRefresh None; ProviderRefresh (Some (AGroup g));
                         TreeViewReveal (AFavorite r)]) as Hem.
  { subst h. unfold favoriteActiveFileToGroup.
    rewrite Hp, (truthy_path p Hpne). cbn [negb from_option id].
    rewrite emitted_bind. change (exec storeGroups w) with w.
    change (emitted storeGroups w) with (@nil HostCall). fold groups.
    rewrite bool_decide_eq_false_2 by done.
    rewrite emitted_bind.
    destruct (showQuickPick_run host (AGroup <$> groups) w) as (-> & -> & ->).
    cbn zeta. fold s shown. rewrite Hpick, Hi.
    rewrite emitted_bind, emitted_showInputBox.
    change (result (showInputBox host ?a ?b) w) with (inputBox host a b).
    rewrite Hl, (truthy_Some l Hlne). cbn [negb from_option id].
    rewrite emitted_bind, emitted_newFavorite.
    change (result (newFavorite host) ?w') with (fresh (dom (favoriteObjects (store w')))).
    autorewrite with emitted. reflexivity. }
  rewrite Hs', Hadd, Hst.
  cbn [writtenBack setStoreFile setFavorites _favorites storeFile
       favoriteObjects groupObjects objectOf Favorite.set_parent Group.set_children
       Favorite.uuid Favorite.label Favorite.resourcePath Favorite.description].
  rewrite insert_insert_eq.
  split; [subst r s; by rewrite fresh_lookup|]. split; [by rewrite lookup_insert_eq|].
  split; [by rewrite lookup_insert_eq|].
  split; [done|]. split; [|split; [done|exact Hem]].
  intros [r'|g'] Hx Hy; cbn.
  - rewrite lookup_insert_ne; [done|congruence].
  - rewrite lookup_insert_ne; [done|congruence].
Qed.

Lemma createGroup_run host w l :
  inputBox host "New favorite group name :" "New group" = Some l -> l ≠ "" ->
  let h := createGroup host in
  let s := store w in
  let s' := store (exec h w) in
  ∃ r,
    objectOf s (AGroup r) = None ∧
    objectOf s' (AGroup r) = Some (inr (Group.mk (uuidv4 host (uuids w)) l [])) ∧
    _favorites s' = _favorites s ++ [AGroup r] ∧
    (∀ x, x ≠ AGroup r -> objectOf s' x = objectOf s x) ∧
    storeFile s' = Parsed (encode (entities s')) ∧
    emitted h w = [ShowInputBox "New favorite group name :" "New group" (Some l);
                   ProviderRefresh None; ProviderRefresh None; TreeViewReveal (AGroup r)].
Proof.
  intros Hl Hlne h s s'.
  set (r := fresh (dom (groupObjects (store w)))).
  set (w2 := exec (assignLabel (AGroup r) l) (exec (newGroup host) w)).
  assert (store w2 = mkStore (favoriteObjects s)
                             (<[r := Group.mk (uuidv4 host (uuids w)) l []]> (groupObjects s))
                             (_favorites s) (storeFile s)) as Hst2.
  { subst w2. unfold exec, newGroup, allocGroup, drawUuid, assignLabel, bind, modify, gets, ret, updGroup.
    cbn [fst snd store favoriteObjects groupObjects _favorites storeFile id]. f_equal.
    by rewrite alter_insert_eq. }
  exists r.
  assert (s' = writtenBack (setFavorites (_favorites s ++ [AGroup r]) (store w2))) as Hs'.
  { subst s' h. unfold createGroup. rewrite exec_bind.
    change (result (showInputBox host ?a ?b) w) with (inputBox host a b).
    rewrite Hl, (truthy_Some l Hlne). reflexivity. }
  assert (emitted h w = [ShowInputBox "New favorite group name :" "New group" (Some l);
                         ProviderRefresh None; ProviderRefresh None;
                         TreeViewReveal (AGroup r)]) as Hem.
  { subst h. unfold createGroup. rewrite emitted_bind, emitted_showInputBox.
    change (result (showInputBox host ?a ?b) w) with (inputBox host a b).
    rewrite Hl, (truthy_Some l Hlne). cbn [negb from_option id].
    rewrite emitted_bind, emitted_newGroup.
    change (result (newGroup host) ?w') with (fresh (dom (groupObjects (store w')))).
    autorewrite with emitted. reflexivity. }
  rewrite Hs', Hst2.
  cbn [writtenBack setStoreFile setFavorites _favorites storeFile
       favoriteObjects groupObjects objectOf].
  split; [subst r s; by rewrite fresh_lookup|]. split; [by rewrite lookup_insert_eq|].
  split; [done|]. split; [|split; [done|exact Hem]].
  intros [r'|g'] Hx; cbn; [done|].
  rewrite lookup_insert_ne; [done|congruence].
Qed.

(** X3. Creating a group. With a non-empty name given, the handler
    creates one group with the identifier that the generator yields
    next, that name and no children, and appends it to the list of the
    store; no other object changes and the store is written back. The
    input box proposes the name New group; the tree is refreshed and the
    new group revealed. When the store satisfies the invariants of the
    data model and the identifier is not one of the store, the store
    satisfies them afterwards: the identifier of the new group is
    unique. *)
Theorem createGroup_adds host w l :
  inputBox host "New favorite group name :" "New group" = Some l -> l ≠ "" ->
  let h := createGroup host in
  let s := store w in
  let s' := store (exec h w) in
  ∃ r,
    objectOf s (AGroup r) = None ∧
    objectOf s' (AGroup r) = Some (inr (Group.mk (uuidv4 host (uuids w)) l [])) ∧
    _favorites s' = _favorites s ++ [AGroup r] ∧
    (∀ x, x ≠ AGroup r -> objectOf s' x = objectOf s x) ∧
    storeFile s' = Parsed (encode (entities s')) ∧
    emitted h w = [ShowInputBox "New favorite group name :" "New group" (Some l);
                   ProviderRefresh None; ProviderRefresh None; TreeViewReveal (AGroup r)] ∧
    (wellFormed s -> nextUuidFresh host w -> wellFormed s').
Proof.
  intros Hl Hlne h s s'.
  destruct (createGroup_run host w l Hl Hlne) as (r & H1 & H2 & H3 & H4 & H5 & H6).
  exists r. split; [exact H1|]. split; [exact H2|]. split; [exact H3|].
  split; [exact H4|]. split; [exact H5|]. split; [exact H6|].
  intros Hwf Hfresh. by apply createGroup_wellFormed.
Qed.

Lemma favoriteActiveFile_adds_witness :
  let host := user None (Some "plan") None None in
  let h := favoriteActiveFile host wholePath (Some (mkNode (Some "/notes/plan.md"))) in
  ∃ r,
    objectOf (store exampleWorld) (AFavorite r) = None ∧
    objectOf (store (exec h exampleWorld)) (AFavorite r)
      = Some (inl (Favorite.mk "uuid-0" "plan" "/notes/plan.md" None None)) ∧
    _favorites (store (exec h exampleWorld))
      = _favorites (store exampleWorld) ++ [AFavorite r] ∧
    (∀ x, x ≠ AFavorite r ->
          objectOf (store (exec h exampleWorld)) x = objectOf (store exampleWorld) x) ∧
    storeFile (store (exec h exampleWorld))
      = Parsed (encode (entities (store (exec h exampleWorld)))) ∧
    emitted h exampleWorld
      = [ShowInputBox "Label" "/notes/plan.md" (Some "plan"); ProviderRefresh None;
         ProviderRefresh None; TreeViewReveal (AFavorite r)] ∧
    (wellFormed (store exampleWorld) -> nextUuidFresh host exampleWorld ->
     wellFormed (store (exec h exampleWorld))).
Proof.
  apply (favoriteActiveFile_adds (user None (Some "plan") None None) wholePath
           (Some (mkNode (Some "/notes/plan.md"))) exampleWorld "/notes/plan.md" "plan");
    first [reflexivity | by_computation].
Defined.

Lemma favoriteActiveFileToGroup_adds_witness :
  let host := user (Some "/notes/plan.md") (Some "plan") (Some 1) None in
  let h := favoriteActiveFileToGroup host wholePath None in
  let shown := [mkItem "Work" None; mkItem "Home" None] in
  ∃ r,
    objectOf (store exampleWorld) (AFavorite r) = None ∧
    objectOf (store (exec h exampleWorld)) (AFavorite r)
      = Some (inl (Favorite.mk "uuid-0" "plan" "/notes/plan.md" (Some "g-home") None)) ∧
    objectOf (store (exec h exampleWorld)) (AGroup 1)
      = Some (inr (Group.mk "g-home" "Home" ([] ++ [r]))) ∧
    _favorites (store (exec h exampleWorld)) = _favorites (store exampleWorld) ∧
    (∀ x, x ≠ AFavorite r -> x ≠ AGroup 1 ->
          objectOf (store (exec h exampleWorld)) x = objectOf (store exampleWorld) x) ∧
    storeFile (store (exec h exampleWorld))
      = Parsed (encode (entities (store (exec h exampleWorld)))) ∧
    emitted h exampleWorld
      = [ShowQuickPick shown (Some 1); ShowInputBox "Label" "/notes/plan.md" (Some "plan");
         ProviderRefresh None; ProviderRefresh (Some (AGroup 1));
         TreeViewReveal (AFavorite r)].
Proof.
  apply (favoriteActiveFileToGroup_adds (user (Some "/notes/plan.md") (Some "plan") (Some 1) None)
           wholePath None exampleWorld "/notes/plan.md" "plan" 1 1 (Group.mk "g-home" "Home" []));
    first [reflexivity | by_computation].
Defined.

Lemma createGroup_adds_witness :
  let host := user None (Some "Reading") None None in
  let h := createGroup host in
  ∃ r,
    objectOf (store exampleWorld) (AGroup r) = None ∧
    objectOf (store (exec h exampleWorld)) (AGroup r)
      = Some (inr (Group.mk "uuid-0" "Reading" [])) ∧
    _favorites (store (exec h exampleWorld)) = _favorites (store exampleWorld) ++ [AGroup r] ∧
    (∀ x, x ≠ AGroup r ->
          objectOf (store (exec h exampleWorld)) x = objectOf (store exampleWorld) x) ∧
    storeFile (store (exec h exampleWorld))
      = Parsed (encode (entities (store (exec h exampleWorld)))) ∧
    emitted h exampleWorld
      = [ShowInputBox "New favorite group name :" "New group" (Some "Reading");
         ProviderRefresh None; ProviderRefresh None; TreeViewReveal (AGroup r)] ∧
    (wellFormed (store exampleWorld) -> nextUuidFresh host exampleWorld ->
     wellFormed (store (exec h exampleWorld))).
Proof.
  apply (createGroup_adds (user None (Some "Reading") None None) exampleWorld "Reading");
    first [reflexivity | by_computation].
Defined.

(** ** Adding and removing again *)

Lemma entities_allocFavorite s r F :
  favoriteObjects s !! r = None -> wellFormed s ->
  entities (mkStore (<[r := F]> (favoriteObjects s)) (groupObjects s)
                    (_favorites s) (storeFile s)) = entities s.
Proof.
  intros Hr (HL & _). rewrite Forall_forall in HL.
  assert (∀ c, live s (AFavorite c) -> <[r := F]> (favoriteObjects s) !! c
                                       = favoriteObjects s !! c) as Hsame.
  { intros c [o Ho]. rewrite lookup_insert_ne; [done|]. intros ->. by rewrite Hr in Ho. }
  unfold entities. cbn [_favorites]. apply list_omap_ext, Forall2_same_length_lookup.
  split; [done|]. intros i x y Hx Hy. simplify_eq.
  apply list_elem_of_lookup_2 in Hx.
  destruct x as [f|g]; cbn [entryOf favoriteObjects groupObjects].
  - rewrite Hsame; [done|]. by apply (HL (AFavorite f)), members_top.
  - destruct (groupObjects s !! g) as [o|] eqn:Ho; [|done]. cbn. do 2 f_equal.
    apply list_omap_ext, Forall2_same_length_lookup.
    split; [done|]. intros j c c' Hc Hc'. simplify_eq.
    unfold childEntry. cbn [favoriteObjects]. rewrite Hsame; [done|].
    apply (HL (AFavorite c)). eapply (members_child s g); [done|].
    unfold childrenOf, theGroup. rewrite lookup_total_alt, Ho.
    by eapply list_elem_of_lookup_2.
Qed.

Lemma filter_keeps {A} (P : A -> Prop) `{!∀ x, Decision (P x)} (l : list A) :
  (∀ x, x ∈ l -> P x) -> filter P l = l.
Proof.
  induction l as [|x l IH]; intros Hall; [done|].
  rewrite filter_cons_True by (apply Hall; left). f_equal.
  apply IH. intros y Hy. apply Hall. by right.
Qed.

(** X11. A favorite that was added and is removed again leaves the store as
    it was: the list of the store and its entity list are those from
    before the favorite was added, and the document holds that entity
    list. *)
Theorem add_then_remove host fileName node w p l :
  wellFormed (store w) -> nextUuidFresh host w ->
  selectedElementPath host node = Some p -> p ≠ "" ->
  inputBox host "Label" (fileName p) = Some l -> l ≠ "" ->
  warningMessage host ("Remove '" +:+ l +:+ "' from your favorites ?") ["Yes"; "No"]
    = Some "Yes" ->
  let w1 := exec (favoriteActiveFile host fileName node) w in
  let fav := fresh (dom (favoriteObjects (store w))) in
  let w2 := exec (removeFavorite host (Some (AFavorite fav))) w1 in
  AFavorite fav ∈ _favorites (store w1) ∧
  _favorites (store w2) = _favorites (store w) ∧
  entities (store w2) = entities (store w) ∧
  storeFile (store w2) = Parsed (encode (entities (store w))).
Proof.
  intros Hwf Hfresh Hp Hpne Hl Hlne Hyes w1 r w2.
  pose proof (fresh_lookup (favoriteObjects (store w))) as Hr. fold r in Hr.
  set (F := Favorite.mk (uuidv4 host (uuids w)) l p None None).
  set (s0 := mkStore (<[r := F]> (favoriteObjects (store w))) (groupObjects (store w))
                     (_favorites (store w)) (storeFile (store w))).
  assert (store w1 = writtenBack (setFavorites (_favorites (store w) ++ [AFavorite r]) s0))
    as Hs1.
  { subst w1. unfold favoriteActiveFile.
    rewrite Hp, (truthy_path p Hpne). cbn [negb from_option id].
    rewrite exec_bind.
    change (result (showInputBox host ?a ?b) w) with (inputBox host a b).
    rewrite Hl, (truthy_Some l Hlne), (orEmpty_Some p Hpne).
    destruct (loadFavorite_run host (l, p) w) as (_ & _ & Hst).
    change (store (exec (showInputBox host "Label" (fileName p)) w)) with (store w).
    transitivity (writtenBack (setFavorites (_favorites (store w) ++ [AFavorite r])
                                 (store (exec (loadFavorite host (l, p)) w))));
      [reflexivity|]. by rewrite Hst. }
  assert (theFavorite (store w1) r = F) as HF.
  { rewrite Hs1. unfold theFavorite. cbn [favoriteObjects writtenBack setStoreFile setFavorites s0].
    by rewrite lookup_total_insert_eq. }
  assert (store w2 = store (exec (storeDelete (AFavorite r)) w1)) as Hs2.
  { apply exec_removeFavorite_yes. cbn [removeMessage labelOf]. by rewrite HF. }
  assert (filter (fun y => uuidOf (store w1) y ≠ uuidOf (store w1) (AFavorite r))
                 (_favorites (store w1)) = _favorites (store w)) as Hfilter.
  { rewrite Hs1. cbn [_favorites writtenBack setStoreFile setFavorites].
    change (uuidOf (writtenBack (setFavorites ?k s0))) with (uuidOf s0).
    assert (uuidOf s0 (AFavorite r) = uuidv4 host (uuids w)) as ->.
    { unfold uuidOf, theFavorite. cbn [favoriteObjects s0]. by rewrite lookup_total_insert_eq. }
    rewrite filter_app, filter_cons_False, filter_nil.
    2:{ intros H. apply H. unfold uuidOf, theFavorite. cbn [favoriteObjects s0].
        by rewrite lookup_total_insert_eq. }
    rewrite app_nil_r. apply filter_keeps. intros x Hx Heq. apply Hfresh.
    rewrite <- Heq, <- (uuids_allocFavorite (store w) r F Hr Hwf).
    apply list_elem_of_fmap_2. by apply members_top. }
  assert (store w2 = writtenBack (setFavorites (_favorites (store w)) s0)) as Hst2.
  { rewrite Hs2. unfold storeDelete. rewrite !exec_bind.
    set (w1' := exec (modify (withoutEntry (AFavorite r))) w1).
    rewrite (getParent_none w1').
    2:{ change (Favorite.parent (theFavorite (store w1) r) = None). by rewrite HF. }
    transitivity (writtenBack (withoutEntry (AFavorite r) (store w1))); [reflexivity|].
    unfold withoutEntry. rewrite Hfilter, Hs1. reflexivity. }
  split; [rewrite Hs1; cbn [_favorites writtenBack setStoreFile setFavorites];
          apply elem_of_app; right; left|].
  rewrite Hst2. split; [reflexivity|].
  pose proof (entities_allocFavorite (store w) r F Hr Hwf) as He.
  split; [exact He|].
  cbn [storeFile writtenBack setStoreFile]. do 2 f_equal. exact He.
Qed.

Lemma add_then_remove_witness :
  let host := user None (Some "plan") None (Some "Yes") in
  let node := Some (mkNode (Some "/notes/plan.md")) in
  let w1 := exec (favoriteActiveFile host wholePath node) exampleWorld in
  let fav := fresh (dom (favoriteObjects (store exampleWorld))) in
  let w2 := exec (removeFavorite host (Some (AFavorite fav))) w1 in
  AFavorite fav ∈ _favorites (store w1) ∧
  _favorites (store w2) = _favorites (store exampleWorld) ∧
  entities (store w2) = entities (store exampleWorld) ∧
  storeFile (store w2) = Parsed (encode (entities (store exampleWorld))).
Proof.
  apply (add_then_remove (user None (Some "plan") None (Some "Yes")) wholePath
           (Some (mkNode (Some "/notes/plan.md"))) exampleWorld "/notes/plan.md" "plan");
    first [reflexivity | by_computation].
Defined.

(** ** Saving the document *)

(** X12. Saving a document other than the store file does nothing. Saving the
    store file reloads it: when the document is well formed, no error is
    shown, the tree is refreshed once, the entity list in memory is the
    list of the records of the document, and the document is kept. *)
Theorem saved_document_is_reloaded host storeUri path w es :
  decode (storeFile (store w)) = Some es ->
  let h := onDidSaveTextDocument host storeUri path in
  let s' := store (exec h w) in
  if decide (path = storeUri)
  then emitted h w = [ProviderRefresh None] ∧ entities s' = es ∧
       storeFile s' = storeFile (store w)
  else exec h w = w ∧ emitted h w = [].
Proof.
  intros Hdoc h s'. subst s' h. unfold onDidSaveTextDocument.
  destruct (String.eqb_spec path storeUri) as [->|Hne].
  - rewrite decide_True by done.
    destruct (storeRefresh_run host w es Hdoc) as (Hres & Hem & Hst).
    destruct (loadEntries_run host es w) as (_ & (_ & _ & _ & Hfile) & Hrec & _).
    unfold reloadFavorites. rewrite exec_bind, emitted_bind, Hres, Hem.
    change (exec (ret ()) ?w') with w'. rewrite Hst.
    split; [done|]. split; [|exact Hfile].
    by apply entities_loaded.
  - by rewrite decide_False.
Qed.

Lemma saved_document_is_reloaded_witness :
  let h := onDidSaveTextDocument nobody "favorites.json" "favorites.json" in
  let s' := store (exec h exampleWorld) in
  if decide ("favorites.json" = "favorites.json")
  then emitted h exampleWorld = [ProviderRefresh None] ∧
       entities s' = entities exampleStore ∧
       storeFile s' = storeFile (store exampleWorld)
  else exec h exampleWorld = exampleWorld ∧ emitted h exampleWorld = [].
Proof.
  apply (saved_document_is_reloaded nobody "favorites.json" "favorites.json" exampleWorld
           (entities exampleStore)).
  apply decode_encode.
Defined.

(** ** What no command touches *)

Section Kept.
Context (x : Bookmarkable) (o : Favorite.t + Group.t).

Lemma kept_updFavorite f r t :
  (∀ a, identityOf (inl (f a)) = identityOf (inl a)) ->
  kept x o t -> kept x o (updFavorite f r t).
Proof.
  intros Hf (o' & Ho & Hid). destruct x as [c|g]; [|by exists o'].
  cbn in Ho. destruct (favoriteObjects t !! c) as [a|] eqn:Ha; [|done].
  injection Ho as <-. unfold kept, updFavorite. cbn [objectOf favoriteObjects].
  rewrite lookup_alter. case_decide; [subst r|]; rewrite Ha.
  - exists (inl (f a)). split; [done|]. by rewrite Hf.
  - by exists (inl a).
Qed.

Lemma kept_updGroup f r t :
  (∀ a, identityOf (inr (f a)) = identityOf (inr a)) ->
  kept x o t -> kept x o (updGroup f r t).
Proof.
  intros Hf (o' & Ho & Hid). destruct x as [c|g]; [by exists o'|].
  cbn in Ho. destruct (groupObjects t !! g) as [a|] eqn:Ha; [|done].
  injection Ho as <-. unfold kept, updGroup. cbn [objectOf groupObjects].
  rewrite lookup_alter. case_decide; [subst r|]; rewrite Ha.
  - exists (inr (f a)). split; [done|]. by rewrite Hf.
  - by exists (inr a).
Qed.

Lemma kept_relabel bk l t :
  x ≠ bk -> kept x o t ->
  kept x o (match bk with
            | AFavorite r => updFavorite (Favorite.set_label l) r t
            | AGroup r => updGroup (Group.set_label l) r t
            end).
Proof.
  intros Hne (o' & Ho & Hid). exists o'. split; [|done]. rewrite <- Ho.
  destruct bk as [r|r], x as [c|g]; try done; cbn;
    rewrite lookup_alter_ne; congruence.
Qed.

Lemma kept_withChild g f t : kept x o t -> kept x o (withChild g f t).
Proof.
  intros H. unfold withChild. apply kept_updGroup; [done|]. by apply kept_updFavorite.
Qed.

Lemma kept_withoutChild g f t : kept x o t -> kept x o (withoutChild g f t).
Proof. intros H. unfold withoutChild. by apply kept_updGroup. Qed.

Lemma kept_grows t t' : grows t t' -> kept x o t -> kept x o t'.
Proof.
  intros (HF & HG & _) (o' & Ho & Hid). exists o'. split; [|done].
  destruct x as [c|g]; cbn in *.
  - destruct (favoriteObjects t !! c) as [a|] eqn:Ha; [|done].
    by rewrite (lookup_weaken _ _ _ _ Ha HF).
  - destruct (groupObjects t !! g) as [a|] eqn:Ha; [|done].
    by rewrite (lookup_weaken _ _ _ _ Ha HG).
Qed.

Lemma kept_described t t' :
  withoutDescriptions t' = withoutDescriptions t -> kept x o t -> kept x o t'.
Proof.
  intros Heq (o' & Ho & Hid). unfold kept. destruct x as [c|g]; cbn in *.
  - pose proof (f_equal (fun u => favoriteObjects u !! c) Heq) as H.
    cbn in H. rewrite !lookup_fmap in H.
    destruct (favoriteObjects t !! c) as [a|]; [|done]. injection Ho as <-.
    destruct (favoriteObjects t' !! c) as [a'|]; [|done].
    exists (inl a'). split; [done|]. rewrite <- Hid.
    destruct a, a'. by simplify_eq/=.
  - pose proof (f_equal groupObjects Heq) as H. cbn in H. rewrite H. by exists o'.
Qed.

Context (host : Host) (fileName : string -> string).

Lemma kept_loadFavorite c w :
  kept x o (store w) -> kept x o (store (exec (loadFavorite host c) w)).
Proof.
  apply kept_grows. destruct (loadFavorite_run host c w) as (_ & _ & ->).
  repeat split; try done. apply insert_subseteq, fresh_lookup.
Qed.

Lemma kept_store s' t : s' = writtenBack t -> kept x o t -> kept x o s'.
Proof. intros -> H. exact H. Qed.

Lemma kept_setFavorites l t : kept x o t -> kept x o (setFavorites l t).
Proof. intros H. exact H. Qed.

Lemma favoriteActiveFile_kept node w :
  kept x o (store w) -> kept x o (store (exec (favoriteActiveFile host fileName node) w)).
Proof.
  intros Hk. unfold favoriteActiveFile.
  destruct (truthy (selectedElementPath host node)); cbn [negb]; [|exact Hk].
  rewrite exec_bind.
  change (result (showInputBox host ?p ?v) w) with (inputBox host p v).
  change (exec (showInputBox host ?p ?v) w) with w.
  destruct (inputBox host _ _) as [l|] eqn:Hl; [|exact Hk].
  destruct (truthy (Some l)) eqn:Ht; cbn [negb]; [|exact Hk].
  set (p := orEmpty (selectedElementPath host node)).
  apply (kept_store _
    (setFavorites (_favorites (store w) ++ [AFavorite (result (newFavorite host) w)])
                  (store (exec (loadFavorite host (l, p)) w)))); [reflexivity|].
  by apply kept_setFavorites, kept_loadFavorite.
Qed.

Lemma favoriteActiveFileToGroup_kept node w :
  kept x o (store w) ->
  kept x o (store (exec (favoriteActiveFileToGroup host fileName node) w)).
Proof.
  intros Hk. unfold favoriteActiveFileToGroup.
  destruct (truthy (selectedElementPath host node)); cbn [negb]; [|exact Hk].
  rewrite exec_bind. change (exec storeGroups w) with w.
  case_bool_decide; [exact Hk|].
  rewrite exec_bind.
  destruct (showQuickPick_run host (AGroup <$> result storeGroups w) w) as (-> & _ & ->).
  cbn zeta. destruct (answerOf host _) as [i|]; [|exact Hk].
  cbn [mbind option_bind].
  destruct (_ !! i) as [y|]; [|exact Hk]. cbn [mbind option_bind].
  destruct (groupRef y) as [g|]; [|exact Hk].
  rewrite exec_bind.
  change (result (showInputBox host ?p ?v) w) with (inputBox host p v).
  change (exec (showInputBox host ?p ?v) w) with w.
  destruct (inputBox host _ _) as [l|] eqn:Hl; [|exact Hk].
  destruct (truthy (Some l)) eqn:Ht; cbn [negb]; [|exact Hk].
  set (p := orEmpty (selectedElementPath host node)).
  apply (kept_store _
    (withChild g (result (newFavorite host) w) (store (exec (loadFavorite host (l, p)) w))));
    [reflexivity|].
  by apply kept_withChild, kept_loadFavorite.
Qed.

Lemma createGroup_kept w :
  kept x o (store w) -> kept x o (store (exec (createGroup host) w)).
Proof.
  intros Hk. unfold createGroup. rewrite exec_bind.
  change (result (showInputBox host ?p ?v) w) with (inputBox host p v).
  change (exec (showInputBox host ?p ?v) w) with w.
  destruct (inputBox host _ _) as [l|] eqn:Hl; [|exact Hk].
  destruct (truthy (Some l)) eqn:Ht; cbn [negb]; [|exact Hk].
  apply (kept_store _
    (setFavorites (_favorites (store w) ++ [AGroup (result (newGroup host) w)])
       (store (exec (assignLabel (AGroup (result (newGroup host) w)) l)
                    (exec (newGroup host) w))))); [reflexivity|].
  apply kept_setFavorites. revert Hk. apply kept_grows.
  unfold exec, newGroup, allocGroup, drawUuid, assignLabel, bind, modify, gets, ret,
    updGroup, result.
  cbn [fst snd store favoriteObjects groupObjects _favorites storeFile id].
  rewrite alter_insert_eq. repeat split; try done. apply insert_subseteq, fresh_lookup.
Qed.

Lemma renameFavorite_kept bk w :
  Some x ≠ bk ->
  kept x o (store w) -> kept x o (store (exec (renameFavorite host bk) w)).
Proof.
  intros Hne Hk. unfold renameFavorite. destruct bk as [bk|]; [|exact Hk].
  rewrite exec_bind. change (exec (gets id) w) with w.
  rewrite exec_bind.
  change (result (showInputBox host ?p ?v) w) with (inputBox host p v).
  change (exec (showInputBox host ?p ?v) w) with w.
  destruct (inputBox host _ _) as [l|] eqn:Hl; [|exact Hk].
  destruct (truthy (Some l)) eqn:Ht; cbn [negb]; [|exact Hk].
  apply (kept_store _ (store (exec (assignLabel bk l) w))); [reflexivity|].
  assert (x ≠ bk) as Hne' by congruence.
  pose proof (kept_relabel bk l (store w) Hne' Hk) as H. by destruct bk.
Qed.

Lemma storeDelete_kept y w :
  kept x o (store w) -> kept x o (store (exec (storeDelete y) w)).
Proof.
  intros Hk. unfold storeDelete. rewrite exec_bind.
  set (w1 := exec (modify (withoutEntry y)) w).
  assert (kept x o (store w1)) as Hk1 by exact Hk.
  destruct y as [f|g].
  - rewrite !exec_bind. change (exec (storeGetParent f) w1) with w1.
    destruct (result (storeGetParent f) w1) as [p|].
    + apply (kept_store _ (withoutChild p f (store w1))); [reflexivity|].
      by apply kept_withoutChild.
    + by apply (kept_store _ (store w1)).
  - by apply (kept_store _ (store w1)).
Qed.

Lemma removeFavorite_kept y w :
  kept x o (store w) -> kept x o (store (exec (removeFavorite host y) w)).
Proof.
  intros Hk. unfold removeFavorite. destruct y as [y|]; [|exact Hk].
  rewrite exec_bind. change (exec (gets id) w) with w.
  rewrite exec_bind. change (exec (showWarningMessage host ?m ?i) w) with w.
  case_bool_decide; [|exact Hk].
  rewrite exec_bind. change (exec (providerRefresh None) ?w') with w'.
  by apply storeDelete_kept.
Qed.

Lemma moveFavorite_kept f w :
  kept x o (store w) -> kept x o (store (exec (moveFavorite host f) w)).
Proof.
  intros Hk. unfold moveFavorite. destruct f as [f|]; [|exact Hk].
  rewrite exec_bind. change (exec (storeGetParent f) w) with w.
  rewrite exec_bind. change (exec (promptGroupSelection host ?e) w) with w.
  destruct (result (promptGroupSelection host _) w) as [g|]; [|exact Hk].
  rewrite exec_bind.
  set (w1 := exec (match result (storeGetParent f) w with
                   | Some parent => removeChild parent f
                   | None => storeDelete (AFavorite f)
                   end) w).
  assert (kept x o (store w1)) as Hk1.
  { subst w1. destruct (result (storeGetParent f) w) as [p|].
    - by apply kept_withoutChild.
    - by apply storeDelete_kept. }
  apply (kept_store _ (withChild g f (store w1))); [reflexivity|].
  by apply kept_withChild.
Qed.

Lemma reloadFavorites_kept w :
  kept x o (store w) -> kept x o (store (exec (reloadFavorites host) w)).
Proof.
  intros Hk. destruct (decode (storeFile (store w))) as [es|] eqn:Hdoc.
  - destruct (storeRefresh_run host w es Hdoc) as (Hres & _ & Hst).
    unfold reloadFavorites. rewrite exec_bind, Hres.
    change (exec (ret ()) ?w') with w'. rewrite Hst.
    destruct (loadEntries_run host es w) as (_ & Hgrows & _).
    change (kept x o (store (exec (loadEntries host es) w))).
    by eapply kept_grows.
  - by destruct (reloadFavorites_run_malformed host w Hdoc) as [-> _].
Qed.

End Kept.

(** X13. No command changes what names an entry. Whatever the command and
    the answers of the user, an object of the store is still there after
    the command, with the identifier, the label and, for a favorite, the
    path it had; the one exception is the entry given to the rename
    command. Commands change the list of the store, the children of
    groups, parent references and descriptions only. *)
Theorem commands_keep_identity host fileName cmp storeUri c w x o :
  c ≠ RenameFavorite (Some x) ->
  objectOf (store w) x = Some o ->
  ∃ o', objectOf (store (exec (handler host fileName cmp storeUri c) w)) x = Some o' ∧
        identityOf o' = identityOf o.
Proof.
  intros Hc Ho. assert (kept x o (store w)) as Hk by (by exists o).
  change (kept x o (store (exec (handler host fileName cmp storeUri c) w))).
  destruct c; cbn [handler].
  - by apply favoriteActiveFile_kept.
  - by apply favoriteActiveFileToGroup_kept.
  - done.
  - by apply reloadFavorites_kept.
  - eapply kept_described; [apply openFavorite_run|done].
  - by apply createGroup_kept.
  - by rewrite exec_openGroup.
  - by apply removeFavorite_kept.
  - apply renameFavorite_kept; [congruence|done].
  - by apply moveFavorite_kept.
  - done.
Qed.

Lemma commands_keep_identity_witness :
  let h := handler (user None None (Some 0) None) wholePath String.leb "favorites.json"
                   (MoveFavorite (Some 1)) in
  ∃ o', objectOf (store (exec h exampleWorld)) (AFavorite 1) = Some o' ∧
        identityOf o' = identityOf (inl (Favorite.mk "f-todo" "todo" "/notes/todo.txt" None None)).
Proof.
  apply (commands_keep_identity (user None None (Some 0) None) wholePath String.leb
           "favorites.json" (MoveFavorite (Some 1)) exampleWorld (AFavorite 1)
           (inl (Favorite.mk "f-todo" "todo" "/notes/todo.txt" None None)));
    [discriminate|reflexivity].
Defined.

(** ** Memory and document *)

Lemma entities_withoutDescriptions s : entities (withoutDescriptions s) = entities s.
Proof.
  assert (∀ c, childEntry (withoutDescriptions s) c = childEntry s c) as Hchild.
  { intros c. unfold childEntry, withoutDescriptions. cbn [favoriteObjects].
    rewrite lookup_fmap. by destruct (favoriteObjects s !! c) as [[]|]. }
  unfold entities. change (_favorites (withoutDescriptions s)) with (_favorites s).
  apply list_omap_ext, Forall2_same_length_lookup.
  split; [done|]. intros i x y Hx Hy. simplify_eq.
  destruct x as [f|g].
  - unfold entryOf, withoutDescriptions. cbn [favoriteObjects].
    rewrite lookup_fmap. by destruct (favoriteObjects s !! f) as [[]|].
  - unfold entryOf. change (groupObjects (withoutDescriptions s)) with (groupObjects s).
    destruct (groupObjects s !! g) as [o|]; [|done]. cbn. do 2 f_equal.
    apply list_omap_ext, Forall2_same_length_lookup.
    split; [done|]. intros j c c' Hc Hc'. simplify_eq. apply Hchild.
Qed.

Section Outcome.
Context (host : Host) (fileName : string -> string).

Lemma favoriteActiveFile_writes node w :
  writes w (exec (favoriteActiveFile host fileName node) w).
Proof.
  unfold favoriteActiveFile.
  destruct (truthy (selectedElementPath host node)); cbn [negb]; [|by left].
  rewrite exec_bind.
  change (result (showInputBox host ?p ?v) w) with (inputBox host p v).
  change (exec (showInputBox host ?p ?v) w) with w.
  destruct (inputBox host _ _) as [l|] eqn:Hl; [|by left].
  destruct (truthy (Some l)) eqn:Ht; cbn [negb]; [|by left].
  right. eexists. reflexivity.
Qed.
Lemma favoriteActiveFileToGroup_writes node w :
  writes w (exec (favoriteActiveFileToGroup host fileName node) w).
Proof.
  unfold favoriteActiveFileToGroup.
  destruct (truthy (selectedElementPath host node)); cbn [negb]; [|by left].
  rewrite exec_bind. change (exec storeGroups w) with w.
  case_bool_decide; [by left|].
  rewrite exec_bind.
  destruct (showQuickPick_run host (AGroup <$> result storeGroups w) w) as (-> & _ & ->).
  cbn zeta. destruct (answerOf host _) as [i|]; [|by left].
  cbn [mbind option_bind].
  destruct (_ !! i) as [y|]; [|by left]. cbn [mbind option_bind].
  destruct (groupRef y) as [g|]; [|by left].
  rewrite exec_bind.
  change (result (showInputBox host ?p ?v) w) with (inputBox host p v).
  change (exec (showInputBox host ?p ?v) w) with w.
  destruct (inputBox host _ _) as [l|] eqn:Hl; [|by left].
  destruct (truthy (Some l)) eqn:Ht; cbn [negb]; [|by left].
  right. eexists. reflexivity.
Qed.

Lemma createGroup_writes w : writes w (exec (createGroup host) w).
Proof.
  unfold createGroup. rewrite exec_bind.
  change (result (showInputBox host ?p ?v) w) with (inputBox host p v).
  change (exec (showInputBox host ?p ?v) w) with w.
  destruct (inputBox host _ _) as [l|] eqn:Hl; [|by left].
  destruct (truthy (Some l)) eqn:Ht; cbn [negb]; [|by left].
  right. eexists. reflexivity.
Qed.

Lemma renameFavorite_writes bk w : writes w (exec (renameFavorite host bk) w).
Proof.
  unfold renameFavorite. destruct bk as [bk|]; [|by left].
  rewrite exec_bind. change (exec (gets id) w) with w.
  rewrite exec_bind.
  change (result (showInputBox host ?p ?v) w) with (inputBox host p v).
  change (exec (showInputBox host ?p ?v) w) with w.
  destruct (inputBox host _ _) as [l|] eqn:Hl; [|by left].
  destruct (truthy (Some l)) eqn:Ht; cbn [negb]; [|by left].
  right. eexists. reflexivity.
Qed.

Lemma storeDelete_writes x w : ∃ t, store (exec (storeDelete x) w) = writtenBack t.
Proof.
  unfold storeDelete. rewrite exec_bind.
  set (w1 := exec (modify (withoutEntry x)) w).
  destruct x as [f|g]; [|by exists (store w1)].
  rewrite !exec_bind. change (exec (storeGetParent f) w1) with w1.
  destruct (result (storeGetParent f) w1) as [p|].
  - by exists (withoutChild p f (store w1)).
  - by exists (store w1).
Qed.

Lemma removeFavorite_writes x w : writes w (exec (removeFavorite host x) w).
Proof.
  unfold removeFavorite. destruct x as [x|]; [|by left].
  rewrite exec_bind. change (exec (gets id) w) with w.
  rewrite exec_bind. change (exec (showWarningMessage host ?m ?i) w) with w.
  case_bool_decide; [|by left].
  rewrite exec_bind. change (exec (providerRefresh None) ?w') with w'.
  right. apply storeDelete_writes.
Qed.

Lemma moveFavorite_writes f w : writes w (exec (moveFavorite host f) w).
Proof.
  unfold moveFavorite. destruct f as [f|]; [|by left].
  rewrite exec_bind. change (exec (storeGetParent f) w) with w.
  rewrite exec_bind. change (exec (promptGroupSelection host ?e) w) with w.
  destruct (result (promptGroupSelection host _) w) as [g|]; [|by left].
  rewrite exec_bind.
  set (w1 := exec (match result (storeGetParent f) w with
                   | Some parent => removeChild parent f
                   | None => storeDelete (AFavorite f)
                   end) w).
  right. by exists (withChild g f (store w1)).
Qed.

Lemma reloadFavorites_inStep w :
  inStep (store w) -> inStep (store (exec (reloadFavorites host) w)).
Proof.
  unfold inStep. intros Hs.
  assert (decode (storeFile (store w)) = Some (entities (store w))) as Hdoc
    by (rewrite Hs; apply decode_encode).
  destruct (storeRefresh_run host w _ Hdoc) as (Hres & _ & Hst).
  destruct (loadEntries_run host (entities (store w)) w) as (_ & (_ & _ & _ & Hfile) & Hrec & _).
  unfold reloadFavorites. rewrite exec_bind, Hres.
  change (exec (ret ()) ?w') with w'. rewrite Hst.
  change (storeFile (setFavorites ?l ?t)) with (storeFile t). rewrite Hfile, Hs.
  do 2 f_equal. symmetry. by apply entities_loaded.
Qed.

Lemma openFavorite_inStep cmp w :
  inStep (store w) -> inStep (store (exec (openFavorite host cmp) w)).
Proof.
  unfold inStep. intros Hs. pose proof (openFavorite_run host cmp w) as Hrun.
  rewrite <- (entities_withoutDescriptions (store (exec _ w))), Hrun.
  rewrite entities_withoutDescriptions, <- Hs.
  exact (f_equal storeFile Hrun).
Qed.

End Outcome.

(** X14. Memory and document stay in step. When the document holds the
    entity list of the memory, it still does after any command, whatever
    the user answers: a handler that changes the entity list writes it
    back, and reloading such a document gives the entity list again. *)
Theorem commands_keep_document_in_step host fileName cmp storeUri c w :
  inStep (store w) -> inStep (store (exec (handler host fileName cmp storeUri c) w)).
Proof.
  intros Hs.
  assert (∀ w', writes w w' -> inStep (store w')) as Hw.
  { intros w' [->|[t ->]]; [done|reflexivity]. }
  destruct c; cbn [handler].
  - apply Hw, favoriteActiveFile_writes.
  - apply Hw, favoriteActiveFileToGroup_writes.
  - exact Hs.
  - by apply reloadFavorites_inStep.
  - by apply openFavorite_inStep.
  - apply Hw, createGroup_writes.
  - by rewrite exec_openGroup.
  - apply Hw, removeFavorite_writes.
  - apply Hw, renameFavorite_writes.
  - apply Hw, moveFavorite_writes.
  - exact Hs.
Qed.

Lemma commands_keep_document_in_step_witness :
  inStep (store (exec (handler (user None None (Some 0) None) wholePath String.leb
                         "favorites.json" (MoveFavorite (Some 1))) exampleWorld)).
Proof.
  apply (commands_keep_document_in_step (user None None (Some 0) None) wholePath String.leb
           "favorites.json" (MoveFavorite (Some 1)) exampleWorld).
  reflexivity.
Defined.

(** ** The store that a reload builds *)

Lemma Forall2_fmap_eq {A B C} (f : A -> C) (g : B -> C) (l : list A) (k : list B) :
  Forall2 (fun a b => f a = g b) l k -> f <$> l = g <$> k.
Proof. induction 1; cbn; congruence. Qed.

Section Drawn.
Context (host : Host).

Lemma drawn_grows s s' x i : grows s s' -> drawn host s x i -> drawn host s' x i.
Proof.
  intros (HF & HG & _) [Hl Hu]. destruct x as [f|g]; cbn in Hl; destruct Hl as [o Ho].
  - pose proof (lookup_weaken _ _ _ _ Ho HF) as Ho'. split; [by eexists|].
    rewrite <- Hu. unfold uuidOf, theFavorite. by rewrite !lookup_total_alt, Ho, Ho'.
  - pose proof (lookup_weaken _ _ _ _ Ho HG) as Ho'. split; [by eexists|].
    rewrite <- Hu. unfold uuidOf, theGroup. by rewrite !lookup_total_alt, Ho, Ho'.
Qed.

Lemma entriesOf_grows s s' x : grows s s' -> live s x -> entriesOf s' x = entriesOf s x.
Proof.
  intros (_ & HG & _) Hl. destruct x as [f|g]; [done|]. destruct Hl as [o Ho].
  unfold entriesOf, childrenOf, theGroup.
  by rewrite !lookup_total_alt, Ho, (lookup_weaken _ _ _ _ Ho HG).
Qed.

Lemma parentNamed_grows s s' x :
  grows s s' -> Forall (live s) (entriesOf s x) -> parentNamed s x -> parentNamed s' x.
Proof.
  intros Hg Hl Hp. pose proof Hg as (HF & HG & _).
  assert (∀ c, live s (AFavorite c) -> theFavorite s' c = theFavorite s c) as Hsame.
  { intros c [o Ho]. unfold theFavorite.
    by rewrite !lookup_total_alt, Ho, (lookup_weaken _ _ _ _ Ho HF). }
  apply Forall_cons in Hl as [Hx Hl]. destruct x as [f|g]; cbn in *.
  - by rewrite Hsame.
  - destruct Hx as [o Ho].
    assert (theGroup s' g = theGroup s g) as Hgg.
    { unfold theGroup. by rewrite !lookup_total_alt, Ho, (lookup_weaken _ _ _ _ Ho HG). }
    unfold childrenOf in *. rewrite Hgg.
    rewrite Forall_fmap in Hl. rewrite Forall_forall in Hl, Hp.
    apply Forall_forall. intros c Hc. rewrite Hsame by (by apply Hl). by apply Hp.
Qed.

Lemma loadChildren_drawn g cs : ∀ w og,
  groupObjects (store w) !! g = Some og ->
  let w' := exec (loadChildren host g cs) w in
  ∃ rs,
    uuids w' = uuids w + length cs ∧
    groupObjects (store w')
      = <[g := Group.set_children (Group.children og ++ rs) og]> (groupObjects (store w)) ∧
    favoriteObjects (store w) ⊆ favoriteObjects (store w') ∧
    Forall2 (fun r i => ∃ F, favoriteObjects (store w') !! r = Some F ∧
                             Favorite.uuid F = uuidv4 host i ∧
                             Favorite.parent F = Some (Group.uuid og))
            rs (seq (uuids w) (length cs)).
Proof.
  induction cs as [|c cs IH]; intros w og Hog w'.
  - exists []. subst w'. cbn. rewrite app_nil_r, Nat.add_0_r. repeat split; try done.
    destruct og. cbn. by rewrite insert_id.
  - destruct (loadFavorite_run host c w) as (Hr & Hem & Hst).
    set (r := fresh (dom (favoriteObjects (store w)))) in *.
    set (w1 := exec (loadFavorite host c) w) in *.
    set (w2 := exec (addChild g r) w1).
    set (F := Favorite.mk (uuidv4 host (uuids w)) c.1 c.2 None None) in *.
    assert (store w2 = mkStore
              (<[r := Favorite.set_parent (Some (Group.uuid og)) F]> (favoriteObjects (store w)))
              (<[g := Group.set_children (Group.children og ++ [r]) og]> (groupObjects (store w)))
              (_favorites (store w)) (storeFile (store w))) as Hst2.
    { subst w2. rewrite (store_addChild g r w1 og F).
      - rewrite Hst. cbn [favoriteObjects groupObjects _favorites storeFile].
        by rewrite insert_insert_eq.
      - by rewrite Hst.
      - rewrite Hst. apply lookup_insert_eq. }
    assert (uuids w2 = S (uuids w)) as Hn2 by reflexivity.
    assert (w' = exec (loadChildren host g cs) w2) as Hexec
      by (subst w' w2 w1; rewrite <- Hr; reflexivity).
    assert (groupObjects (store w2) !! g
            = Some (Group.set_children (Group.children og ++ [r]) og)) as Hog2
      by (rewrite Hst2; apply lookup_insert_eq).
    destruct (IH w2 _ Hog2) as (rs & Hn & Grs & Fsub & Hrs).
    rewrite <- Hexec in Hn, Grs, Fsub, Hrs.
    exists (r :: rs). split; [rewrite Hn, Hn2; cbn; lia|]. split; [|split].
    + rewrite Grs, Hst2. cbn [groupObjects Group.set_children Group.children Group.uuid
                              Group.label].
      rewrite insert_insert_eq. by rewrite <- app_assoc.
    + etrans; [|exact Fsub]. rewrite Hst2. apply insert_subseteq, fresh_lookup.
    + cbn [length seq]. constructor; [|by rewrite Hn2 in Hrs].
      exists (Favorite.set_parent (Some (Group.uuid og)) F). split; [|done].
      eapply lookup_weaken; [|exact Fsub]. rewrite Hst2. apply lookup_insert_eq.
Qed.

Lemma loadEntry_drawn e w :
  let x := result (loadEntry host e) w in
  let w' := exec (loadEntry host e) w in
  ∃ k, uuids w' = uuids w + k ∧
       Forall2 (drawn host (store w')) (entriesOf (store w') x) (seq (uuids w) k) ∧
       parentNamed (store w') x.
Proof.
  destruct e as [l p|l cs]; intros x w'.
  - destruct (loadFavorite_run host (l, p) w) as (Hr & _ & Hst).
    assert (x = AFavorite (fresh (dom (favoriteObjects (store w))))) as -> by reflexivity.
    assert (store w' = store (exec (loadFavorite host (l, p)) w)) as Hs' by reflexivity.
    exists 1. split; [subst w'; cbn; lia|]. rewrite Hs', Hst.
    unfold entriesOf, parentNamed, theFavorite. cbn [seq favoriteObjects].
    rewrite lookup_total_insert_eq. split; [|done].
    constructor; [|constructor]. split.
    + cbn. rewrite lookup_insert_eq. by eexists.
    + unfold uuidOf, theFavorite. cbn [favoriteObjects]. by rewrite lookup_total_insert_eq.
  - set (g := fresh (dom (groupObjects (store w)))).
    set (og := Group.mk (uuidv4 host (uuids w)) l []).
    set (w1 := exec (assignLabel (AGroup g) l) (exec (newGroup host) w)).
    assert (store w1 = mkStore (favoriteObjects (store w)) (<[g := og]> (groupObjects (store w)))
                               (_favorites (store w)) (storeFile (store w))) as Hst1.
    { subst w1 g og.
      unfold exec, newGroup, allocGroup, drawUuid, assignLabel, bind, modify, gets, ret, updGroup.
      cbn [fst snd store favoriteObjects groupObjects _favorites storeFile id]. f_equal.
      by rewrite alter_insert_eq. }
    assert (uuids w1 = S (uuids w)) as Hn1 by reflexivity.
    assert (groupObjects (store w1) !! g = Some og) as Hog
      by (rewrite Hst1; apply lookup_insert_eq).
    assert (x = AGroup g) as -> by reflexivity.
    assert (w' = exec (loadChildren host g cs) w1) as -> by reflexivity.
    destruct (loadChildren_drawn g cs w1 og Hog) as (rs & Hn & Grs & Fsub & Hrs).
    set (s' := store (exec (loadChildren host g cs) w1)) in *.
    assert (groupObjects s' !! g = Some (Group.set_children rs og)) as Hg'
      by (rewrite Grs; apply lookup_insert_eq).
    assert (childrenOf s' g = rs) as Hch.
    { unfold childrenOf, theGroup. by rewrite lookup_total_alt, Hg'. }
    exists (S (length cs)). split; [rewrite Hn, Hn1; lia|].
    unfold entriesOf, parentNamed. rewrite Hch. split.
    + cbn [seq]. constructor.
      * split; [by eexists|]. unfold uuidOf, theGroup. by rewrite lookup_total_alt, Hg'.
      * apply Forall2_fmap_l. rewrite Hn1 in Hrs. eapply Forall2_impl; [exact Hrs|].
        intros r i (F & HF & Hu & _). split; [by eexists|].
        unfold uuidOf, theFavorite. by rewrite lookup_total_alt, HF.
    + unfold theGroup. rewrite lookup_total_alt, Hg'. cbn.
      eapply Forall2_Forall_l; [exact Hrs|]. apply Forall_forall.
      intros i _ r (F & HF & _ & Hp). unfold theFavorite. by rewrite lookup_total_alt, HF.
Qed.

Lemma loadEntries_drawn es : ∀ w,
  let xs := result (loadEntries host es) w in
  let w' := exec (loadEntries host es) w in
  ∃ k, uuids w' = uuids w + k ∧
       Forall2 (drawn host (store w')) (xs ≫= entriesOf (store w')) (seq (uuids w) k) ∧
       Forall (parentNamed (store w')) xs.
Proof.
  induction es as [|e es IH]; intros w xs w'.
  - exists 0. subst xs w'. cbn. rewrite Nat.add_0_r. repeat split; constructor.
  - destruct (loadEntry_drawn e w) as (k1 & Hn1 & Hd1 & Hp1).
    set (w1 := exec (loadEntry host e) w) in *.
    set (x := result (loadEntry host e) w) in *.
    destruct (IH w1) as (k2 & Hn2 & Hd2 & Hp2).
    destruct (loadEntries_run host es w1) as (_ & Hgrows & _).
    assert (xs = x :: result (loadEntries host es) w1) as -> by reflexivity.
    assert (w' = exec (loadEntries host es) w1) as -> by reflexivity.
    set (s' := store (exec (loadEntries host es) w1)) in *.
    assert (Forall (live (store w1)) (entriesOf (store w1) x)) as Hlive.
    { eapply Forall2_Forall_l; [exact Hd1|]. apply Forall_forall. by intros i _ y [Hy _]. }
    assert (live (store w1) x) as Hx by (by apply Forall_cons in Hlive as [? _]).
    exists (k1 + k2). split; [lia|]. split.
    + rewrite bind_cons, seq_app, (entriesOf_grows (store w1) s' x Hgrows Hx).
      apply Forall2_app; [|by rewrite <- Hn1].
      eapply Forall2_impl; [exact Hd1|]. intros y i. by apply drawn_grows.
    + constructor; [|done]. by apply (parentNamed_grows (store w1)).
Qed.

End Drawn.

(** X10. Reloading builds a store that satisfies the invariants of the data
    model. When the document is well formed and the identifiers that the
    generator yields during the reload are distinct, the store after the
    reload satisfies the invariants, whatever the store was before. *)
Theorem reload_gives_invariants host w es :
  decode (storeFile (store w)) = Some es ->
  let w' := exec (reloadFavorites host) w in
  NoDup (uuidv4 host <$> seq (uuids w) (uuids w' - uuids w)) ->
  wellFormed (store w').
Proof.
  intros Hdoc w'.
  destruct (storeRefresh_run host w es Hdoc) as (Hres & _ & Hst).
  assert (w' = exec (storeRefresh host) w) as Hw'.
  { subst w'. unfold reloadFavorites. rewrite exec_bind, Hres. reflexivity. }
  assert (uuids w' = uuids (exec (loadEntries host es) w)) as Hn.
  { rewrite Hw'. unfold storeRefresh, exec, bind, gets, ret. cbn [fst snd id].
    rewrite Hdoc. reflexivity. }
  destruct (loadEntries_drawn host es w) as (k & Hk & Hd & Hp).
  rewrite Hn, Hk. replace (uuids w + k - uuids w) with k by lia. intros Hnd.
  rewrite Hw', Hst.
  set (s1 := store (exec (loadEntries host es) w)) in *.
  set (xs := result (loadEntries host es) w) in *.
  split; [|split].
  - change (Forall (live s1) (xs ≫= entriesOf s1)).
    eapply Forall2_Forall_l; [exact Hd|]. apply Forall_forall. by intros i _ y [Hy _].
  - change (NoDup (uuidOf s1 <$> (xs ≫= entriesOf s1))).
    rewrite (Forall2_fmap_eq (uuidOf s1) (uuidv4 host) _ (seq (uuids w) k)); [done|].
    eapply Forall2_impl; [exact Hd|]. by intros y i [_ Hu].
  - exact Hp.
Qed.

Lemma reload_gives_invariants_witness :
  wellFormed (store (exec (reloadFavorites nobody) exampleWorld)).
Proof.
  apply (reload_gives_invariants nobody exampleWorld (entities exampleStore)).
  - apply decode_encode.
  - by_computation.
Defined.

(** ** The earlier handlers *)

(** X15. The open-group of favoriteManager.ts never changes the world. Given
    a group it opens the documents of the children of that group without
    asking, also when the group holds none; given a favorite or nothing
    it asks the user to pick among all the groups of the store and opens
    the documents of the group picked. *)
Theorem legacy_openGroup_opens host w fav :
  let h := Legacy.openGroup host fav in
  exec h w = w ∧
  match fav with
  | Some (AGroup g) => emitted h w = opens (store w) g
  | _ => promptsForGroup host w (emitted h w)
  end.
Proof.
  intros h. subst h. unfold Legacy.openGroup.
  assert (∀ g, exec (s <- gets id ;;
                     forEach (fun f => showTextDocument
                                (Favorite.resourcePath (theFavorite s f))) (childrenOf s g)) w = w
               ∧ emitted (s <- gets id ;;
                     forEach (fun f => showTextDocument
                                (Favorite.resourcePath (theFavorite s f))) (childrenOf s g)) w
                 = opens (store w) g) as Hopen.
  { intros g. rewrite exec_bind, emitted_bind.
    change (exec (gets id) w) with w. change (result (gets id) w) with (store w).
    change (emitted (gets id) w) with (@nil HostCall). cbn [app].
    apply (forEach_showTextDocument
             (fun f => Favorite.resourcePath (theFavorite (store w) f))). }
  assert (∀ sel : Task (option ref),
            sel = (groups <- storeGroups ;;
                   picked <- showQuickPick host (AGroup <$> groups) ;;
                   ret (x ← picked; groupRef x)) ->
            exec (selection <- sel ;;
                  match selection with
                  | Some g =>
                      s <- gets id ;;
                      forEach (fun f => showTextDocument
                                 (Favorite.resourcePath (theFavorite s f))) (childrenOf s g)
                  | None => ret tt
                  end) w = w ∧
            promptsForGroup host w
              (emitted (selection <- sel ;;
                  match selection with
                  | Some g =>
                      s <- gets id ;;
                      forEach (fun f => showTextDocument
                                 (Favorite.resourcePath (theFavorite s f))) (childrenOf s g)
                  | None => ret tt
                  end) w)) as Hprompt.
  { intros sel ->. rewrite exec_bind, emitted_bind.
    set (groups := result storeGroups w).
    set (shown := quickPickItem (store w) <$> (AGroup <$> groups)).
    assert (exec (groups <- storeGroups ;;
                  picked <- showQuickPick host (AGroup <$> groups) ;;
                  ret (x ← picked; groupRef x)) w = w) as -> by reflexivity.
    assert (emitted (groups <- storeGroups ;;
                     picked <- showQuickPick host (AGroup <$> groups) ;;
                     ret (x ← picked; groupRef x)) w
            = [ShowQuickPick shown (answerOf host shown)]) as -> by reflexivity.
    assert (result (groups <- storeGroups ;;
                    picked <- showQuickPick host (AGroup <$> groups) ;;
                    ret (x ← picked; groupRef x)) w
            = (i ← answerOf host shown; groups !! i)) as ->.
    { change (result (groups <- storeGroups ;;
                      picked <- showQuickPick host (AGroup <$> groups) ;;
                      ret (x ← picked; groupRef x)) w)
        with (x ← (i ← answerOf host shown; (AGroup <$> groups) !! i); groupRef x).
      destruct (answerOf host shown) as [i|]; [|done]. cbn [mbind option_bind].
      rewrite list_lookup_fmap. by destruct (groups !! i). }
    unfold promptsForGroup. fold groups. fold shown.
    destruct (i ← answerOf host shown; groups !! i) as [g|]; [|done].
    destruct (Hopen g) as [-> ->]. done. }
  destruct fav as [[f|g]|].
  - by apply Hprompt.
  - rewrite exec_bind, emitted_bind.
    change (exec (ret (Some g)) w) with w. change (result (ret (Some g)) w) with (Some g).
    change (emitted (ret (Some g)) w) with (@nil HostCall). cbn [app]. apply Hopen.
  - by apply Hprompt.
Qed.

(** X16. The open-favorite of favoriteManager.ts never changes the world: it
    offers the favorites of the store in the order of the store, each
    with the description it has, and opens the one picked. *)
Theorem legacy_openFavorite_offers host w :
  let h := Legacy.openFavorite host in
  let s := store w in
  let shown := quickPickItem s <$> (AFavorite <$> favoritesOf s) in
  exec h w = w ∧
  emitted h w
  = ShowQuickPick shown (answerOf host shown)
    :: match i ← answerOf host shown; favoritesOf s !! i with
       | Some f => [ShowTextDocument (Favorite.resourcePath (theFavorite s f))]
       | None => []
       end.
Proof.
  intros h s shown. subst h. unfold Legacy.openFavorite.
  rewrite exec_bind, emitted_bind.
  change (exec Legacy.storeFavorites w) with w.
  change (emitted Legacy.storeFavorites w) with (@nil HostCall).
  change (result Legacy.storeFavorites w) with (_favorites s).
  rewrite exec_bind, emitted_bind.
  change (exec (gets id) w) with w. change (result (gets id) w) with s.
  change (emitted (gets id) w) with (@nil HostCall). cbn [app].
  change (_favorites s ≫= Legacy.childrenOrSelf s) with (favoritesOf s).
  rewrite exec_bind, emitted_bind.
  destruct (showQuickPick_run host (AFavorite <$> favoritesOf s) w) as (-> & -> & ->).
  cbn zeta. fold s. fold shown. cbn [app].
  destruct (answerOf host shown) as [i|]; [|done]. cbn [mbind option_bind].
  rewrite list_lookup_fmap. by destruct (favoritesOf s !! i).
Qed.

(** ** Adding a favorite with the earlier handlers *)

Lemma entities_updFavorite f r t :
  (∀ a, Favorite.label (f a) = Favorite.label a ∧
        Favorite.resourcePath (f a) = Favorite.resourcePath a) ->
  entities (updFavorite f r t) = entities t.
Proof.
  intros Hf.
  assert (∀ c, childEntry (updFavorite f r t) c = childEntry t c) as Hchild.
  { intros c. unfold childEntry, updFavorite. cbn [favoriteObjects].
    rewrite lookup_alter. case_decide; [subst|done].
    destruct (favoriteObjects t !! c) as [a|]; [|done]. cbn.
    by destruct (Hf a) as [-> ->]. }
  unfold entities. change (_favorites (updFavorite f r t)) with (_favorites t).
  apply list_omap_ext, Forall2_same_length_lookup.
  split; [done|]. intros i x y Hx Hy. simplify_eq.
  destruct x as [c|g].
  - unfold entryOf, updFavorite. cbn [favoriteObjects].
    rewrite lookup_alter. case_decide; [subst|done].
    destruct (favoriteObjects t !! c) as [a|]; [|done]. cbn.
    by destruct (Hf a) as [-> ->].
  - unfold entryOf. change (groupObjects (updFavorite f r t)) with (groupObjects t).
    destruct (groupObjects t !! g) as [o|]; [|done]. cbn. do 2 f_equal.
    apply list_omap_ext, Forall2_same_length_lookup.
    split; [done|]. intros j c c' Hc Hc'. simplify_eq. apply Hchild.
Qed.

Lemma legacy_favoriteActiveFile_run host node w p l :
  selectedElementPath host node = Some p -> p ≠ "" ->
  inputBox host "Label" p = Some l -> l ≠ "" ->
  let h := Legacy.favoriteActiveFile host node in
  let s := store w in
  let s' := store (exec h w) in
  ∃ r,
    objectOf s (AFavorite r) = None ∧
    objectOf s' (AFavorite r)
      = Some (inl (Favorite.mk (uuidv4 host (uuids w)) l p None None)) ∧
    _favorites s' = _favorites s ++ [AFavorite r] ∧
    (∀ x, x ≠ AFavorite r -> objectOf s' x = objectOf s x) ∧
    storeFile s' = Parsed (encode (entities s')) ∧
    emitted h w = [ShowInputBox "Label" p (Some l); ProviderRefresh None;
                   TreeViewReveal (AFavorite r)].
Proof.
  intros Hp Hpne Hl Hlne h s s'.
  destruct (loadFavorite_run host (l, p) w) as (Hr & _ & Hst).
  set (r := fresh (dom (favoriteObjects (store w)))) in *.
  exists r.
  assert (s' = writtenBack (setFavorites (_favorites s ++ [AFavorite r])
                              (store (exec (loadFavorite host (l, p)) w)))) as Hs'.
  { subst s' h. unfold Legacy.favoriteActiveFile.
    rewrite Hp, (truthy_path p Hpne). cbn [negb from_option id].
    rewrite exec_bind.
    change (result (showInputBox host ?a ?b) w) with (inputBox host a b).
    rewrite Hl, (truthy_Some l Hlne), (orEmpty_Some p Hpne). reflexivity. }
  assert (emitted h w = [ShowInputBox "Label" p (Some l); ProviderRefresh None;
                         TreeViewReveal (AFavorite r)]) as Hem.
  { subst h. unfold Legacy.favoriteActiveFile.
    rewrite Hp, (truthy_path p Hpne). cbn [negb from_option id].
    rewrite emitted_bind, emitted_showInputBox.
    change (result (showInputBox host ?a ?b) w) with (inputBox host a b).
    rewrite Hl, (truthy_Some l Hlne). cbn [negb from_option id].
    rewrite emitted_bind, emitted_newFavorite.
    change (result (newFavorite host) ?w') with (fresh (dom (favoriteObjects (store w')))).
    autorewrite with emitted. reflexivity. }
  rewrite Hs', Hst. cbn [writtenBack setStoreFile setFavorites _favorites storeFile
                        favoriteObjects groupObjects objectOf].
  split; [subst r s; by rewrite fresh_lookup|]. split; [by rewrite lookup_insert_eq|].
  split; [done|]. split; [|split; [done|exact Hem]].
  intros x Hx. by apply (objectOf_insert_favorite s r).
Qed.

Lemma legacy_favoriteActiveFile_wellFormed host node w :
  wellFormed (store w) -> nextUuidFresh host w ->
  wellFormed (store (exec (Legacy.favoriteActiveFile host node) w)).
Proof.
  intros Hwf Hfresh. unfold Legacy.favoriteActiveFile.
  destruct (truthy (selectedElementPath host node)); cbn [negb]; [|done].
  rewrite exec_bind.
  change (result (showInputBox host ?p ?v) w) with (inputBox host p v).
  change (exec (showInputBox host ?p ?v) w) with w.
  destruct (inputBox host _ _) as [l|] eqn:Hl; [|done].
  destruct (truthy (Some l)) eqn:Ht; cbn [negb]; [|done].
  set (p := orEmpty (selectedElementPath host node)).
  set (r := fresh (dom (favoriteObjects (store w)))).
  change (wellFormed (setFavorites (_favorites (store w) ++ [AFavorite r])
                        (store (exec (loadFavorite host (l, p)) w)))).
  destruct (loadFavorite_run host (l, p) w) as (_ & _ & ->). fold r.
  pose proof (fresh_lookup (favoriteObjects (store w))) as Hr. fold r in Hr.
  match goal with |- wellFormed (setFavorites _ ?t) => set (s1 := t) end.
  change (wellFormed (setFavorites (_favorites s1 ++ [AFavorite r]) s1)).
  apply (wellFormed_appends s1 (AFavorite r)).
  - by apply wellFormed_allocFavorite.
  - cbn. by rewrite lookup_insert_eq.
  - subst s1. rewrite (uuids_allocFavorite (store w) r _ Hr Hwf).
    unfold uuidOf, theFavorite. cbn [favoriteObjects]. by rewrite lookup_total_insert_eq.
  - done.
  - unfold parentNamed, theFavorite. subst s1. cbn [favoriteObjects].
    by rewrite lookup_total_insert_eq.
Qed.

(** X17. The add-to-favorites of favoriteManager.ts proposes the whole
    path as the label. With a path and a label given, it creates one
    favorite with the identifier that the generator yields next, that
    label and that path, appends it to the list of the store and has it
    written back; the store notifies the tree once and the favorite is
    revealed. When the store satisfies the invariants of the data model
    and the identifier is not one of the store, the store satisfies them
    afterwards: the identifier of the new favorite is unique. *)
Theorem legacy_favoriteActiveFile_adds host node w p l :
  selectedElementPath host node = Some p -> p ≠ "" ->
  inputBox host "Label" p = Some l -> l ≠ "" ->
  let h := Legacy.favoriteActiveFile host node in
  let s := store w in
  let s' := store (exec h w) in
  ∃ r,
    objectOf s (AFavorite r) = None ∧
    objectOf s' (AFavorite r)
      = Some (inl (Favorite.mk (uuidv4 host (uuids w)) l p None None)) ∧
    _favorites s' = _favorites s ++ [AFavorite r] ∧
    (∀ x, x ≠ AFavorite r -> objectOf s' x = objectOf s x) ∧
    storeFile s' = Parsed (encode (entities s')) ∧
    emitted h w = [ShowInputBox "Label" p (Some l); ProviderRefresh None;
                   TreeViewReveal (AFavorite r)] ∧
    (wellFormed s -> nextUuidFresh host w -> wellFormed s').
Proof.
  intros Hp Hpne Hl Hlne h s s'.
  destruct (legacy_favoriteActiveFile_run host node w p l Hp Hpne Hl Hlne)
    as (r & H1 & H2 & H3 & H4 & H5 & H6).
  exists r. split; [exact H1|]. split; [exact H2|]. split; [exact H3|].
  split; [exact H4|]. split; [exact H5|]. split; [exact H6|].
  intros Hwf Hfresh. by apply legacy_favoriteActiveFile_wellFormed.
Qed.

Lemma legacy_favoriteActiveFile_adds_witness :
  let host := user None (Some "plan") None None in
  let h := Legacy.favoriteActiveFile host (Some (mkNode (Some "/notes/plan.md"))) in
  ∃ r,
    objectOf (store exampleWorld) (AFavorite r) = None ∧
    objectOf (store (exec h exampleWorld)) (AFavorite r)
      = Some (inl (Favorite.mk "uuid-0" "plan" "/notes/plan.md" None None)) ∧
    _favorites (store (exec h exampleWorld))
      = _favorites (store exampleWorld) ++ [AFavorite r] ∧
    (∀ x, x ≠ AFavorite r ->
          objectOf (store (exec h exampleWorld)) x = objectOf (store exampleWorld) x) ∧
    storeFile (store (exec h exampleWorld))
      = Parsed (encode (entities (store (exec h exampleWorld)))) ∧
    emitted h exampleWorld
      = [ShowInputBox "Label" "/notes/plan.md" (Some "plan"); ProviderRefresh None;
         TreeViewReveal (AFavorite r)] ∧
    (wellFormed (store exampleWorld) -> nextUuidFresh host exampleWorld ->
     wellFormed (store (exec h exampleWorld))).
Proof.
  apply (legacy_favoriteActiveFile_adds (user None (Some "plan") None None)
           (Some (mkNode (Some "/notes/plan.md"))) exampleWorld "/notes/plan.md" "plan");
    first [reflexivity | by_computation].
Defined.

(** X18. The add-to-group of favoriteManager.ts pushes the new favorite onto
    the children of the group picked, has the store written back and only
    then sets the parent reference. With a group picked and a label
    given: the group holds one more child, the new favorite names the
    group as its parent, the document holds the entity list of the
    memory, and the tree is refreshed at the group. *)
Theorem legacy_favoriteActiveFileToGroup_adds host node w p l i g og :
  selectedElementPath host node = Some p -> p ≠ "" ->
  let s := store w in
  let groups := result storeGroups w in
  let shown := quickPickItem s <$> (AGroup <$> groups) in
  answerOf host shown = Some i -> groups !! i = Some g ->
  groupObjects s !! g = Some og ->
  inputBox host "Label" p = Some l -> l ≠ "" ->
  let h := Legacy.favoriteActiveFileToGroup host node in
  let s' := store (exec h w) in
  ∃ r,
    objectOf s (AFavorite r) = None ∧
    objectOf s' (AFavorite r)
      = Some (inl (Favorite.mk (uuidv4 host (uuids w)) l p (Some (Group.uuid og)) None)) ∧
    objectOf s' (AGroup g)
      = Some (inr (Group.mk (Group.uuid og) (Group.label og) (Group.children og ++ [r]))) ∧
    _favorites s' = _favorites s ∧
    (∀ x, x ≠ AFavorite r -> x ≠ AGroup g -> objectOf s' x = objectOf s x) ∧
    storeFile s' = Parsed (encode (entities s')) ∧
    emitted h w = [ShowQuickPick shown (Some i); ShowInputBox "Label" p (Some l);
                   ProviderRefresh (Some (AGroup g)); TreeViewReveal (AFavorite r)].
Proof.
  intros Hp Hpne s groups shown Hi Hg Hog Hl Hlne h s'.
  destruct (loadFavorite_run host (l, p) w) as (Hr & _ & Hst).
  set (r := fresh (dom (favoriteObjects (store w)))) in *.
  set (w1 := exec (loadFavorite host (l, p)) w) in *.
  set (F := Favorite.mk (uuidv4 host (uuids w)) l p None None).
  exists r.
  assert ((x ← (j ← answerOf host shown; (AGroup <$> groups) !! j); groupRef x) = Some g) as Hpick.
  { rewrite Hi. cbn [mbind option_bind]. rewrite list_lookup_fmap, Hg. done. }
  set (pushed := updGroup (fun o => Group.set_children (Group.children o ++ [r]) o) g
                          (store w1)).
  set (named := fun t => updFavorite (Favorite.set_parent (Some (uuidOf t (AGroup g)))) r t).
  assert (s' = named (writtenBack pushed)) as Hs'.
  { subst s' h. unfold Legacy.favoriteActiveFileToGroup.
    rewrite Hp, (truthy_path p Hpne). cbn [negb from_option id].
    rewrite exec_bind. change (exec storeGroups w) with w. fold groups.
    cbn [Legacy.arrayTruthy negb].
    rewrite exec_bind.
    destruct (showQuickPick_run host (AGroup <$> groups) w) as (-> & _ & ->).
    cbn zeta. fold s shown. rewrite Hpick.
    rewrite exec_bind.
    change (result (showInputBox host ?a ?b) w) with (inputBox host a b).
    rewrite Hl, (truthy_Some l Hlne), (orEmpty_Some p Hpne). reflexivity. }
  assert (emitted h w = [ShowQuickPick shown (Some i); ShowInputBox "Label" p (Some l);
                         ProviderRefresh (Some (AGroup g)); TreeViewReveal (AFavorite r)])
    as Hem.
  { subst h. unfold Legacy.favoriteActiveFileToGroup.
    rewrite Hp, (truthy_path p Hpne). cbn [negb from_option id].
    rewrite emitted_bind. change (exec storeGroups w) with w.
    change (emitted storeGroups w) with (@nil HostCall). fold groups.
    cbn [Legacy.arrayTruthy negb].
    rewrite emitted_bind.
    destruct (showQuickPick_run host (AGroup <$> groups) w) as (-> & -> & ->).
    cbn zeta. fold s shown. rewrite Hpick, Hi.
    rewrite emitted_bind, emitted_showInputBox.
    change (result (showInputBox host ?a ?b) w) with (inputBox host a b).
    rewrite Hl, (truthy_Some l Hlne). cbn [negb from_option id].
    rewrite emitted_bind, emitted_newFavorite.
    change (result (newFavorite host) ?w') with (fresh (dom (favoriteObjects (store w')))).
    reflexivity. }
  assert (uuidOf (writtenBack pushed) (AGroup g) = Group.uuid og) as Hu.
  { unfold uuidOf, theGroup, pushed, updGroup.
    cbn [groupObjects writtenBack setStoreFile]. rewrite Hst. cbn [groupObjects].
    rewrite lookup_total_alt, lookup_alter_eq. fold s. by rewrite Hog. }
  assert (storeFile s' = Parsed (encode (entities s'))) as Hfile.
  { rewrite Hs'. unfold named. rewrite entities_updFavorite by done. reflexivity. }
  split; [cbn [objectOf]; subst r s; by rewrite fresh_lookup|].
  split; [|split; [|split; [|split; [|split; [exact Hfile|exact Hem]]]]].
  - rewrite Hs'. unfold named. rewrite Hu. unfold pushed, updFavorite, updGroup.
    cbn [objectOf favoriteObjects writtenBack setStoreFile]. rewrite Hst.
    cbn [favoriteObjects]. by rewrite lookup_alter_eq, lookup_insert_eq.
  - rewrite Hs'. unfold named, pushed, updFavorite, updGroup.
    cbn [objectOf groupObjects writtenBack setStoreFile]. rewrite Hst.
    cbn [groupObjects]. fold s. by rewrite lookup_alter_eq, Hog.
  - rewrite Hs'. unfold named, pushed, updFavorite, updGroup.
    cbn [_favorites writtenBack setStoreFile]. by rewrite Hst.
  - rewrite Hs'. unfold named, pushed, updFavorite, updGroup.
    intros [c|g'] Hx Hy; cbn [objectOf favoriteObjects groupObjects writtenBack setStoreFile];
      rewrite Hst; cbn [favoriteObjects groupObjects].
    + rewrite lookup_alter_ne by congruence. rewrite lookup_insert_ne; [done|congruence].
    + rewrite lookup_alter_ne by congruence. done.
Qed.

Lemma legacy_favoriteActiveFileToGroup_adds_witness :
  let host := user (Some "/notes/plan.md") (Some "plan") (Some 1) None in
  let h := Legacy.favoriteActiveFileToGroup host None in
  let shown := [mkItem "Work" None; mkItem "Home" None] in
  ∃ r,
    objectOf (store exampleWorld) (AFavorite r) = None ∧
    objectOf (store (exec h exampleWorld)) (AFavorite r)
      = Some (inl (Favorite.mk "uuid-0" "plan" "/notes/plan.md" (Some "g-home") None)) ∧
    objectOf (store (exec h exampleWorld)) (AGroup 1)
      = Some (inr (Group.mk "g-home" "Home" ([] ++ [r]))) ∧
    _favorites (store (exec h exampleWorld)) = _favorites (store exampleWorld) ∧
    (∀ x, x ≠ AFavorite r -> x ≠ AGroup 1 ->
          objectOf (store (exec h exampleWorld)) x = objectOf (store exampleWorld) x) ∧
    storeFile (store (exec h exampleWorld))
      = Parsed (encode (entities (store (exec h exampleWorld)))) ∧
    emitted h exampleWorld
      = [ShowQuickPick shown (Some 1); ShowInputBox "Label" "/notes/plan.md" (Some "plan");
         ProviderRefresh (Some (AGroup 1)); TreeViewReveal (AFavorite r)].
Proof.
  apply (legacy_favoriteActiveFileToGroup_adds
           (user (Some "/notes/plan.md") (Some "plan") (Some 1) None)
           None exampleWorld "/notes/plan.md" "plan" 1 1 (Group.mk "g-home" "Home" []));
    first [reflexivity | by_computation].
Defined.
